(** * Applicant compression, shortlisting and LLM enrichment

    A shallow embedding of [main.py] (compressor, shortlist evaluator, LLM
    response parser, LLM evaluator with retry, orchestrator) and of
    [decompress.py] (decompressor), with the properties of the design
    document stated over it.

    Conventions of the embedding:
    - Python [str] values are [string]s of ASCII characters; [lower] and
      [strip] act on ASCII letters and ASCII white space, and a character
      above 127 (the Unicode white space and letters among them) is outside
      the model.  [int] keeps the interpreter's default limit of 4300
      digits.
    - A field map (a Python [dict] with string keys) is a [gmap string value];
      a [value] is a JSON value as the store and [json] hand it to the code.
    - [json.dumps] followed by [json.loads] is the identity on documents, so
      the [Compressed JSON] text field of a root record holds the document
      itself ([Document d]) or a text that does not parse ([Unparsable]).
    - The record store (Airtable through pyairtable) is a set of tables, each
      a list of records in store order; record identifiers are drawn from a
      counter.  [update] merges the given fields into the record (the
      library's default, a PATCH), [create] appends.  The store takes every
      field map it is given and keeps it as given, and refuses the update of
      a root record it does not hold: the call raises.  The updates of the
      [Compressed JSON] and of a dependent record are only made with the
      identifier of a record just read, and are total.  A filter
      [{Applicant} = 'id'] finds the records linked to the one root record
      that carries the applicant identifier.
    - The clock ([datetime.now()]) and the generation service are explicit
      arguments. *)

From Stdlib Require Import ZArith QArith Ascii String List Permutation.
From stdpp Require Import base option gmap strings pretty list fin_maps.

Set Warnings "-register-all".

Open Scope string_scope.
Open Scope Z_scope.

(** ** Python strings *)

Module PyStr.

Definition newline : ascii := "010"%char.

(** [c.isspace()] for an ASCII character. *)
Definition isspace (c : ascii) : bool :=
  let n := N_of_ascii c in
  ((9 <=? n) && (n <=? 13) || (28 <=? n) && (n <=? 32))%N.

Definition lower_char (c : ascii) : ascii :=
  let n := N_of_ascii c in
  if ((65 <=? n) && (n <=? 90))%N then ascii_of_N (n + 32) else c.

(** [s.lower()] *)
Fixpoint lower (s : string) : string :=
  match s with
  | "" => ""
  | String c t => String (lower_char c) (lower t)
  end.

(** [s.startswith(pre)] *)
Definition startswith (s pre : string) : bool := String.prefix pre s.

(** [needle in hay] *)
Fixpoint contains (needle hay : string) : bool :=
  String.prefix needle hay ||
  match hay with
  | "" => false
  | String _ t => contains needle t
  end.

Fixpoint lstrip (s : string) : string :=
  match s with
  | "" => ""
  | String c t => if isspace c then lstrip t else s
  end.

Definition rstrip (s : string) : string := String.rev (lstrip (String.rev s)).

(** [s.strip()] *)
Definition strip (s : string) : string := rstrip (lstrip s).

(** [s.split('\n')]: never empty, [''.split('\n') == ['']]. *)
Fixpoint split_lines (s : string) : list string :=
  match s with
  | "" => [""]
  | String c t =>
      if Ascii.eqb c newline then "" :: split_lines t
      else match split_lines t with
           | h :: r => String c h :: r
           | [] => [String c ""]
           end
  end.

(** [s.replace(pat, "")] for a non-empty [pat]: every occurrence, scanning
    from the left without overlap, is dropped.  [skip] counts the characters
    of a matched occurrence still to be dropped. *)
Fixpoint remove_go (pat : string) (skip : nat) (s : string) : string :=
  match s with
  | "" => ""
  | String c t =>
      match skip with
      | S k => remove_go pat k t
      | O => if String.prefix pat s
             then remove_go pat (String.length pat - 1) t
             else String c (remove_go pat 0 t)
      end
  end.

Definition remove_all (pat s : string) : string := remove_go pat 0 s.

Definition digit (c : ascii) : option Z :=
  let n := N_of_ascii c in
  if ((48 <=? n) && (n <=? 57))%N then Some (Z.of_N n - 48) else None.

(** Digits with single underscores between them, as [int()] reads them.
    [acc] is the value so far, [prev] tells whether the previous character
    was a digit. *)
Fixpoint int_digits (acc : Z) (prev : bool) (s : string) : option Z :=
  match s with
  | "" => if prev then Some acc else None
  | String c t =>
      match digit c with
      | Some d => int_digits (acc * 10 + d) true t
      | None =>
          if Ascii.eqb c "_" && prev then int_digits acc false t else None
      end
  end.

(** The interpreter's limit on the digits of a decimal text,
    [sys.get_int_max_str_digits()], at its default. *)
Definition max_str_digits : Z := 4300.

Fixpoint count_digits (s : string) : Z :=
  match s with
  | "" => 0
  | String c t =>
      match digit c with
      | Some _ => 1 + count_digits t
      | None => count_digits t
      end
  end.

(** [int(s)] in base ten: [None] stands for [ValueError], which a text that
    is not a number raises, and a number of more digits than the limit. *)
Definition int (s : string) : option Z :=
  let t := strip s in
  if max_str_digits <? count_digits t then None
  else match t with
       | String "-" t => Z.opp <$> int_digits 0 false t
       | String "+" t => int_digits 0 false t
       | t => int_digits 0 false t
       end.

End PyStr.


(** ** JSON values and field maps *)

(** Identifier of a record: an opaque text the store assigns. *)
Definition rid := string.

(** A Python [float]. *)
Inductive pyfloat :=
| Finite (q : Q)
| PosInf
| NegInf
| NaN.

(** A value of a field. *)
Inductive value :=
| VNull
| VBool (b : bool)
| VInt (n : Z)
| VFloat (x : pyfloat)
| VStr (s : string)
| VList (l : list value)
| VDict (d : list (string * value)).

Abbreviation fields := (gmap string value).

(** Python truthiness, [bool(v)]. *)
Definition truthy (v : value) : bool :=
  match v with
  | VNull => false
  | VBool b => b
  | VInt n => negb (n =? 0)
  | VFloat (Finite q) => negb (Qeq_bool q 0)
  | VFloat _ => true
  | VStr s => negb (String.eqb s "")
  | VList l => match l with [] => false | _ => true end
  | VDict d => match d with [] => false | _ => true end
  end.

(** [d.get(k)]: a missing key reads as [None]. *)
Definition get (d : fields) (k : string) : value := default VNull (d !! k).

(** [d.get(k, dflt)] *)
Definition get_or (d : fields) (k : string) (dflt : value) : value :=
  default dflt (d !! k).

(** [bool(d)] for a dict. *)
Definition nonempty (d : fields) : bool := negb (bool_decide (size d = 0%nat)).

(** ** Exceptions *)

(** [ServiceError] stands for whatever the generation service or the store
    raises. *)
Inductive exn :=
  ValueError | TypeError | AttributeError | KeyError | ServiceError.

Inductive result (A : Type) :=
| Ok (a : A)
| Raise (e : exn).
Arguments Ok {A} a.
Arguments Raise {A} e.

#[global] Instance result_ret : MRet result := @Ok.
#[global] Instance result_bind : MBind result := fun A B k m =>
  match m with
  | Ok a => k a
  | Raise e => Raise e
  end.
#[global] Instance result_fmap : FMap result := fun A B f m =>
  match m with
  | Ok a => Ok (f a)
  | Raise e => Raise e
  end.

(** ** Numbers and comparisons *)

(** The number a value stands for in a comparison; [bool] is a subclass of
    [int].  Anything else is not ordered against a number. *)
Definition as_number (v : value) : option pyfloat :=
  match v with
  | VBool b => Some (Finite (if b then 1 else 0))
  | VInt n => Some (Finite (inject_Z n))
  | VFloat x => Some x
  | _ => None
  end.

Definition float_le (x y : pyfloat) : bool :=
  match x, y with
  | NaN, _ | _, NaN => false
  | NegInf, _ => true
  | _, PosInf => true
  | Finite a, Finite b => Qle_bool a b
  | _, _ => false
  end.

(** [a <= b] *)
Definition py_le (a b : value) : result bool :=
  match as_number a, as_number b with
  | Some x, Some y => Ok (float_le x y)
  | _, _ => Raise TypeError
  end.

(** [a >= b] *)
Definition py_ge (a b : value) : result bool := py_le b a.

(** [v.lower()]: only a [str] has the method. *)
Definition py_lower (v : value) : result string :=
  match v with
  | VStr s => Ok (PyStr.lower s)
  | _ => Raise AttributeError
  end.

(** ** Dates: [datetime.strptime(s, "%Y-%m-%d")] *)

Record date := mkdate { year : Z; month : Z; day : Z }.

Module Strptime.

Import PyStr.

Definition is_leap (y : Z) : bool :=
  (y mod 4 =? 0) && (negb (y mod 100 =? 0) || (y mod 400 =? 0)).

Definition days_in_month (y m : Z) : Z :=
  if m =? 2 then (if is_leap y then 29 else 28)
  else if (m =? 4) || (m =? 6) || (m =? 9) || (m =? 11) then 30
  else 31.

(** The directive [%Y]: four digits. *)
Definition directive_Y (s : string) : option (Z * string) :=
  match s with
  | String a (String b (String c (String d rest))) =>
      match digit a, digit b, digit c, digit d with
      | Some a, Some b, Some c, Some d =>
          Some (a * 1000 + b * 100 + c * 10 + d, rest)
      | _, _, _, _ => None
      end
  | _ => None
  end.

(** One digit from 1 to 9, consuming one character of [s]. *)
Definition one_digit (x : Z) (t : string) : option (Z * string) :=
  if 1 <=? x then Some (x, t) else None.

(** The directive [%m]: [1[0-2]|0[1-9]|[1-9]], alternatives tried in this
    order. *)
Definition directive_m (s : string) : option (Z * string) :=
  match s with
  | String a t =>
      match digit a with
      | Some x =>
          match t with
          | String b rest =>
              match digit b with
              | Some y =>
                  if (x =? 1) && (y <=? 2) then Some (10 + y, rest)
                  else if (x =? 0) && (1 <=? y) then Some (y, rest)
                  else one_digit x t
              | None => one_digit x t
              end
          | "" => one_digit x t
          end
      | None => None
      end
  | "" => None
  end.

(** The directive [%d]: [3[01]|[12]\d|0[1-9]|[1-9]| [1-9]], alternatives
    tried in this order. *)
Definition directive_d (s : string) : option (Z * string) :=
  match s with
  | String a t =>
      match digit a with
      | Some x =>
          match t with
          | String b rest =>
              match digit b with
              | Some y =>
                  if (x =? 3) && (y <=? 1) then Some (30 + y, rest)
                  else if (1 <=? x) && (x <=? 2) then Some (x * 10 + y, rest)
                  else if (x =? 0) && (1 <=? y) then Some (y, rest)
                  else one_digit x t
              | None => one_digit x t
              end
          | "" => one_digit x t
          end
      | None =>
          if Ascii.eqb a " " then
            match t with
            | String b rest => x ← digit b; one_digit x rest
            | "" => None
            end
          else None
      end
  | "" => None
  end.

Definition literal (c : ascii) (s : string) : option string :=
  match s with
  | String a t => if Ascii.eqb a c then Some t else None
  | "" => None
  end.

(** The format must consume the whole text, and the fields must make a date
    ([1 <= year], a day the month has).  [None] stands for [ValueError]. *)
Definition parse (s : string) : option date :=
  '(y, s1) ← directive_Y s;
  s2 ← literal "-" s1;
  '(m, s3) ← directive_m s2;
  s4 ← literal "-" s3;
  '(d, s5) ← directive_d s4;
  if String.eqb s5 "" && (1 <=? y) && (d <=? days_in_month y m)
  then Some (mkdate y m d) else None.

(** [datetime.strptime(v, "%Y-%m-%d")]: an argument that is not a [str]
    raises [TypeError], a text that does not match raises [ValueError]. *)
Definition strptime (v : value) : result date :=
  match v with
  | VStr s => match parse s with
              | Some d => Ok d
              | None => Raise ValueError
              end
  | _ => Raise TypeError
  end.

End Strptime.

(** ** [calculate_total_experience] *)

(** The body of the [try] block for one job. *)
Definition job_months (now : date) (job : fields) : result Z :=
  start_date ← Strptime.strptime (get job "Start");
  let end_date_str := get job "End" in
  end_date ← (if truthy end_date_str
              then Strptime.strptime end_date_str
              else Ok now);
  Ok ((year end_date - year start_date) * 12
      + (month end_date - month start_date)).

(** The loop: [ValueError] and [TypeError] skip the entry, any other
    exception leaves the function. *)
Fixpoint total_months_from (now : date) (total_months : Z)
    (experience_list : list fields) : result Z :=
  match experience_list with
  | [] => Ok total_months
  | job :: rest =>
      match job_months now job with
      | Ok m => total_months_from now (total_months + m) rest
      | Raise ValueError | Raise TypeError =>
          total_months_from now total_months rest
      | Raise e => Raise e
      end
  end.

(** [total_months / 12], a float: its value as a rational. *)
Definition calculate_total_experience (now : date)
    (experience_list : list fields) : result Q :=
  total_months ← total_months_from now 0 experience_list;
  Ok (inject_Z total_months / 12)%Q.

(** ** The compressed JSON document *)

(** The three sections.  A key missing from the JSON object reads as the
    empty section ([.get("personal", {})], [.get("experience", [])]). *)
Record compressed := mkdoc {
  personal : fields;
  experience : list fields;
  salary : fields
}.

(** The text of the [Compressed JSON] field: [Document d] is a text that
    [json.loads] reads as the object [d], [Unparsable] one it rejects with
    [JSONDecodeError].  A JSON text of another shape (not an object, or a
    section that is not an object or an array of objects) is outside the
    model. *)
Inductive json_text :=
| Document (d : compressed)
| Unparsable.

(** ** The record store *)

(** A record of a dependent table. *)
Record record := mkrec { rec_id : rid; rec_fields : fields }.

(** A record of the [Applicants] table; [root_fields] holds every field but
    [Compressed JSON], which is [None] when the record has no such field
    ([KeyError]). *)
Record root := mkroot {
  root_id : rid;
  root_fields : fields;
  compressed_json : option json_text
}.

(** The values the [Score Reason] template is filled with: experience years
    (printed with one decimal), the tier-1 flag, rate, availability and the
    raw location. *)
Record score_reason := mkreason {
  reason_exp_years : Q;
  reason_tier_1 : bool;
  reason_rate : value;
  reason_availability : value;
  reason_location : value
}.

(** A record of the [Shortlisted Leads] table. *)
Record lead := mklead {
  lead_id : rid;
  lead_applicant : list rid;
  lead_json : compressed;
  lead_reason : score_reason
}.

Inductive table := Applicants | Personal | Experience | Salary | Leads.

(** What the program does to the outside: writes to the store, calls to the
    generation service, sleeps.  A read, or a write the store refuses,
    changes nothing and leaves no event. *)
Inductive event :=
| Created (t : table) (n : nat)
| Updated (t : table) (r : rid)
| Deleted (t : table) (n : nat)
| Generated
| Slept (seconds : Z).

Record world := mkworld {
  applicants : list root;
  personal_details : list record;
  work_experience : list record;
  salary_preferences : list record;
  shortlisted_leads : list lead;
  next_id : nat;
  trace : list event
}.

(** The identifier the store gives to its [n]-th new record. *)
Definition fresh_id (n : nat) : rid := "rec" +:+ pretty n.

Inductive child := ChildPersonal | ChildExperience | ChildSalary.

Definition table_of (c : child) : table :=
  match c with
  | ChildPersonal => Personal
  | ChildExperience => Experience
  | ChildSalary => Salary
  end.

Definition rows (c : child) (w : world) : list record :=
  match c with
  | ChildPersonal => personal_details w
  | ChildExperience => work_experience w
  | ChildSalary => salary_preferences w
  end.

Definition set_rows (c : child) (t : list record) (w : world) : world :=
  match c with
  | ChildPersonal =>
      mkworld (applicants w) t (work_experience w) (salary_preferences w)
        (shortlisted_leads w) (next_id w) (trace w)
  | ChildExperience =>
      mkworld (applicants w) (personal_details w) t (salary_preferences w)
        (shortlisted_leads w) (next_id w) (trace w)
  | ChildSalary =>
      mkworld (applicants w) (personal_details w) (work_experience w) t
        (shortlisted_leads w) (next_id w) (trace w)
  end.

Definition log (e : event) (w : world) : world :=
  mkworld (applicants w) (personal_details w) (work_experience w)
    (salary_preferences w) (shortlisted_leads w) (next_id w) (trace w ++ [e]).

Definition set_next_id (n : nat) (w : world) : world :=
  mkworld (applicants w) (personal_details w) (work_experience w)
    (salary_preferences w) (shortlisted_leads w) n (trace w).

Definition set_applicants (t : list root) (w : world) : world :=
  mkworld t (personal_details w) (work_experience w)
    (salary_preferences w) (shortlisted_leads w) (next_id w) (trace w).

Definition set_leads (t : list lead) (w : world) : world :=
  mkworld (applicants w) (personal_details w) (work_experience w)
    (salary_preferences w) t (next_id w) (trace w).

(** *** Filter formulas *)

(** [{Applicant ID} = 'applicant_id'] on a root record. *)
Definition has_applicant_id (applicant_id : string) (a : root) : bool :=
  match root_fields a !! "Applicant ID" with
  | Some (VStr x) => String.eqb x applicant_id
  | _ => false
  end.

(** [{Applicant} = 'applicant_id'] on a dependent record: its link field
    names one root record, and that record carries the applicant
    identifier. *)
Definition linked_to (roots : list root) (applicant_id : string)
    (r : record) : bool :=
  match rec_fields r !! "Applicant" with
  | Some (VList [VStr i]) =>
      existsb (fun a => String.eqb (root_id a) i
                        && has_applicant_id applicant_id a) roots
  | _ => false
  end.

(** *** Operations of a table *)

(** [table.first(formula=...)] *)
Definition first {A} (p : A -> bool) (t : list A) : option A := List.find p t.

(** [table.all(formula=...)] *)
Definition all {A} (p : A -> bool) (t : list A) : list A := List.filter p t.

(** [table.update(record_id, data)] on a dependent table: the given fields
    replace or extend those of the record, the others stay.  The code calls
    it with the identifier of a record it has just read from the table. *)
Definition update (c : child) (record_id : rid) (data : fields)
    (w : world) : world :=
  let upd r := if String.eqb (rec_id r) record_id
               then mkrec (rec_id r) (data ∪ rec_fields r) else r in
  log (Updated (table_of c) record_id) (set_rows c (upd <$> rows c w) w).

(** [table.batch_create(records)]: one new record per field map, in order. *)
Fixpoint new_records (n : nat) (records : list fields) : list record :=
  match records with
  | [] => []
  | f :: rest => mkrec (fresh_id n) f :: new_records (S n) rest
  end.

Definition batch_create (c : child) (records : list fields)
    (w : world) : world :=
  log (Created (table_of c) (length records))
    (set_next_id (next_id w + length records)%nat
       (set_rows c (rows c w ++ new_records (next_id w) records) w)).

(** [table.create(data)] *)
Definition create (c : child) (data : fields) (w : world) : world :=
  batch_create c [data] w.

(** [table.batch_delete(record_ids)] *)
Definition batch_delete (c : child) (record_ids : list rid)
    (w : world) : world :=
  let keep r := negb (existsb (String.eqb (rec_id r)) record_ids) in
  log (Deleted (table_of c) (length record_ids))
    (set_rows c (List.filter keep (rows c w)) w).

(** [APPLICANTS_TABLE.update(record_id, {"Compressed JSON": json.dumps(d)})],
    called with the identifier of the root record just read. *)
Definition update_compressed_json (record_id : rid) (d : compressed)
    (w : world) : world :=
  let upd a := if String.eqb (root_id a) record_id
               then mkroot (root_id a) (root_fields a) (Some (Document d))
               else a in
  log (Updated Applicants record_id) (set_applicants (upd <$> applicants w) w).

(** The store after an update of the root record [record_id] with parsed
    fields. *)
Definition write_applicant (record_id : rid) (update_data : fields)
    (w : world) : world :=
  let upd a := if String.eqb (root_id a) record_id
               then mkroot (root_id a) (update_data ∪ root_fields a)
                      (compressed_json a)
               else a in
  log (Updated Applicants record_id) (set_applicants (upd <$> applicants w) w).

(** The root table holds a record with this identifier. *)
Definition holds_applicant (record_id : rid) (w : world) : bool :=
  existsb (fun a => String.eqb (root_id a) record_id) (applicants w).

(** [APPLICANTS_TABLE.update(record_id, update_data)] with parsed fields: the
    store refuses an identifier it does not hold, the call raises and nothing
    is written. *)
Definition update_applicant (record_id : rid) (update_data : fields)
    (w : world) : result world :=
  if holds_applicant record_id w
  then Ok (write_applicant record_id update_data w)
  else Raise ServiceError.

(** [SHORTLISTED_LEADS_TABLE.create({...})] *)
Definition create_lead (applicant : list rid) (d : compressed)
    (reason : score_reason) (w : world) : world :=
  log (Created Leads 1)
    (set_next_id (S (next_id w))
       (set_leads (shortlisted_leads w
                   ++ [mklead (fresh_id (next_id w)) applicant d reason]) w)).

(** ** Shortlisting *)

Definition TIER_1_COMPANIES : list string :=
  ["google"; "meta"; "openai"; "apple"; "amazon"; "netflix"; "microsoft"].

Definition APPROVED_LOCATIONS : list string :=
  ["us"; "united states"; "canada"; "uk"; "united kingdom"; "germany"; "india"].

(** [x in TIER_1_COMPANIES] *)
Definition is_tier_1 (x : string) : bool := existsb (String.eqb x) TIER_1_COMPANIES.

(** [any(job.get("Company", "").lower() in TIER_1_COMPANIES for job in
    experience_list)]: stops at the first hit. *)
Fixpoint any_tier_1 (experience_list : list fields) : result bool :=
  match experience_list with
  | [] => Ok false
  | job :: rest =>
      company ← py_lower (get_or job "Company" (VStr ""));
      if is_tier_1 company then Ok true else any_tier_1 rest
  end.

(** [rate is not None and rate <= 100] and its like: [and] short-circuits. *)
Definition not_none_and (v : value) (test : result bool) : result bool :=
  match v with
  | VNull => Ok false
  | _ => test
  end.

(** [any(loc in location for loc in APPROVED_LOCATIONS)] *)
Definition location_allowed (location : string) : bool :=
  existsb (fun loc => PyStr.contains loc location) APPROVED_LOCATIONS.

(** [evaluate_shortlisting] up to the final decision: [Some reason] when the
    applicant is shortlisted. *)
Definition shortlist_decision (now : date) (applicant_json : compressed)
    : result (option score_reason) :=
  let experience_list := experience applicant_json in
  total_exp_years ← calculate_total_experience now experience_list;
  worked_at_tier_1 ← any_tier_1 experience_list;
  let experience_ok := Qle_bool 4 total_exp_years || worked_at_tier_1 in
  let salary := salary applicant_json in
  let rate := get_or salary "Preferred Rate" (VFloat PosInf) in
  let availability := get_or salary "Availability (hrs/wk)" (VInt 0) in
  rate_ok ← not_none_and rate (py_le rate (VInt 100));
  compensation_ok ←
    (if (rate_ok : bool)
     then not_none_and availability (py_ge availability (VInt 20))
     else Ok false);
  let personal := personal applicant_json in
  location ← py_lower (get_or personal "Location" (VStr ""));
  let location_ok := location_allowed location in
  if experience_ok && compensation_ok && location_ok
  then Ok (Some (mkreason total_exp_years worked_at_tier_1 rate availability
                   (get personal "Location")))
  else Ok None.

Definition evaluate_shortlisting (now : date) (applicant_record : root)
    (applicant_json : compressed) (w : world) : result world :=
  decision ← shortlist_decision now applicant_json;
  match decision with
  | Some reason =>
      Ok (create_lead [root_id applicant_record] applicant_json reason w)
  | None => Ok w
  end.

(** ** [parse_llm_response] *)

Inductive section := SecSummary | SecScore | SecFollowUps.

Definition is_follow_ups (s : option section) : bool :=
  match s with
  | Some SecFollowUps => true
  | _ => false
  end.

(** [parsed_data["LLM Follow-Ups"] += text] *)
Definition append_follow_ups (parsed_data : fields) (text : string)
    : result fields :=
  match parsed_data !! "LLM Follow-Ups" with
  | Some (VStr old) => Ok (<["LLM Follow-Ups" := VStr (old +:+ text)]> parsed_data)
  | Some _ => Raise TypeError
  | None => Raise KeyError
  end.

Definition nl : string := String PyStr.newline "".

(** One turn of the loop over the lines: the state is [parsed_data] and
    [current_section]. *)
Definition scan_line (st : fields * option section) (line : string)
    : result (fields * option section) :=
  let '(parsed_data, current_section) := st in
  if PyStr.startswith line "Summary:" then
    Ok (<["LLM Summary" := VStr (PyStr.strip (PyStr.remove_all "Summary:" line))]>
          parsed_data, Some SecSummary)
  else if PyStr.startswith line "Score:" then
    match PyStr.int (PyStr.strip (PyStr.remove_all "Score:" line)) with
    | Some n => Ok (<["LLM Score" := VInt n]> parsed_data, Some SecScore)
    | None => Ok (parsed_data, current_section)
    end
  else if PyStr.startswith line "Issues:" || PyStr.startswith line "Follow-Ups:" then
    let parsed_data :=
      match parsed_data !! "LLM Follow-Ups" with
      | None => <["LLM Follow-Ups" := VStr ""]> parsed_data
      | Some _ => parsed_data
      end in
    parsed_data ← append_follow_ups parsed_data (line +:+ nl);
    Ok (parsed_data, Some SecFollowUps)
  else if is_follow_ups current_section
          && negb (String.eqb (PyStr.strip line) "") then
    parsed_data ← append_follow_ups parsed_data (line +:+ nl);
    Ok (parsed_data, current_section)
  else Ok st.

Fixpoint scan_lines (st : fields * option section) (lines : list string)
    : result (fields * option section) :=
  match lines with
  | [] => Ok st
  | line :: rest => st' ← scan_line st line; scan_lines st' rest
  end.

(** The strip of the follow-ups after the loop. *)
Definition finish (parsed_data : fields) : fields :=
  match parsed_data !! "LLM Follow-Ups" with
  | Some (VStr s) => <["LLM Follow-Ups" := VStr (PyStr.strip s)]> parsed_data
  | _ => parsed_data
  end.

Definition parse_llm_response (response_text : string) : result fields :=
  let lines := PyStr.split_lines (PyStr.strip response_text) in
  st ← scan_lines (∅, None) lines;
  Ok (finish st.1).

(** ** [evaluate_with_llm] *)

(** The generation service: what the call returns, given how many calls were
    made before and the document in the prompt. *)
Definition service := nat -> compressed -> result string.

Definition is_generated (e : event) : bool :=
  match e with
  | Generated => true
  | _ => false
  end.

(** Calls made to the generation service so far. *)
Definition generated (w : world) : nat :=
  length (List.filter is_generated (trace w)).

Definition max_retries : nat := 3.

(** The body of the [try] block up to the update. *)
Definition ask (gen : service) (applicant_json : compressed) (w : world)
    : result fields :=
  response_text ← gen (generated w) applicant_json;
  parse_llm_response response_text.

(** The whole body of the [try] block: the call, the parse and, when a field
    was parsed, the update; the update is inside the block, so an update the
    store refuses is caught like a failed call. *)
Definition attempt_once (gen : service) (applicant_record : root)
    (applicant_json : compressed) (w : world) : result world :=
  update_data ← ask gen applicant_json w;
  if nonempty update_data
  then update_applicant (root_id applicant_record) update_data
         (log Generated w)
  else Ok (log Generated w).

(** The retry loop, [for attempt in range(max_retries)]. *)
Fixpoint llm_attempts (gen : service) (applicant_record : root)
    (applicant_json : compressed) (attempts : list nat) (w : world) : world :=
  match attempts with
  | [] => w
  | attempt :: rest =>
      match attempt_once gen applicant_record applicant_json w with
      | Ok w' => w'
      | Raise _ =>
          if (attempt <? max_retries - 1)%nat
          then llm_attempts gen applicant_record applicant_json rest
                 (log (Slept (2 ^ Z.of_nat attempt)) (log Generated w))
          else llm_attempts gen applicant_record applicant_json rest
                 (log Generated w)
      end
  end.

Definition evaluate_with_llm (gen : service) (applicant_record : root)
    (applicant_json : compressed) (w : world) : world :=
  if truthy (get (root_fields applicant_record) "LLM Score") then w
  else llm_attempts gen applicant_record applicant_json (seq 0 max_retries) w.

(** ** [compress_evaluate_enrich] *)

(** [rec.get('fields', {})] with the back-reference popped; no record gives
    the empty dict. *)
Definition section_of (r : option record) : fields :=
  delete "Applicant" (default ∅ (rec_fields <$> r)).

(** Steps 2 and 3: the document built from the dependent records. *)
Definition build_json (applicant_id : string) (w : world) : compressed :=
  let mine := linked_to (applicants w) applicant_id in
  let personal_details := first mine (personal_details w) in
  let work_experiences := all mine (work_experience w) in
  let salary_prefs := first mine (salary_preferences w) in
  mkdoc (section_of personal_details)
        ((fun exp => delete "Applicant" (rec_fields exp)) <$> work_experiences)
        (section_of salary_prefs).

Definition compress_evaluate_enrich (now : date) (gen : service)
    (applicant_id_to_process : string) (w : world) : world :=
  match first (has_applicant_id applicant_id_to_process) (applicants w) with
  | None => w
  | Some applicant_record =>
      let record_id := root_id applicant_record in
      let final_json := build_json applicant_id_to_process w in
      let w := update_compressed_json record_id final_json w in
      match evaluate_shortlisting now applicant_record final_json w with
      | Ok w => evaluate_with_llm gen applicant_record final_json w
      | Raise _ => w
      end
  end.

(** ** [decompress_applicant_data] *)

(** The back-reference set and the identifier popped. *)
Definition reattach (record_id : rid) (data : fields) : fields :=
  delete "Id" (<["Applicant" := VList [VStr record_id]]> data).

(** Sections 3 and 5: upsert of a one-to-one record. *)
Definition upsert (c : child) (applicant_id : string) (record_id : rid)
    (data : fields) (w : world) : world :=
  if nonempty data then
    let existing := first (linked_to (applicants w) applicant_id) (rows c w) in
    match existing with
    | Some r => update c (rec_id r) (reattach record_id data) w
    | None => create c (reattach record_id data) w
    end
  else w.

(** Section 4: the work experience is deleted and created anew. *)
Definition sync_experience (applicant_id : string) (record_id : rid)
    (experience_data : list fields) (w : world) : world :=
  match experience_data with
  | [] => w
  | _ =>
      let existing_exp_records :=
        all (linked_to (applicants w) applicant_id) (work_experience w) in
      let w :=
        match existing_exp_records with
        | [] => w
        | _ => batch_delete ChildExperience (rec_id <$> existing_exp_records) w
        end in
      batch_create ChildExperience (reattach record_id <$> experience_data) w
  end.

Definition decompress_applicant_data (applicant_id_to_process : string)
    (w : world) : world :=
  match first (has_applicant_id applicant_id_to_process) (applicants w) with
  | None => w
  | Some applicant_record =>
      let record_id := root_id applicant_record in
      match compressed_json applicant_record with
      | Some (Document applicant_data) =>
          let w := upsert ChildPersonal applicant_id_to_process record_id
                     (personal applicant_data) w in
          let w := sync_experience applicant_id_to_process record_id
                     (experience applicant_data) w in
          upsert ChildSalary applicant_id_to_process record_id
            (salary applicant_data) w
      | _ => w
      end
  end.

(** * Specification *)

(** ** The scanner of LLM responses *)

(** Invariant of the scanner: the follow-ups entry, once there, is a text; in
    the follow-ups section it is there. *)
Definition scanner_inv (st : fields * option section) : Prop :=
  (forall v, st.1 !! "LLM Follow-Ups" = Some v -> exists s, v = VStr s)
  /\ (is_follow_ups st.2 = true -> is_Some (st.1 !! "LLM Follow-Ups")).

Definition is_summary_line (line : string) : bool :=
  PyStr.startswith line "Summary:".

Definition summary_of (line : string) : value :=
  VStr (PyStr.strip (PyStr.remove_all "Summary:" line)).

Definition score_of (line : string) : option Z :=
  PyStr.int (PyStr.strip (PyStr.remove_all "Score:" line)).

(** A [Score:] line whose number reads as an integer. *)
Definition is_score_line (line : string) : bool :=
  PyStr.startswith line "Score:" && bool_decide (is_Some (score_of line)).

(** A line that opens the follow-ups. *)
Definition is_follow_up_label (line : string) : bool :=
  PyStr.startswith line "Issues:" || PyStr.startswith line "Follow-Ups:".

(** A line that carries neither of the two other labels. *)
Definition is_plain (line : string) : bool :=
  negb (PyStr.startswith line "Summary:") && negb (PyStr.startswith line "Score:").

Definition is_blank (line : string) : bool := String.eqb (PyStr.strip line) "".

(** The lines of [lines] that the follow-ups section takes in. *)
Definition taken (lines : list string) : list string :=
  List.filter (fun line => is_follow_up_label line || negb (is_blank line)) lines.

(** Each line followed by a line feed. *)
Fixpoint unlines (lines : list string) : string :=
  match lines with
  | [] => ""
  | line :: rest => (line +:+ nl) +:+ unlines rest
  end.

(** The response of the design document's example. *)
Definition example_response : string :=
  "Summary: Strong candidate" +:+ nl +:+ "Score: 8" +:+ nl
  +:+ "Follow-Ups: - Ask about visa status" +:+ nl
  +:+ "- Ask about notice period".

Definition example_parsed : fields :=
  {[ "LLM Summary" := VStr "Strong candidate";
     "LLM Score" := VInt 8;
     "LLM Follow-Ups" :=
       VStr ("Follow-Ups: - Ask about visa status" +:+ nl
             +:+ "- Ask about notice period") ]}.

(** The example with its sections in another order. *)
Definition example_reordered : string :=
  "Follow-Ups: - Ask about visa status" +:+ nl
  +:+ "- Ask about notice period" +:+ nl
  +:+ "Score: 8" +:+ nl +:+ "Summary: Strong candidate".

(** The lines the scanner walks over. *)
Definition lines_of (response_text : string) : list string :=
  PyStr.split_lines (PyStr.strip response_text).

(** ** Example documents *)

(** The two entries of the design document's experience example. *)
Definition example_experience : list fields :=
  [ {[ "Start" := VStr "2019-01-01"; "End" := VStr "2021-01-01" ]};
    {[ "Start" := VStr "2021-06-01"; "End" := VNull ]} ].

(** Four years of experience, rate 80, availability 25, in Australia. *)
Definition australian_document : compressed :=
  mkdoc {[ "Location" := VStr "Australia" ]}
        example_experience
        {[ "Preferred Rate" := VInt 80; "Availability (hrs/wk)" := VInt 25 ]}.

(** ** Experience years, as the design document states them *)

Definition month_difference (a b : date) : Z :=
  (year b - year a) * 12 + (month b - month a).

(** The date a field holds, when it holds a text in the date format. *)
Definition date_of (v : option value) : option date :=
  match v with
  | Some (VStr s) => Strptime.parse s
  | _ => None
  end.

Definition start_of (job : fields) : option date := date_of (job !! "Start").

(** The end of a job: the current date when [End] is absent or null, else the
    date it holds; undefined when it holds anything else. *)
Definition end_of (now : date) (job : fields) : option date :=
  match job !! "End" with
  | None | Some VNull => Some now
  | v => date_of v
  end.

(** An entry with a parseable [Start] has an [End] that is absent, null or a
    date. *)
Definition dated (now : date) (job : fields) : Prop :=
  is_Some (start_of job) -> is_Some (end_of now job).

(** Months of one entry; [None] for an entry that is skipped. *)
Definition months_of (now : date) (job : fields) : option Z :=
  s ← start_of job; e ← end_of now job; Some (month_difference s e).

(** The sum over the entries with a parseable [Start]. *)
Fixpoint experience_months (now : date) (jobs : list fields) : Z :=
  match jobs with
  | [] => 0
  | job :: rest => default 0 (months_of now job) + experience_months now rest
  end.

(** *** The sum, with every [End] accounted for *)

(** The end of a job as the calculation reads it: the current date when
    [End] is absent, null or otherwise falsy (an empty text, zero, false),
    else the date it holds; undefined when it holds anything else. *)
Definition end_read (now : date) (job : fields) : option date :=
  match job !! "End" with
  | None => Some now
  | Some v => if truthy v then date_of (Some v) else Some now
  end.

(** Months of one entry; [None] for an entry that is skipped: its [Start] is
    not a date, or its [End] is truthy and not a date. *)
Definition months_read (now : date) (job : fields) : option Z :=
  s ← start_of job; e ← end_read now job; Some (month_difference s e).

(** The sum over the entries that are not skipped. *)
Fixpoint months_total (now : date) (jobs : list fields) : Z :=
  match jobs with
  | [] => 0
  | job :: rest => default 0 (months_read now job) + months_total now rest
  end.

(** ** The three shortlist rules, as the design document states them *)

(** Total experience years: the sum of the months, divided by 12. *)
Definition experience_years (now : date) (jobs : list fields) : Q :=
  (inject_Z (months_total now jobs) / 12)%Q.

(** The employers of rule 1, as the design document lists them. *)
Definition tier_1_employers : list string :=
  ["google"; "meta"; "openai"; "apple"; "amazon"; "netflix"; "microsoft"].

(** The [Company] of the entry, whatever its case, is one of them. *)
Definition names_tier_1_employer (job : fields) : bool :=
  match job !! "Company" with
  | Some (VStr c) => existsb (String.eqb (PyStr.lower c)) tier_1_employers
  | _ => false
  end.

(** The tier-1 test of the code on one entry, where it returns. *)
Definition company_is_tier_1 (job : fields) : bool :=
  match job !! "Company" with
  | Some (VStr c) => is_tier_1 (PyStr.lower c)
  | _ => false
  end.

(** Rule 1: four years or more, or a tier-1 employer. *)
Definition rule_experience (now : date) (d : compressed) : bool :=
  Qle_bool 4 (experience_years now (experience d))
  || existsb names_tier_1_employer (experience d).

(** The value is present, a number, and at most [bound]. *)
Definition at_most (v : option value) (bound : Z) : bool :=
  match v ≫= as_number with
  | Some x => float_le x (Finite (inject_Z bound))
  | None => false
  end.

(** The value is present, a number, and at least [bound]. *)
Definition at_least (v : option value) (bound : Z) : bool :=
  match v ≫= as_number with
  | Some x => float_le (Finite (inject_Z bound)) x
  | None => false
  end.

(** Rule 2: rate at most 100 and availability at least 20. *)
Definition rule_compensation (d : compressed) : bool :=
  at_most (salary d !! "Preferred Rate") 100
  && at_least (salary d !! "Availability (hrs/wk)") 20.

(** The location substrings of rule 3, as the design document lists them. *)
Definition approved_places : list string :=
  ["us"; "united states"; "canada"; "uk"; "united kingdom"; "germany"; "india"].

(** Rule 3: the lower-cased location contains an approved substring. *)
Definition rule_location (d : compressed) : bool :=
  match personal d !! "Location" with
  | Some (VStr s) =>
      existsb (fun place => PyStr.contains place (PyStr.lower s)) approved_places
  | _ => false
  end.

Definition rules_pass (now : date) (d : compressed) : bool :=
  rule_experience now d && rule_compensation d && rule_location d.

(** A result that agrees with a rule: the rule's value when it returns, and
    a failed rule when it raises. *)
Definition agrees (r : result bool) (b : bool) : Prop :=
  match r with
  | Ok x => x = b
  | Raise _ => b = false
  end.

(** The [Company] of an entry, when present, is a text, as the data model
    has it. *)
Definition company_is_text (job : fields) : Prop :=
  match job !! "Company" with
  | None | Some (VStr _) => True
  | Some _ => False
  end.

(** ** What an evaluation shows to the outside *)

(** The leads an evaluation appended to the table, without the identifiers
    the store gave them, or the exception it raised. *)
Definition created_leads (w : world) (r : result world)
    : result (list (list rid * compressed * score_reason)) :=
  w' ← r;
  Ok ((fun l => (lead_applicant l, lead_json l, lead_reason l))
        <$> drop (length (shortlisted_leads w)) (shortlisted_leads w')).

(** An entry whose months depend on the clock: [Start] is a date and [End]
    is falsy. *)
Definition open_ended (job : fields) : bool :=
  bool_decide (is_Some (start_of job)) && negb (truthy (get job "End")).

(** Two clocks in the same month of the same year. *)
Definition same_month (a b : date) : Prop := year a = year b /\ month a = month b.

(** A document with one job still open, otherwise qualifying. *)
Definition open_ended_document : compressed :=
  mkdoc {[ "Location" := VStr "United States" ]}
        [ {[ "Start" := VStr "2019-06-15" ]} ]
        {[ "Preferred Rate" := VInt 80; "Availability (hrs/wk)" := VInt 25 ]}.

(** The design document's passing example. *)
Definition passing_document : compressed :=
  mkdoc {[ "Location" := VStr "United States" ]}
        example_experience
        {[ "Preferred Rate" := VInt 80; "Availability (hrs/wk)" := VInt 25 ]}.

Definition empty_world : world := mkworld [] [] [] [] [] 0 [].

Definition applicant_4 : root :=
  mkroot "recA" {[ "Applicant ID" := VStr "4" ]} None.

(** ** Generation services and root records of the examples *)

(** A service every call of which raises. *)
Definition failing_service : service := fun _ _ => Raise ServiceError.

(** A service that answers with a score. *)
Definition answering_service : service := fun _ _ => Ok "Score: 7".

(** A root record with a score of zero. *)
Definition scored_zero : root :=
  mkroot "recA" {[ "Applicant ID" := VStr "4"; "LLM Score" := VInt 0 ]} None.

(** A root record with a score of eight. *)
Definition scored_eight : root :=
  mkroot "recA" {[ "Applicant ID" := VStr "4"; "LLM Score" := VInt 8 ]} None.

(** ** The normalized state of an applicant *)

(** The records of an applicant, as the store's filter finds them. *)
Definition personal_of (applicant_id : string) (w : world) : option fields :=
  rec_fields <$> first (linked_to (applicants w) applicant_id) (personal_details w).

Definition experience_of (applicant_id : string) (w : world) : list fields :=
  rec_fields <$> all (linked_to (applicants w) applicant_id) (work_experience w).

Definition salary_of (applicant_id : string) (w : world) : option fields :=
  rec_fields <$> first (linked_to (applicants w) applicant_id) (salary_preferences w).

(** A field map without its back-reference and identifier fields. *)
Definition unlinked (f : fields) : fields := delete "Id" (delete "Applicant" f).

(** *** Invariants of the store *)

(** Record identifiers are unique in a table. *)
Definition unique_ids (t : list record) : Prop := NoDup (rec_id <$> t).

(** No record of the table bears an identifier the store has yet to give. *)
Definition fresh_from (n : nat) (t : list record) : Prop :=
  Forall (fun r => forall k, (n <= k)%nat -> rec_id r <> fresh_id k) t.

Definition wf_store (w : world) : Prop :=
  forall c, unique_ids (rows c w) /\ fresh_from (next_id w) (rows c w).

(** *** The writes of the decompressor, table by table *)

(** [table.update(record_id, data)] on the rows. *)
Definition update_rows (record_id : rid) (data : fields) (t : list record)
    : list record :=
  (fun r => if String.eqb (rec_id r) record_id
            then mkrec (rec_id r) (data ∪ rec_fields r) else r) <$> t.

(** What [upsert] makes of a table; [n] is the next identifier. *)
Definition upsert_rows (mine : record -> bool) (n : nat) (data : fields)
    (present : bool) (t : list record) : list record :=
  if present then
    match first mine t with
    | Some r => update_rows (rec_id r) data t
    | None => t ++ [mkrec (fresh_id n) data]
    end
  else t.

(** What [sync_experience] makes of the table. *)
Definition sync_rows (mine : record -> bool) (n : nat) (data : list fields)
    (t : list record) : list record :=
  match data with
  | [] => t
  | _ =>
      let existing := all mine t in
      let kept :=
        match existing with
        | [] => t
        | _ => List.filter
                 (fun r => negb (existsb (String.eqb (rec_id r))
                                   (rec_id <$> existing))) t
        end in
      kept ++ new_records n data
  end.

(** ** Worlds of the examples *)

(** A document with three empty sections. *)
Definition empty_document : compressed := mkdoc ∅ [] ∅.

(** A store where applicant 4 has one work experience and a personal record,
    and a compressed JSON whose sections are empty. *)
Definition stale_world : world :=
  mkworld
    [ mkroot "recA" {[ "Applicant ID" := VStr "4" ]}
        (Some (Document empty_document)) ]
    [ mkrec "perP" {[ "Applicant" := VList [VStr "recA"];
                      "Location" := VStr "Canada";
                      "Email" := VStr "a@b.c" ]} ]
    [ mkrec "expX" {[ "Applicant" := VList [VStr "recA"];
                      "Company" := VStr "Acme" ]} ]
    []
    []
    0
    [].

(** The same store, with a compressed JSON that names a new location and two
    jobs. *)
Definition edited_world : world :=
  set_applicants
    [ mkroot "recA" {[ "Applicant ID" := VStr "4" ]}
        (Some (Document (mkdoc {[ "Location" := VStr "India" ]}
                           example_experience ∅))) ]
    stale_world.


(** What a run of the orchestrator makes of the root record [record_id]:
    the document is stored, and the parsed LLM fields [llm], if any, are
    merged in. *)
Definition enriched (record_id : rid) (d : compressed) (llm : fields)
    (a : root) : root :=
  if String.eqb (root_id a) record_id
  then mkroot (root_id a) (llm ∪ root_fields a) (Some (Document d))
  else a.

(** A line that closes the follow-ups section: a [Summary:] line, or a
    [Score:] line whose number reads as an integer. *)
Definition closes (line : string) : bool :=
  is_summary_line line || is_score_line line.

(** A line without any of the four labels. *)
Definition unlabelled (line : string) : bool :=
  is_plain line && negb (is_follow_up_label line).

(** The lines the follow-ups take in, in the words of the amended claim;
    [opened] tells whether the follow-ups section is open.  A closing line
    closes the section.  A [Score:] line whose number does not read as an
    integer is passed over.  An [Issues:] or [Follow-Ups:] line is taken in,
    wherever it stands, and opens the section.  Any other line is taken in
    when the section is open and the line is not blank, and dropped
    otherwise. *)
Fixpoint collected (opened : bool) (lines : list string) : list string :=
  match lines with
  | [] => []
  | line :: rest =>
      if closes line then collected false rest
      else if PyStr.startswith line "Score:" then collected opened rest
      else if is_follow_up_label line then line :: collected true rest
      else if opened && negb (is_blank line) then line :: collected opened rest
      else collected opened rest
  end.

(** The follow-ups field of a response: absent when no line is an [Issues:]
    or [Follow-Ups:] line, else the lines taken in, each with its line feed,
    the whole stripped. *)
Definition follow_ups_of (lines : list string) : option value :=
  if existsb is_follow_up_label lines
  then Some (VStr (PyStr.strip (unlines (collected false lines))))
  else None.

(** The follow-ups entry after the scanner went over [lines], from a state
    whose entry is [old] and whose section is open or not. *)
Definition follow_ups_after (old : option value) (opened : bool)
    (lines : list string) : option value :=
  match old with
  | Some (VStr t) => Some (VStr (t +:+ unlines (collected opened lines)))
  | Some v => Some v
  | None =>
      if existsb is_follow_up_label lines
      then Some (VStr (unlines (collected opened lines)))
      else None
  end.

(** A response whose follow-ups are followed by the summary and one more
    line. *)
Definition interrupted_response : string :=
  "Follow-Ups: - Ask about visa status" +:+ nl
  +:+ "Summary: Strong candidate" +:+ nl
  +:+ "- Ask about notice period".

(** ** Further properties: definitions *)

(** What a field of a parsed response may be: one of the three LLM fields,
    the summary and the follow-ups stripped texts, the score an integer. *)
Definition llm_field (k : string) (v : value) : Prop :=
  (k = "LLM Summary" /\ exists s, v = VStr (PyStr.strip s))
  \/ (k = "LLM Score" /\ exists n, v = VInt n)
  \/ (k = "LLM Follow-Ups" /\ exists s, v = VStr (PyStr.strip s)).

(** The fields of the scanner's state, before the follow-ups are stripped. *)
Definition scanned_field (k : string) (v : value) : Prop :=
  (k = "LLM Summary" /\ exists s, v = VStr (PyStr.strip s))
  \/ (k = "LLM Score" /\ exists n, v = VInt n)
  \/ (k = "LLM Follow-Ups" /\ exists s, v = VStr s).

(** A [Score:] line whose number does not read as an integer. *)
Definition is_malformed_score (line : string) : bool :=
  PyStr.startswith line "Score:" && negb (bool_decide (is_Some (score_of line))).

(** A line the scanner passes over: blank, or a malformed score. *)
Definition is_passed_over (line : string) : bool :=
  is_blank line || is_malformed_score line.

(** Every character is white space. *)
Fixpoint all_space (s : string) : bool :=
  match s with
  | "" => true
  | String c t => PyStr.isspace c && all_space t
  end.

(** The calls and sleeps of [k] attempts in a row: a call each, and between
    the attempts [i] and [i + 1] a sleep of [2 ^ i] seconds. *)
Fixpoint backoff_trace (k : nat) : list event :=
  match k with
  | O => []
  | S n =>
      match n with
      | O => [Generated]
      | S m => backoff_trace n ++ [Slept (2 ^ Z.of_nat m); Generated]
      end
  end.

(** One of the three fields the LLM evaluator writes. *)
Definition is_llm_key (k : string) : Prop :=
  k = "LLM Summary" \/ k = "LLM Score" \/ k = "LLM Follow-Ups".

(** A value that is absent, null or a number. *)
Definition number_or_null (v : option value) : Prop :=
  match v with
  | None | Some VNull => True
  | Some v => is_Some (as_number v)
  end.

(** A value that is absent or a text. *)
Definition text_or_absent (v : option value) : Prop :=
  match v with
  | None | Some (VStr _) => True
  | Some _ => False
  end.

(** A document typed as the store types its fields: companies and location
    are texts, rate and availability numbers. *)
Definition well_typed_document (d : compressed) : Prop :=
  Forall company_is_text (experience d)
  /\ number_or_null (salary d !! "Preferred Rate")
  /\ number_or_null (salary d !! "Availability (hrs/wk)")
  /\ text_or_absent (personal d !! "Location").

(** The lead a run of the orchestrator appends, if any. *)
Definition lead_of_run (now : date) (applicant_id : string) (a : root)
    (w : world) : list lead :=
  match shortlist_decision now (build_json applicant_id w) with
  | Ok (Some reason) =>
      [mklead (fresh_id (next_id w)) [root_id a] (build_json applicant_id w)
         reason]
  | _ => []
  end.

(** A store where applicant 4 has the records of the passing document. *)
Definition shortlisted_world : world :=
  mkworld
    [ applicant_4 ]
    [ mkrec "perP" {[ "Applicant" := VList [VStr "recA"];
                      "Location" := VStr "United States" ]} ]
    [ mkrec "expX" {[ "Applicant" := VList [VStr "recA"];
                      "Company" := VStr "Initech";
                      "Start" := VStr "2019-01-01";
                      "End" := VStr "2021-01-01" ]};
      mkrec "expY" {[ "Applicant" := VList [VStr "recA"];
                      "Company" := VStr "Google";
                      "Start" := VStr "2021-06-01" ]} ]
    [ mkrec "salS" {[ "Applicant" := VList [VStr "recA"];
                      "Preferred Rate" := VInt 80;
                      "Availability (hrs/wk)" := VInt 25 ]} ]
    []
    0
    [].

(** *** The experience loop, entry by entry *)

(** What one entry adds to the total: its months, nothing when it is
    skipped. *)
Definition months_counted (now : date) (job : fields) : Z :=
  match job_months now job with
  | Ok m => m
  | Raise _ => 0
  end.

Definition months_sum (now : date) (jobs : list fields) : Z :=
  foldr (fun job acc => months_counted now job + acc) 0 jobs.

(** Months since year 0: the experience calculation sees no more of a
    date. *)
Definition month_index (d : date) : Z := year d * 12 + month d.

(** [a] lies in an earlier calendar month than [b]. *)
Definition earlier_month (a b : date) : Prop :=
  year a < year b \/ (year a = year b /\ month a < month b).

(** An entry that ended, in July 2020, before it started, in March 2021. *)
Definition backwards_job : fields :=
  {[ "Start" := VStr "2021-03-01"; "End" := VStr "2020-07-15" ]}.

(** An entry that is still running, in the words of a CV. *)
Definition present_job : fields :=
  {[ "Start" := VStr "2019-01-01"; "End" := VStr "Present" ]}.

(** *** The writes of the decompressor *)

(** The write of an upsert: an update of the applicant's first record, a
    creation when there is none, nothing for an empty section. *)
Definition upsert_events (c : child) (mine : record -> bool)
    (t : list record) (data : fields) : list event :=
  if nonempty data then
    match first mine t with
    | Some r => [Updated (table_of c) (rec_id r)]
    | None => [Created (table_of c) 1]
    end
  else [].

(** The writes of the experience sync: a batch deletion when the applicant
    has records, then a batch creation; nothing for an empty array. *)
Definition sync_events (mine : record -> bool) (t : list record)
    (data : list fields) : list event :=
  match data with
  | [] => []
  | _ =>
      (match all mine t with
       | [] => []
       | existing => [Deleted Experience (length existing)]
       end ++ [Created Experience (length data)])%list
  end.

(** A write to one of the three dependent tables. *)
Definition is_child_write (e : event) : bool :=
  match e with
  | Created t _ | Updated t _ | Deleted t _ =>
      match t with
      | Personal | Experience | Salary => true
      | _ => false
      end
  | _ => false
  end.

(** *** The tier-1 check *)

Definition initech_job : fields := {[ "Company" := VStr "Initech" ]}.
Definition google_job : fields := {[ "Company" := VStr "Google" ]}.

(** An entry whose company is null. *)
Definition null_company_job : fields := {[ "Company" := VNull ]}.

(** * Properties *)

(** ** Strings *)

Lemma append_cons (x : ascii) (a b : string) :
  String x a +:+ b = String x (a +:+ b).
Proof. reflexivity. Qed.

Lemma append_assoc (a b c : string) : (a +:+ b) +:+ c = a +:+ (b +:+ c).
Proof.
  induction a as [|x a IH]; [reflexivity|].
  by rewrite !append_cons, IH.
Qed.

Lemma append_empty_r (a : string) : a +:+ "" = a.
Proof.
  induction a as [|x a IH]; [reflexivity|].
  by rewrite append_cons, IH.
Qed.

(** A line cannot begin with both [Summary:] and [Score:]. *)
Lemma score_not_summary (line : string) :
  PyStr.startswith line "Score:" = true ->
  PyStr.startswith line "Summary:" = false.
Proof.
  unfold PyStr.startswith.
  destruct line as [|a [|b line]]; cbn [String.prefix]; try discriminate.
  - destruct (ascii_dec "S" a); discriminate.
  - destruct (ascii_dec "S" a); [|discriminate].
    destruct (ascii_dec "c" b) as [<-|]; [|discriminate].
    intros _. by destruct (ascii_dec "u" "c").
Qed.

(** ** The scanner of LLM responses *)

Section Scanner.

Lemma append_ok (d : fields) (old text : string) :
  d !! "LLM Follow-Ups" = Some (VStr old) ->
  append_follow_ups d text = Ok (<["LLM Follow-Ups" := VStr (old +:+ text)]> d).
Proof. unfold append_follow_ups. by intros ->. Qed.

Lemma scan_line_inv st line :
  scanner_inv st -> exists st', scan_line st line = Ok st' /\ scanner_inv st'.
Proof.
  destruct st as [d sec]. intros [Htext Hsec]. simpl in *.
  unfold scan_line.
  destruct (PyStr.startswith line "Summary:").
  { eexists; split; [reflexivity|]. split; simpl.
    - intros v. rewrite lookup_insert_ne by done. apply Htext.
    - discriminate. }
  destruct (PyStr.startswith line "Score:").
  { destruct (PyStr.int _).
    - eexists; split; [reflexivity|]. split; simpl.
      + intros v. rewrite lookup_insert_ne by done. apply Htext.
      + discriminate.
    - eexists; split; [reflexivity|]. by split. }
  destruct (PyStr.startswith line "Issues:" || PyStr.startswith line "Follow-Ups:").
  { assert (exists d' old, (match d !! "LLM Follow-Ups" with
                            | None => <["LLM Follow-Ups" := VStr ""]> d
                            | Some _ => d
                            end) = d' /\ d' !! "LLM Follow-Ups" = Some (VStr old))
      as (d' & old & -> & Hold).
    { destruct (d !! "LLM Follow-Ups") as [v|] eqn:E.
      - destruct (Htext v eq_refl) as [s ->]. by exists d, s.
      - exists (<["LLM Follow-Ups" := VStr ""]> d), "". by rewrite lookup_insert_eq. }
    rewrite (append_ok _ _ _ Hold). simpl.
    eexists; split; [reflexivity|]. split; simpl.
    - intros v. rewrite lookup_insert_eq. intros [= <-]. by eexists.
    - intros _. rewrite lookup_insert_eq. by eexists. }
  destruct (is_follow_ups sec) eqn:Hfu; simpl.
  - destruct (Hsec eq_refl) as [v Hv]. destruct (Htext v Hv) as [old ->].
    destruct (negb _).
    + rewrite (append_ok _ _ _ Hv). simpl.
      eexists; split; [reflexivity|]. split; simpl.
      * intros v. rewrite lookup_insert_eq. intros [= <-]. by eexists.
      * intros _. rewrite lookup_insert_eq. by eexists.
    + eexists; split; [reflexivity|]. split; simpl; [done|]. intros _. by eexists.
  - eexists; split; [reflexivity|]. split; simpl; [done|]. by rewrite Hfu.
Qed.

Lemma scan_lines_inv lines : forall st,
  scanner_inv st -> exists st', scan_lines st lines = Ok st' /\ scanner_inv st'.
Proof.
  induction lines as [|line rest IH]; intros st Hst; simpl.
  - by exists st.
  - destruct (scan_line_inv st line Hst) as (st1 & -> & H1). simpl.
    apply IH, H1.
Qed.

Lemma scanner_inv_start : scanner_inv (∅, None).
Proof. split; simpl; [intros v; by rewrite lookup_empty | discriminate]. Qed.

(** The parser returns a dict for every text. *)
Lemma parse_total (text : string) : exists d, parse_llm_response text = Ok d.
Proof.
  unfold parse_llm_response.
  destruct (scan_lines_inv (PyStr.split_lines (PyStr.strip text)) _
              scanner_inv_start) as (st & -> & _).
  simpl. by eexists.
Qed.

(** A turn only writes the three LLM fields. *)
Lemma scan_line_other st st' line k :
  scan_line st line = Ok st' ->
  k <> "LLM Summary" -> k <> "LLM Score" -> k <> "LLM Follow-Ups" ->
  st'.1 !! k = st.1 !! k.
Proof.
  destruct st as [d sec]. unfold scan_line, append_follow_ups. intros H Hk1 Hk2 Hk3.
  repeat (match type of H with
          | context [if ?b then _ else _] => destruct b
          | context [match ?o with _ => _ end] => destruct o eqn:?
          end; simpl in H; simplify_eq; simpl;
          rewrite ?lookup_insert_ne by done; try done).
Qed.

Lemma scan_lines_other lines : forall st st' k,
  scan_lines st lines = Ok st' ->
  k <> "LLM Summary" -> k <> "LLM Score" -> k <> "LLM Follow-Ups" ->
  st'.1 !! k = st.1 !! k.
Proof.
  induction lines as [|line rest IH]; intros st st' k H Hk1 Hk2 Hk3; simpl in H.
  - by simplify_eq.
  - destruct (scan_line st line) as [st1|] eqn:E; simpl in H; [|done].
    rewrite (IH _ _ _ H), (scan_line_other _ _ _ _ E); done.
Qed.

Lemma parse_other text d k :
  parse_llm_response text = Ok d ->
  k <> "LLM Summary" -> k <> "LLM Score" -> k <> "LLM Follow-Ups" ->
  d !! k = None.
Proof.
  unfold parse_llm_response. intros H Hk1 Hk2 Hk3.
  destruct (scan_lines _ _) as [st|] eqn:E; simpl in H; [|done].
  simplify_eq. unfold finish.
  assert (st.1 !! k = None) as Hst.
  { rewrite (scan_lines_other _ _ _ _ E) by done. apply lookup_empty. }
  destruct (st.1 !! "LLM Follow-Ups") as [[]|]; rewrite ?lookup_insert_ne by done; done.
Qed.

(** The summary is that of the last [Summary:] line, wherever the line
    stands. *)
Lemma scan_line_summary st st' line :
  scan_line st line = Ok st' ->
  st'.1 !! "LLM Summary"
  = if is_summary_line line then Some (summary_of line)
    else st.1 !! "LLM Summary".
Proof.
  destruct st as [d sec]. unfold scan_line, append_follow_ups, is_summary_line.
  intros H.
  destruct (PyStr.startswith line "Summary:"); simpl in H.
  { simplify_eq. simpl. by rewrite lookup_insert_eq. }
  repeat (match type of H with
          | context [if ?b then _ else _] => destruct b
          | context [match ?o with _ => _ end] => destruct o eqn:?
          end; simpl in H; simplify_eq; simpl;
          rewrite ?lookup_insert_ne by done; try done).
Qed.

Lemma scan_lines_summary lines : forall st st',
  scan_lines st lines = Ok st' ->
  st'.1 !! "LLM Summary"
  = match last (List.filter is_summary_line lines) with
    | Some line => Some (summary_of line)
    | None => st.1 !! "LLM Summary"
    end.
Proof.
  induction lines as [|line rest IH]; intros st st' H; simpl in H.
  - by simplify_eq.
  - destruct (scan_line st line) as [st1|] eqn:E; simpl in H; [|done].
    rewrite (IH _ _ H), (scan_line_summary _ _ _ E). simpl.
    destruct (is_summary_line line); [|done].
    rewrite last_cons. by destruct (last _).
Qed.

(** The score is that of the last [Score:] line that reads as an integer. *)
Lemma scan_line_score st st' line :
  scan_line st line = Ok st' ->
  st'.1 !! "LLM Score"
  = if is_score_line line then VInt <$> score_of line
    else st.1 !! "LLM Score".
Proof.
  destruct st as [d sec]. unfold scan_line, append_follow_ups, is_score_line.
  intros H.
  destruct (PyStr.startswith line "Score:") eqn:Hsc.
  { rewrite (score_not_summary _ Hsc) in H. fold (score_of line) in H.
    destruct (score_of line) as [n|]; simplify_eq; simpl;
      by rewrite ?lookup_insert_eq. }
  simpl.
  repeat (match type of H with
          | context [if ?b then _ else _] => destruct b
          | context [match ?o with _ => _ end] => destruct o eqn:?
          end; simpl in H; simplify_eq; simpl;
          rewrite ?lookup_insert_ne by done; try done).
Qed.

Lemma scan_lines_score lines : forall st st',
  scan_lines st lines = Ok st' ->
  st'.1 !! "LLM Score"
  = match last (List.filter is_score_line lines) with
    | Some line => VInt <$> score_of line
    | None => st.1 !! "LLM Score"
    end.
Proof.
  induction lines as [|line rest IH]; intros st st' H; simpl in H.
  - by simplify_eq.
  - destruct (scan_line st line) as [st1|] eqn:E; simpl in H; [|done].
    rewrite (IH _ _ H), (scan_line_score _ _ _ E). simpl.
    destruct (is_score_line line); [|done].
    rewrite last_cons. by destruct (last _).
Qed.

(** In the follow-ups section every plain line that is a label or is not
    blank is appended, with its line feed. *)
Lemma scan_line_follow_ups d sec old line :
  d !! "LLM Follow-Ups" = Some (VStr old) ->
  is_follow_ups sec = true ->
  is_plain line = true ->
  scan_line (d, sec) line
  = Ok (<["LLM Follow-Ups" := VStr (old +:+ unlines (taken [line]))]> d, sec).
Proof.
  intros Hd Hsec Hplain. unfold scan_line, is_plain in *.
  apply andb_prop in Hplain as [H1 H2].
  apply negb_true_iff in H1, H2. rewrite H1, H2.
  unfold taken, is_follow_up_label, is_blank. simpl.
  destruct (PyStr.startswith line "Issues:" || PyStr.startswith line "Follow-Ups:");
    simpl.
  - rewrite Hd, (append_ok _ _ _ Hd). simpl.
    rewrite append_empty_r. destruct sec as [[]|]; done.
  - rewrite Hsec. simpl. destruct (String.eqb _ _); simpl.
    + rewrite append_empty_r. by rewrite insert_id.
    + rewrite (append_ok _ _ _ Hd). simpl. by rewrite append_empty_r.
Qed.

Lemma scan_lines_follow_ups lines : forall d sec old,
  d !! "LLM Follow-Ups" = Some (VStr old) ->
  is_follow_ups sec = true ->
  forallb is_plain lines = true ->
  scan_lines (d, sec) lines
  = Ok (<["LLM Follow-Ups" := VStr (old +:+ unlines (taken lines))]> d, sec).
Proof.
  induction lines as [|line rest IH]; intros d sec old Hd Hsec Hplain.
  - simpl. rewrite append_empty_r. by rewrite insert_id.
  - simpl in Hplain. apply andb_prop in Hplain as [Hl Hrest].
    cbn [scan_lines]. rewrite (scan_line_follow_ups _ _ _ _ Hd Hsec Hl). simpl.
    rewrite (IH _ _ (old +:+ unlines (taken [line]))); try done.
    + rewrite insert_insert_eq, append_assoc. do 4 f_equal.
      unfold taken. simpl. destruct (_ || _); simpl; [|done].
      by rewrite append_empty_r.
    + by rewrite lookup_insert_eq.
Qed.

End Scanner.

Lemma label_is_plain (line : string) :
  is_follow_up_label line = true -> is_plain line = true.
Proof.
  unfold is_follow_up_label, is_plain, PyStr.startswith.
  destruct line as [|a line]; cbn [String.prefix]; [discriminate|].
  destruct (ascii_dec "I" a) as [<-|]; [intros _; reflexivity|].
  destruct (ascii_dec "F" a) as [<-|]; [intros _; reflexivity|].
  discriminate.
Qed.

Lemma scan_lines_app (l1 l2 : list string) : forall st,
  scan_lines st (l1 ++ l2) = st' ← scan_lines st l1; scan_lines st' l2.
Proof.
  induction l1 as [|line rest IH]; intros st; simpl; [done|].
  destruct (scan_line st line) as [st1|]; simpl; [apply IH|done].
Qed.

(** A closing line is read as its label, leaves the follow-ups as they are
    and ends their section. *)
Lemma scan_line_closes d sec line :
  closes line = true ->
  exists d' sec',
    scan_line (d, sec) line = Ok (d', sec')
    /\ is_follow_ups sec' = false
    /\ d' !! "LLM Follow-Ups" = d !! "LLM Follow-Ups".
Proof.
  unfold closes, is_summary_line, is_score_line, score_of, scan_line.
  intros H.
  destruct (PyStr.startswith line "Summary:").
  { do 2 eexists. split; [reflexivity|]. split; [done|].
    by rewrite lookup_insert_ne. }
  simpl in H. apply andb_prop in H as [-> H].
  apply bool_decide_eq_true in H as [n ->].
  do 2 eexists. split; [reflexivity|]. split; [done|].
  by rewrite lookup_insert_ne.
Qed.

(** Outside the follow-ups section a line without label is dropped. *)
Lemma scan_line_dropped d sec line :
  is_follow_ups sec = false ->
  unlabelled line = true ->
  scan_line (d, sec) line = Ok (d, sec).
Proof.
  unfold unlabelled, is_plain, is_follow_up_label, scan_line.
  intros Hsec H. apply andb_prop in H as [H H3]. apply andb_prop in H as [H1 H2].
  apply negb_true_iff in H1, H2, H3. by rewrite H1, H2, H3, Hsec.
Qed.

Lemma scan_lines_dropped lines : forall d sec,
  is_follow_ups sec = false ->
  forallb unlabelled lines = true ->
  scan_lines (d, sec) lines = Ok (d, sec).
Proof.
  induction lines as [|line rest IH]; intros d sec Hsec H; [done|].
  cbn [forallb] in H. apply andb_prop in H as [H1 H2].
  cbn [scan_lines]. rewrite (scan_line_dropped _ _ _ Hsec H1). simpl.
  by apply IH.
Qed.

Lemma scan_lines_label (label : string) (rest : list string) :
  is_follow_up_label label = true ->
  forallb is_plain rest = true ->
  scan_lines (∅, None) (label :: rest)
  = Ok ({[ "LLM Follow-Ups" := VStr (unlines (taken (label :: rest))) ]},
        Some SecFollowUps).
Proof.
  intros Hlabel Hrest.
  pose proof (label_is_plain _ Hlabel) as Hplain.
  cbn [scan_lines]. unfold scan_line, is_plain, is_follow_up_label in *.
  apply andb_prop in Hplain as [H1 H2].
  apply negb_true_iff in H1, H2. rewrite H1, H2, Hlabel.
  rewrite lookup_empty. unfold append_follow_ups.
  rewrite lookup_insert_eq. simpl.
  rewrite (scan_lines_follow_ups rest _ _ (label +:+ nl)) by done.
  rewrite insert_insert_eq. unfold taken. simpl.
  unfold is_follow_up_label. rewrite Hlabel. simpl.
  unfold singletonM, map_singleton. reflexivity.
Qed.

(** The follow-ups of any list of lines, from any state of the scanner. *)
Lemma not_plain_not_label (line : string) :
  is_plain line = false -> is_follow_up_label line = false.
Proof.
  intros H. destruct (is_follow_up_label line) eqn:E; [|done].
  apply label_is_plain in E. congruence.
Qed.

Lemma scan_lines_collected (lines : list string) : forall d sec,
  scanner_inv (d, sec) ->
  exists d' sec',
    scan_lines (d, sec) lines = Ok (d', sec')
    /\ d' !! "LLM Follow-Ups"
       = follow_ups_after (d !! "LLM Follow-Ups") (is_follow_ups sec) lines.
Proof.
  induction lines as [|line rest IH]; intros d sec Hinv.
  { exists d, sec. split; [done|]. unfold follow_ups_after. simpl.
    destruct Hinv as [Htext _]. simpl in Htext.
    destruct (d !! "LLM Follow-Ups") as [v|] eqn:E; [|done].
    destruct (Htext v eq_refl) as [t ->]. by rewrite append_empty_r. }
  destruct (scan_line_inv (d, sec) line Hinv) as ([d1 sec1] & E1 & Hinv1).
  destruct (IH d1 sec1 Hinv1) as (d' & sec' & E' & Hfu).
  exists d', sec'. cbn [scan_lines]. rewrite E1. simpl. split; [exact E'|].
  rewrite Hfu. clear IH E' Hfu Hinv1.
  destruct Hinv as [Htext Hsec]. simpl in Htext, Hsec.
  unfold scan_line in E1.
  unfold follow_ups_after. cbn [collected existsb].
  unfold closes, is_summary_line, is_score_line.
  destruct (PyStr.startswith line "Summary:") eqn:Hsum.
  { injection E1 as <- <-. rewrite lookup_insert_ne by done.
    cbn [orb is_follow_ups].
    rewrite (not_plain_not_label line); [done|].
    unfold is_plain. by rewrite Hsum. }
  destruct (PyStr.startswith line "Score:") eqn:Hsc.
  { assert (is_follow_up_label line = false) as Hlab.
    { apply not_plain_not_label. unfold is_plain. by rewrite Hsc, andb_false_r. }
    rewrite Hlab. fold (score_of line) in E1. cbn [orb andb].
    destruct (score_of line) as [n|].
    - injection E1 as <- <-. rewrite lookup_insert_ne by done.
      rewrite bool_decide_eq_true_2 by eauto. done.
    - injection E1 as <- <-.
      rewrite bool_decide_eq_false_2 by (by intros [? ?]). done. }
  cbn [orb andb]. fold (is_follow_up_label line) in E1.
  destruct (is_follow_up_label line) eqn:Hlab.
  { cbn [orb unlines].
    destruct (d !! "LLM Follow-Ups") as [v|] eqn:Ed.
    - destruct (Htext v eq_refl) as [t ->].
      rewrite (append_ok _ _ _ Ed) in E1. simpl in E1.
      injection E1 as <- <-. rewrite lookup_insert_eq.
      cbn [is_follow_ups]. by rewrite append_assoc.
    - unfold append_follow_ups in E1. rewrite lookup_insert_eq in E1.
      simpl in E1. injection E1 as <- <-. by rewrite lookup_insert_eq. }
  cbn [orb].
  destruct (is_follow_ups sec) eqn:Hfu.
  - destruct (Hsec eq_refl) as [v Hv]. destruct (Htext v Hv) as [t ->].
    unfold is_blank. cbn [andb] in E1 |- *.
    destruct (String.eqb (PyStr.strip line) "") eqn:Hb; cbn [negb] in E1 |- *.
    + injection E1 as <- <-. by rewrite Hfu, Hv.
    + rewrite (append_ok _ _ _ Hv) in E1. simpl in E1.
      injection E1 as <- <-. rewrite lookup_insert_eq, Hv. cbn [unlines].
      by rewrite Hfu, append_assoc.
  - cbn [andb] in E1 |- *. injection E1 as <- <-. by rewrite Hfu.
Qed.

Lemma parse_follow_ups (text : string) :
  exists d, parse_llm_response text = Ok d
            /\ d !! "LLM Follow-Ups" = follow_ups_of (lines_of text).
Proof.
  unfold parse_llm_response. fold (lines_of text).
  destruct (scan_lines_collected (lines_of text) ∅ None scanner_inv_start)
    as (d & sec & -> & Hd).
  simpl. eexists. split; [reflexivity|].
  unfold follow_ups_after in Hd. rewrite lookup_empty in Hd. simpl in Hd.
  unfold finish, follow_ups_of. rewrite Hd.
  destruct (existsb is_follow_up_label (lines_of text)).
  - apply lookup_insert_eq.
  - exact Hd.
Qed.

(** The claim C6 fails as stated in its account of the scanner: a line that
    is not blank and comes after the [Follow-Ups:] line is not taken into the
    follow-ups once a [Summary:] line has come in between, so the order of
    the lines matters. *)
Lemma follow_ups_stop_at_summary :
  lines_of interrupted_response
  = [ "Follow-Ups: - Ask about visa status"; "Summary: Strong candidate";
      "- Ask about notice period" ]
  /\ parse_llm_response interrupted_response
     = Ok {[ "LLM Summary" := VStr "Strong candidate";
             "LLM Follow-Ups" := VStr "Follow-Ups: - Ask about visa status" ]}
  /\ is_blank "- Ask about notice period" = false.
Proof. repeat split; vm_compute; reflexivity. Qed.

(** C6, amended.  The example response parses to exactly the three fields,
    the follow-ups holding the label line and both bullet lines.  The scanner
    works line by line and finds a label wherever its line stands: the parser
    returns for every text, the summary is that of the last [Summary:] line
    and the score that of the last [Score:] line reading as an integer, at any
    position (so the example with its sections reordered parses the same).
    The follow-ups of every text are those the amended claim describes:
    every [Issues:] or [Follow-Ups:] line, wherever it stands, is taken in
    and opens the section; while the section is open the lines that are not
    blank are taken in, each with its line feed; a [Summary:] line or a
    [Score:] line reading as an integer closes the section, and the lines
    without label after it are dropped; the whole is stripped, and the field
    is absent when the text has no such label.  The last two parts spell
    this out for a label line followed by plain lines, and for a closing
    line after them. *)
Theorem parse_llm_response_scanner :
  parse_llm_response example_response = Ok example_parsed
  /\ parse_llm_response example_reordered = Ok example_parsed
  /\ (forall text, exists d,
        parse_llm_response text = Ok d
        /\ d !! "LLM Summary"
           = summary_of <$> last (List.filter is_summary_line (lines_of text))
        /\ d !! "LLM Score"
           = last (List.filter is_score_line (lines_of text))
             ≫= (fun line => VInt <$> score_of line)
        /\ d !! "LLM Follow-Ups" = follow_ups_of (lines_of text))
  /\ (forall label rest,
        is_follow_up_label label = true ->
        forallb is_plain rest = true ->
        scan_lines (∅, None) (label :: rest)
        = Ok ({[ "LLM Follow-Ups" := VStr (unlines (taken (label :: rest))) ]},
              Some SecFollowUps))
  /\ (forall label rest closing tail,
        is_follow_up_label label = true ->
        forallb is_plain rest = true ->
        closes closing = true ->
        forallb unlabelled tail = true ->
        exists d sec,
          scan_lines (∅, None) (label :: rest ++ closing :: tail) = Ok (d, sec)
          /\ is_follow_ups sec = false
          /\ d !! "LLM Follow-Ups"
             = Some (VStr (unlines (taken (label :: rest))))).
Proof.
  split; [vm_compute; reflexivity|].
  split; [vm_compute; reflexivity|].
  split.
  { intros text. unfold parse_llm_response. fold (lines_of text).
    destruct (scan_lines_inv (lines_of text) _ scanner_inv_start)
      as (st & E & _).
    rewrite E. simpl. eexists; split; [reflexivity|].
    assert (forall k, k <> "LLM Follow-Ups" -> finish st.1 !! k = st.1 !! k) as Hfin.
    { intros k Hk. unfold finish.
      destruct (st.1 !! "LLM Follow-Ups") as [[]|];
        rewrite ?lookup_insert_ne by done; done. }
    rewrite !Hfin by done.
    rewrite (scan_lines_summary _ _ _ E), (scan_lines_score _ _ _ E). simpl.
    rewrite lookup_empty.
    split; [by destruct (last _)|]. split; [by destruct (last _)|].
    destruct (parse_follow_ups text) as (d & Hd & Hfu).
    unfold parse_llm_response in Hd. fold (lines_of text) in Hd.
    rewrite E in Hd. simpl in Hd. by injection Hd as <-. }
  split; [exact scan_lines_label|].
  intros label rest closing tail Hlabel Hrest Hclose Htail.
  change (label :: rest ++ closing :: tail)
    with ((label :: rest) ++ closing :: tail)%list.
  rewrite scan_lines_app, (scan_lines_label _ _ Hlabel Hrest).
  unfold mbind at 1, result_bind at 1. cbn [scan_lines].
  destruct (scan_line_closes
              {[ "LLM Follow-Ups" := VStr (unlines (taken (label :: rest))) ]}
              (Some SecFollowUps) closing Hclose)
    as (d' & sec' & -> & Hsec & Hd). simpl.
  rewrite (scan_lines_dropped _ _ _ Hsec Htail).
  exists d', sec'. split; [done|]. split; [done|].
  rewrite Hd. apply lookup_insert_eq.
Qed.

Lemma parse_llm_response_scanner_witness :
  is_follow_up_label "Issues: None" = true
  /\ forallb is_plain ["Follow-Ups: - a"; ""; "- b"] = true
  /\ closes "Score: 8" = true
  /\ forallb unlabelled ["Thank you."] = true
  /\ exists d sec,
       scan_lines (∅, None)
         ("Issues: None" :: ["Follow-Ups: - a"; ""; "- b"]
            ++ "Score: 8" :: ["Thank you."]) = Ok (d, sec)
       /\ is_follow_ups sec = false
       /\ d !! "LLM Follow-Ups"
          = Some (VStr (unlines
                          (taken ("Issues: None" :: ["Follow-Ups: - a"; ""; "- b"])))).
Proof.
  split; [reflexivity|]. split; [reflexivity|].
  split; [reflexivity|]. split; [reflexivity|].
  apply (proj2 (proj2 (proj2 (proj2 parse_llm_response_scanner)))); reflexivity.
Defined.

(** ** Location rule *)

(** C10. The location rule is a substring test on the lower-cased location,
    so a location that names no approved country can pass: "Australia" and
    "Russia" both contain "us", and an applicant in Australia who meets the
    other two rules is shortlisted. *)
Theorem location_rule_over_matches :
  location_allowed (PyStr.lower "Australia") = true
  /\ location_allowed (PyStr.lower "Russia") = true
  /\ ~ In (PyStr.lower "Australia") APPROVED_LOCATIONS
  /\ ~ In (PyStr.lower "Russia") APPROVED_LOCATIONS
  /\ (forall loc, In loc APPROVED_LOCATIONS ->
        PyStr.contains loc (PyStr.lower "Australia") = true
        \/ PyStr.contains loc (PyStr.lower "Russia") = true -> loc = "us")
  /\ (exists reason,
        shortlist_decision (mkdate 2023 6 1) australian_document
        = Ok (Some reason)).
Proof.
  split; [reflexivity|]. split; [reflexivity|].
  split; [simpl; intuition discriminate|].
  split; [simpl; intuition discriminate|].
  split.
  - intros loc Hin Hc. simpl in Hin.
    destruct Hin as [<-|[<-|[<-|[<-|[<-|[<-|[<-|[]]]]]]]]; try reflexivity;
      destruct Hc as [Hc|Hc]; vm_compute in Hc; discriminate.
  - eexists. vm_compute. reflexivity.
Qed.

(** ** Experience years *)

Lemma strptime_get (job : fields) (k : string) :
  match date_of (job !! k) with
  | Some d => Strptime.strptime (get job k) = Ok d
  | None => Strptime.strptime (get job k) = Raise ValueError
            \/ Strptime.strptime (get job k) = Raise TypeError
  end.
Proof.
  unfold get, date_of, Strptime.strptime.
  destruct (job !! k) as [[]|]; simpl; auto.
  destruct (Strptime.parse s); auto.
Qed.

(** One entry: the months of the design document when they are defined, and
    a skip when [Start] does not parse. *)
Lemma job_months_dated (now : date) (job : fields) :
  dated now job ->
  match months_of now job with
  | Some m => job_months now job = Ok m
  | None => job_months now job = Raise ValueError
            \/ job_months now job = Raise TypeError
  end.
Proof.
  intros Hd. unfold dated, months_of, start_of, job_months in *.
  pose proof (strptime_get job "Start") as Hs.
  destruct (date_of (job !! "Start")) as [s|]; simpl.
  2:{ destruct Hs as [-> | ->]; simpl; auto. }
  rewrite Hs. simpl.
  destruct (Hd ltac:(eauto)) as [e He]. rewrite He. simpl.
  unfold end_of, get in *.
  destruct (job !! "End") as [v|] eqn:E; simpl.
  2:{ by simplify_eq. }
  destruct v; simpl in He; try discriminate.
  - by simplify_eq.
  - unfold Strptime.strptime. rewrite He.
    destruct s0; [vm_compute in He; discriminate|]. reflexivity.
Qed.

Lemma total_months_from_dated (now : date) (jobs : list fields) : forall acc,
  Forall (dated now) jobs ->
  total_months_from now acc jobs = Ok (acc + experience_months now jobs).
Proof.
  induction jobs as [|job rest IH]; intros acc Hd; simpl.
  - f_equal. lia.
  - inversion Hd as [|? ? Hjob Hrest]; subst.
    pose proof (job_months_dated now job Hjob) as Hm.
    destruct (months_of now job) as [m|]; simpl.
    + rewrite Hm, IH by done. f_equal. lia.
    + destruct Hm as [-> | ->]; rewrite IH by done; f_equal; lia.
Qed.

(** One entry, whatever its [End]: the months as the calculation reads them,
    and a skip when they are undefined. *)
Lemma job_months_read (now : date) (job : fields) :
  match months_read now job with
  | Some m => job_months now job = Ok m
  | None => job_months now job = Raise ValueError
            \/ job_months now job = Raise TypeError
  end.
Proof.
  unfold months_read, start_of, end_read, job_months.
  pose proof (strptime_get job "Start") as Hs.
  pose proof (strptime_get job "End") as He.
  unfold get in *.
  destruct (date_of (job !! "Start")) as [s|];
    [|destruct Hs as [-> | ->]; simpl; auto].
  rewrite Hs.
  destruct (job !! "End") as [v|]; [|reflexivity].
  change (default VNull (Some v)) with v in *.
  destruct (truthy v); [|reflexivity].
  destruct (date_of (Some v)) as [e|].
  - rewrite He. reflexivity.
  - destruct He as [-> | ->]; simpl; auto.
Qed.

Lemma total_months_from_read (now : date) (jobs : list fields) : forall acc,
  total_months_from now acc jobs = Ok (acc + months_total now jobs).
Proof.
  induction jobs as [|job rest IH]; intros acc; simpl.
  - f_equal. lia.
  - pose proof (job_months_read now job) as Hm.
    destruct (months_read now job) as [m|]; simpl.
    + rewrite Hm, IH. f_equal. lia.
    + destruct Hm as [-> | ->]; rewrite IH; f_equal; lia.
Qed.

(** Where every [End] is absent, null or a date, the sum is that of the
    design document. *)
Lemma months_read_dated (now : date) (job : fields) :
  dated now job ->
  default 0 (months_read now job) = default 0 (months_of now job).
Proof.
  unfold dated, months_read, months_of, end_read, end_of.
  destruct (start_of job) as [s|]; simpl; [|done].
  intros Hd. destruct (Hd ltac:(eauto)) as [e He]. clear Hd.
  destruct (job !! "End") as [v|]; [|done].
  destruct v; simpl in *; try discriminate; try done.
  destruct s0; [vm_compute in He; discriminate|done].
Qed.

Lemma months_total_dated (now : date) (jobs : list fields) :
  Forall (dated now) jobs -> months_total now jobs = experience_months now jobs.
Proof.
  induction 1 as [|job rest Hjob _ IH]; simpl; [done|].
  by rewrite (months_read_dated _ _ Hjob), IH.
Qed.

(** An entry never stops the loop: only [ValueError] and [TypeError] arise. *)
Lemma job_months_raises (now : date) (job : fields) (e : exn) :
  job_months now job = Raise e -> e = ValueError \/ e = TypeError.
Proof.
  unfold job_months.
  assert (forall v d, Strptime.strptime v = Raise d ->
                      d = ValueError \/ d = TypeError) as Hs.
  { intros v d. unfold Strptime.strptime.
    destruct v; try (intros [= <-]; auto).
    destruct (Strptime.parse s); intros [= <-]; auto. }
  destruct (Strptime.strptime (get job "Start")) eqn:E1; simpl.
  2:{ intros [= <-]. eauto. }
  destruct (truthy (get job "End")).
  - destruct (Strptime.strptime (get job "End")) eqn:E2; simpl; [discriminate|].
    intros [= <-]. eauto.
  - discriminate.
Qed.

Lemma total_months_from_total (now : date) (jobs : list fields) : forall acc,
  exists m, total_months_from now acc jobs = Ok m.
Proof.
  induction jobs as [|job rest IH]; intros acc; simpl; [by eexists|].
  destruct (job_months now job) as [m|e] eqn:E; [apply IH|].
  destruct (job_months_raises _ _ _ E) as [-> | ->]; apply IH.
Qed.

Lemma calculate_total_experience_total (now : date) (jobs : list fields) :
  exists m, total_months_from now 0 jobs = Ok m
            /\ calculate_total_experience now jobs = Ok (inject_Z m / 12)%Q.
Proof.
  destruct (total_months_from_total now jobs 0) as [m Hm].
  exists m. split; [done|]. unfold calculate_total_experience. by rewrite Hm.
Qed.

(** The claim C3 fails as stated: an [End] that is an empty text is neither
    absent nor null nor a date, yet the entry is counted, up to the current
    date: 48 months here, where the sum of the design document has none. *)
Lemma empty_end_is_now :
  start_of {[ "Start" := VStr "2019-06-01"; "End" := VStr "" ]}
  = Some (mkdate 2019 6 1)
  /\ date_of (Some (VStr "")) = None
  /\ experience_months (mkdate 2023 6 1)
       [ {[ "Start" := VStr "2019-06-01"; "End" := VStr "" ]} ] = 0
  /\ calculate_total_experience (mkdate 2023 6 1)
       [ {[ "Start" := VStr "2019-06-01"; "End" := VStr "" ]} ]
     = Ok (inject_Z 48 / 12)%Q
  /\ ~ (inject_Z 48 / 12 == inject_Z 0 / 12)%Q.
Proof. repeat split; try (vm_compute; reflexivity). intros H. discriminate H. Qed.

(** The other way round, an [End] that is a text but not a date makes the
    entry skipped, though its [Start] is a date. *)
Example unparsable_end_is_skipped :
  start_of {[ "Start" := VStr "2019-01-01"; "End" := VStr "Present" ]}
  = Some (mkdate 2019 1 1)
  /\ calculate_total_experience (mkdate 2023 6 1)
       [ {[ "Start" := VStr "2019-01-01"; "End" := VStr "Present" ]} ]
     = Ok (inject_Z 0 / 12)%Q.
Proof. split; vm_compute; reflexivity. Qed.

(** C3, amended.  For every experience list the calculation returns, and the
    total is the sum, over the entries it does not skip, of the month
    difference from [Start] to [End], divided by 12.  An [End] that is
    absent, null or otherwise falsy (an empty text, zero) stands for the
    current date.  The entries skipped are those whose [Start] is missing or
    not a date, and those whose [End] is truthy and not a date.  Where every
    entry with a parseable [Start] has an [End] that is absent, null or a
    date, this is the sum of the design document.  The two entries of the
    example, at 2023-06-01, give 48 months, 4 years. *)
Theorem calculate_total_experience_spec :
  (forall now jobs,
     calculate_total_experience now jobs
     = Ok (inject_Z (months_total now jobs) / 12)%Q)
  /\ (forall now jobs,
        Forall (dated now) jobs ->
        months_total now jobs = experience_months now jobs
        /\ calculate_total_experience now jobs
           = Ok (inject_Z (experience_months now jobs) / 12)%Q)
  /\ experience_months (mkdate 2023 6 1) example_experience = 48
  /\ calculate_total_experience (mkdate 2023 6 1) example_experience
     = Ok (inject_Z 48 / 12)%Q
  /\ (inject_Z 48 / 12 == 4)%Q.
Proof.
  split.
  { intros now jobs. unfold calculate_total_experience.
    by rewrite total_months_from_read. }
  split.
  { intros now jobs Hd. split; [by apply months_total_dated|].
    unfold calculate_total_experience.
    by rewrite total_months_from_dated. }
  split; [reflexivity|]. split; [reflexivity|]. reflexivity.
Qed.

Lemma calculate_total_experience_spec_witness :
  Forall (dated (mkdate 2023 6 1)) example_experience
  /\ calculate_total_experience (mkdate 2023 6 1) example_experience
     = Ok (inject_Z (experience_months (mkdate 2023 6 1) example_experience) / 12)%Q.
Proof.
  assert (Forall (dated (mkdate 2023 6 1)) example_experience) as H.
  { repeat constructor; intros _; vm_compute; eauto. }
  split; [exact H|].
  apply (proj2 (proj1 (proj2 calculate_total_experience_spec) _ _ H)).
Defined.

(** ** Shortlisting *)

Lemma any_tier_1_returns (jobs : list fields) (b : bool) :
  any_tier_1 jobs = Ok b -> b = existsb company_is_tier_1 jobs.
Proof.
  induction jobs as [|job rest IH]; simpl; [by intros [= <-]|].
  unfold get_or, company_is_tier_1.
  destruct (job !! "Company") as [[]|]; simpl; try discriminate.
  - destruct (is_tier_1 (PyStr.lower s)); [by intros [= <-] | apply IH].
  - apply IH.
Qed.

Lemma any_tier_1_text (jobs : list fields) :
  Forall company_is_text jobs ->
  any_tier_1 jobs = Ok (existsb company_is_tier_1 jobs).
Proof.
  induction 1 as [|job rest Hjob _ IH]; simpl; [done|].
  unfold get_or, company_is_tier_1, company_is_text in *.
  destruct (job !! "Company") as [[]|]; simpl; try done.
  by destruct (is_tier_1 (PyStr.lower s)).
Qed.

Lemma rate_agrees (s : fields) :
  let rate := get_or s "Preferred Rate" (VFloat PosInf) in
  agrees (not_none_and rate (py_le rate (VInt 100)))
         (at_most (s !! "Preferred Rate") 100).
Proof.
  unfold get_or, at_most, agrees, py_le.
  destruct (s !! "Preferred Rate") as [[]|]; simpl; try done.
Qed.

Lemma availability_agrees (s : fields) :
  let availability := get_or s "Availability (hrs/wk)" (VInt 0) in
  agrees (not_none_and availability (py_ge availability (VInt 20)))
         (at_least (s !! "Availability (hrs/wk)") 20).
Proof.
  unfold get_or, at_least, agrees, py_ge, py_le.
  destruct (s !! "Availability (hrs/wk)") as [[]|]; simpl; try done.
Qed.

Lemma location_agrees (d : compressed) :
  agrees (location_allowed <$> py_lower (get_or (personal d) "Location" (VStr "")))
         (rule_location d).
Proof.
  unfold get_or, rule_location, agrees, py_lower.
  destruct (personal d !! "Location") as [[]|]; simpl; try done.
Qed.

Lemma experience_years_ok (now : date) (jobs : list fields) :
  calculate_total_experience now jobs = Ok (experience_years now jobs).
Proof.
  unfold experience_years, calculate_total_experience.
  by rewrite total_months_from_read.
Qed.

(** The tier-1 test of the code finds the employers the design document
    lists. *)
Lemma names_tier_1_employer_ok (jobs : list fields) :
  existsb company_is_tier_1 jobs = existsb names_tier_1_employer jobs.
Proof.
  induction jobs as [|job rest IH]; simpl; [done|]. rewrite IH.
  assert (company_is_tier_1 job = names_tier_1_employer job) as ->; [|done].
  unfold company_is_tier_1, names_tier_1_employer, is_tier_1.
  by destruct (job !! "Company") as [[]|].
Qed.

(** The decision follows the three rules. *)
Lemma shortlist_decision_rules (now : date) (d : compressed) :
  (Forall company_is_text (experience d) ->
   rules_pass now d = true ->
   exists reason, shortlist_decision now d = Ok (Some reason))
  /\ (rules_pass now d = false ->
      shortlist_decision now d = Ok None
      \/ exists e, shortlist_decision now d = Raise e).
Proof.
  unfold shortlist_decision, rules_pass, rule_experience, rule_compensation.
  rewrite experience_years_ok, <- names_tier_1_employer_ok. simpl.
  pose proof (rate_agrees (salary d)) as Hr.
  pose proof (availability_agrees (salary d)) as Ha.
  pose proof (location_agrees d) as Hl.
  simpl in Hr, Ha. unfold agrees in *.
  split.
  - intros Htext Hpass. rewrite (any_tier_1_text _ Htext). simpl.
    apply andb_prop in Hpass as [Hpass H3].
    apply andb_prop in Hpass as [H1 H2].
    apply andb_prop in H2 as [H2 H2'].
    rewrite H2 in Hr. rewrite H2' in Ha. rewrite H3 in Hl.
    destruct (not_none_and _ (py_le _ _)) as [x|]; [subst x|done]. simpl.
    destruct (not_none_and _ (py_ge _ _)) as [x|]; [subst x|done]. simpl.
    destruct (py_lower _) as [loc|]; [|done]. simpl in *.
    rewrite Hl, H1. simpl. by eexists.
  - intros Hfail.
    destruct (any_tier_1 (experience d)) as [t|] eqn:Et; simpl; [|eauto].
    apply any_tier_1_returns in Et. subst t.
    destruct (not_none_and _ (py_le _ _)) as [x|]; simpl; [subst x|eauto].
    destruct (at_most _ 100) eqn:H2; simpl.
    + destruct (not_none_and _ (py_ge _ _)) as [x|]; simpl; [subst x|eauto].
      destruct (py_lower _) as [loc|]; simpl in *; [|eauto].
      rewrite Hl. rewrite Hfail. auto.
    + destruct (py_lower _) as [loc|]; simpl in *; [|eauto].
      rewrite andb_false_r. auto.
Qed.

(** The claim C2 fails as stated: a document with ten years of experience,
    rate 80, availability 25 and a location in the United States passes the
    three rules, but one [Company] is null, the evaluation raises
    [AttributeError] and no lead is created. *)
Lemma company_not_text_raises :
  let d := mkdoc (personal passing_document)
             [ {[ "Start" := VStr "2010-01-01"; "End" := VStr "2020-01-01";
                  "Company" := VNull ]} ]
             (salary passing_document) in
  rules_pass (mkdate 2023 6 1) d = true
  /\ evaluate_shortlisting (mkdate 2023 6 1) applicant_4 d empty_world
     = Raise AttributeError.
Proof. split; vm_compute; reflexivity. Qed.

(** C2, amended.  For a document whose [Company] values, where present, are
    texts, a lead is created exactly when the three rules pass; it is the one
    record appended to the leads, and it carries the applicant, the whole
    document and the reason.  When a rule fails no record is created: the
    evaluation leaves the world as it was, or raises before any write.  The
    experience years of rule 1 are those of the amended C3. *)
Theorem evaluate_shortlisting_rules :
  forall now applicant_record d w,
    (Forall company_is_text (experience d) ->
     rules_pass now d = true ->
     exists reason w',
       evaluate_shortlisting now applicant_record d w = Ok w'
       /\ w' = create_lead [root_id applicant_record] d reason w
       /\ shortlisted_leads w'
          = (shortlisted_leads w
             ++ [mklead (fresh_id (next_id w)) [root_id applicant_record] d
                   reason])%list)
    /\ (rules_pass now d = false ->
        evaluate_shortlisting now applicant_record d w = Ok w
        \/ exists e, evaluate_shortlisting now applicant_record d w = Raise e).
Proof.
  intros now applicant_record d w. unfold evaluate_shortlisting.
  destruct (shortlist_decision_rules now d) as [Hpass Hfail].
  split.
  - intros Htext Hrules. destruct (Hpass Htext Hrules) as [reason ->]. simpl.
    by exists reason, (create_lead [root_id applicant_record] d reason w).
  - intros Hrules. destruct (Hfail Hrules) as [-> | [e ->]]; simpl; eauto.
Qed.

Lemma evaluate_shortlisting_rules_witness :
  Forall company_is_text (experience passing_document)
  /\ rules_pass (mkdate 2023 6 1) passing_document = true
  /\ exists reason w',
       evaluate_shortlisting (mkdate 2023 6 1) applicant_4 passing_document
         empty_world = Ok w'
       /\ w' = create_lead [root_id applicant_4] passing_document reason empty_world
       /\ shortlisted_leads w'
          = (shortlisted_leads empty_world
             ++ [mklead (fresh_id (next_id empty_world)) [root_id applicant_4]
                   passing_document reason])%list.
Proof.
  assert (Forall company_is_text (experience passing_document)) as H.
  { repeat constructor. }
  split; [exact H|]. split; [reflexivity|].
  apply (proj1 (evaluate_shortlisting_rules (mkdate 2023 6 1) applicant_4
                  passing_document empty_world) H).
  reflexivity.
Defined.

(** ** Shortlisting and the clock *)

Lemma job_months_same_month (now1 now2 : date) (job : fields) :
  same_month now1 now2 -> job_months now1 job = job_months now2 job.
Proof.
  intros [Hy Hm]. unfold job_months.
  destruct (Strptime.strptime (get job "Start")); simpl; [|done].
  destruct (truthy (get job "End")); simpl; [done|].
  by rewrite Hy, Hm.
Qed.

Lemma job_months_closed (now1 now2 : date) (job : fields) :
  open_ended job = false -> job_months now1 job = job_months now2 job.
Proof.
  unfold open_ended, job_months, start_of. intros H.
  pose proof (strptime_get job "Start") as Hs.
  destruct (date_of (job !! "Start")) as [s|].
  - rewrite bool_decide_eq_true_2 in H by eauto. simpl in H.
    apply negb_false_iff in H. by rewrite H.
  - destruct Hs as [-> | ->]; done.
Qed.

Lemma total_months_from_clock (now1 now2 : date) (jobs : list fields) :
  same_month now1 now2 \/ forallb (fun job => negb (open_ended job)) jobs = true ->
  forall acc, total_months_from now1 acc jobs = total_months_from now2 acc jobs.
Proof.
  intros H. induction jobs as [|job rest IH]; intros acc; simpl; [done|].
  assert (job_months now1 job = job_months now2 job) as ->.
  { destruct H as [H|H]; [by apply job_months_same_month|].
    simpl in H. apply andb_prop in H as [H _].
    apply job_months_closed. by apply negb_true_iff. }
  assert (same_month now1 now2
          \/ forallb (fun job => negb (open_ended job)) rest = true) as H'.
  { destruct H as [H|H]; [by left|right].
    simpl in H. by apply andb_prop in H as [_ H]. }
  destruct (job_months now2 job) as [m|[]]; auto.
Qed.

Lemma shortlist_decision_clock (now1 now2 : date) (d : compressed) :
  same_month now1 now2
  \/ forallb (fun job => negb (open_ended job)) (experience d) = true ->
  shortlist_decision now1 d = shortlist_decision now2 d.
Proof.
  intros H. unfold shortlist_decision, calculate_total_experience.
  by rewrite (total_months_from_clock now1 now2 _ H).
Qed.

Lemma created_leads_evaluate (now : date) (applicant_record : root)
    (d : compressed) (w : world) :
  created_leads w (evaluate_shortlisting now applicant_record d w)
  = (fun decision => match decision with
                     | Some reason => [([root_id applicant_record], d, reason)]
                     | None => []
                     end) <$> shortlist_decision now d.
Proof.
  unfold created_leads, evaluate_shortlisting.
  destruct (shortlist_decision now d) as [[reason|]|]; simpl; [| |done].
  - rewrite drop_app_length. reflexivity.
  - by rewrite drop_all.
Qed.

(** The claim C9 fails as stated: the same document, on the same store, is
    shortlisted on 2023-06-01 and is not on 2023-05-31. *)
Lemma evaluate_shortlisting_reads_clock :
  created_leads empty_world
    (evaluate_shortlisting (mkdate 2023 6 1) applicant_4 open_ended_document
       empty_world)
  <> created_leads empty_world
       (evaluate_shortlisting (mkdate 2023 5 31) applicant_4 open_ended_document
          empty_world).
Proof. vm_compute. discriminate. Qed.

(** C9, amended.  What an evaluation creates (the leads with their document
    and reason, or the exception) is a function of the document, of the
    applicant's record identifier and of the year and month of the clock: it
    does not depend on the store, and two evaluations in the same month give
    the same decision and reason.  When no entry is open-ended it does not
    depend on the clock either. *)
Theorem evaluate_shortlisting_deterministic :
  forall now1 now2 applicant_record d w1 w2,
    same_month now1 now2
    \/ forallb (fun job => negb (open_ended job)) (experience d) = true ->
    created_leads w1 (evaluate_shortlisting now1 applicant_record d w1)
    = created_leads w2 (evaluate_shortlisting now2 applicant_record d w2).
Proof.
  intros now1 now2 applicant_record d w1 w2 H.
  rewrite !created_leads_evaluate.
  by rewrite (shortlist_decision_clock now1 now2 d H).
Qed.

Lemma evaluate_shortlisting_deterministic_witness :
  (same_month (mkdate 2023 6 1) (mkdate 2023 6 30)
   \/ forallb (fun job => negb (open_ended job))
        (experience open_ended_document) = true)
  /\ created_leads empty_world
       (evaluate_shortlisting (mkdate 2023 6 1) applicant_4 open_ended_document
          empty_world)
     = created_leads (log Generated empty_world)
         (evaluate_shortlisting (mkdate 2023 6 30) applicant_4
            open_ended_document (log Generated empty_world)).
Proof.
  assert (same_month (mkdate 2023 6 1) (mkdate 2023 6 30)) as H.
  { split; reflexivity. }
  split; [by left|].
  apply evaluate_shortlisting_deterministic. by left.
Defined.

(** ** LLM evaluation: retries and the guard *)

Lemma ask_raises (gen : service) (d : compressed) (w : world) :
  (forall n d, exists e, gen n d = Raise e) ->
  exists e, ask gen d w = Raise e.
Proof.
  intros Hgen. unfold ask. destruct (Hgen (generated w) d) as [e ->].
  by exists e.
Qed.

Lemma attempt_once_raises (gen : service) (applicant_record : root)
    (d : compressed) (w : world) :
  (forall n d, exists e, gen n d = Raise e) ->
  exists e, attempt_once gen applicant_record d w = Raise e.
Proof.
  intros Hgen. unfold attempt_once.
  destruct (ask_raises gen d w Hgen) as [e ->]. by exists e.
Qed.

(** C7. When every call to the generation service raises and the record has
    no score yet, the evaluator calls the service exactly three times,
    sleeps 1 second after the first failure and 2 seconds after the second,
    does not sleep after the third, and returns: the store is as it was, no
    write was made. *)
Theorem evaluate_with_llm_retries :
  forall (gen : service) applicant_record d w,
    (forall n d, exists e, gen n d = Raise e) ->
    truthy (get (root_fields applicant_record) "LLM Score") = false ->
    let w' := evaluate_with_llm gen applicant_record d w in
    trace w' = (trace w ++ [Generated; Slept 1; Generated; Slept 2; Generated])%list
    /\ generated w' = (generated w + 3)%nat
    /\ applicants w' = applicants w
    /\ personal_details w' = personal_details w
    /\ work_experience w' = work_experience w
    /\ salary_preferences w' = salary_preferences w
    /\ shortlisted_leads w' = shortlisted_leads w
    /\ next_id w' = next_id w.
Proof.
  intros gen applicant_record d w Hgen Hscore w'. subst w'.
  unfold evaluate_with_llm. rewrite Hscore.
  cbn [seq max_retries llm_attempts].
  destruct (attempt_once_raises gen applicant_record d w Hgen) as [e0 ->].
  cbn [Nat.ltb Nat.leb Nat.sub].
  destruct (attempt_once_raises gen applicant_record d
              (log (Slept (2 ^ Z.of_nat 0)) (log Generated w)) Hgen)
    as [e1 ->].
  destruct (attempt_once_raises gen applicant_record d
              (log (Slept (2 ^ Z.of_nat 1))
                 (log Generated (log (Slept (2 ^ Z.of_nat 0)) (log Generated w))))
              Hgen) as [e2 ->].
  simpl.
  split; [by rewrite <- !app_assoc|].
  split; [|done].
  unfold generated. simpl. rewrite <- !app_assoc. simpl.
  rewrite List.filter_app, length_app. simpl. lia.
Qed.

Lemma evaluate_with_llm_retries_witness :
  (forall n d, exists e, failing_service n d = Raise e)
  /\ truthy (get (root_fields applicant_4) "LLM Score") = false
  /\ trace (evaluate_with_llm failing_service applicant_4 passing_document
              empty_world)
     = [Generated; Slept 1; Generated; Slept 2; Generated].
Proof.
  assert (forall n d, exists e, failing_service n d = Raise e) as H.
  { intros n d. by exists ServiceError. }
  split; [exact H|]. split; [reflexivity|].
  apply (evaluate_with_llm_retries failing_service applicant_4 passing_document
           empty_world H eq_refl).
Defined.

(** The claim C8 fails as stated: a score of zero is not null, and the
    evaluator calls the service and writes to the root record. *)
Lemma zero_score_is_evaluated_again :
  root_fields scored_zero !! "LLM Score" = Some (VInt 0)
  /\ get (root_fields scored_zero) "LLM Score" <> VNull
  /\ trace (evaluate_with_llm answering_service scored_zero passing_document
              (mkworld [scored_zero] [] [] [] [] 0 []))
     = [Generated; Updated Applicants "recA"]
  /\ (root_fields <$> applicants
        (evaluate_with_llm answering_service scored_zero passing_document
           (mkworld [scored_zero] [] [] [] [] 0 [])))
     = [ <["LLM Score" := VInt 7]> (root_fields scored_zero) ].
Proof.
  split; [reflexivity|]. split; [vm_compute; discriminate|].
  split; vm_compute; reflexivity.
Qed.

(** C8, amended.  When the root record carries a truthy score (not null and
    not zero; any integer from 1 to 10 is), the evaluator returns at once:
    the world is the one it was given, with no call to the generation service
    and no write in its trace. *)
Theorem evaluate_with_llm_guard :
  forall (gen : service) applicant_record d w,
    (truthy (get (root_fields applicant_record) "LLM Score") = true ->
     evaluate_with_llm gen applicant_record d w = w)
    /\ (forall n, n <> 0 ->
        root_fields applicant_record !! "LLM Score" = Some (VInt n) ->
        evaluate_with_llm gen applicant_record d w = w
        /\ trace (evaluate_with_llm gen applicant_record d w) = trace w
        /\ generated (evaluate_with_llm gen applicant_record d w) = generated w).
Proof.
  intros gen applicant_record d w.
  assert (truthy (get (root_fields applicant_record) "LLM Score") = true ->
          evaluate_with_llm gen applicant_record d w = w) as H.
  { intros Hscore. unfold evaluate_with_llm. by rewrite Hscore. }
  split; [exact H|].
  intros n Hn Hlook.
  assert (evaluate_with_llm gen applicant_record d w = w) as ->; [|done].
  apply H. unfold get. rewrite Hlook. simpl.
  apply negb_true_iff. by apply Z.eqb_neq.
Qed.

Lemma evaluate_with_llm_guard_witness :
  truthy (get (root_fields scored_eight) "LLM Score") = true
  /\ evaluate_with_llm answering_service scored_eight passing_document
       (mkworld [scored_eight] [] [] [] [] 0 [])
     = mkworld [scored_eight] [] [] [] [] 0 [].
Proof.
  split; [reflexivity|].
  apply (proj1 (evaluate_with_llm_guard answering_service scored_eight
                  passing_document (mkworld [scored_eight] [] [] [] [] 0 []))).
  reflexivity.
Defined.

(** ** The store *)

Lemma rows_upsert (c : child) applicant_id record_id data w :
  rows c (upsert c applicant_id record_id data w)
  = upsert_rows (linked_to (applicants w) applicant_id) (next_id w)
      (reattach record_id data) (nonempty data) (rows c w).
Proof.
  unfold upsert, upsert_rows.
  destruct (nonempty data); [|done].
  destruct (first _ _); by destruct c.
Qed.

Lemma upsert_frame (c : child) applicant_id record_id data w :
  applicants (upsert c applicant_id record_id data w) = applicants w
  /\ shortlisted_leads (upsert c applicant_id record_id data w)
     = shortlisted_leads w
  /\ (next_id w <= next_id (upsert c applicant_id record_id data w))%nat
  /\ forall c', c' <> c ->
       rows c' (upsert c applicant_id record_id data w) = rows c' w.
Proof.
  unfold upsert.
  destruct (nonempty data); [|by repeat split].
  destruct (first _ _); repeat split; try (by destruct c);
    try (destruct c; simpl; lia);
    intros c' Hc; by destruct c, c'.
Qed.

Lemma rows_sync_experience applicant_id record_id data w :
  work_experience (sync_experience applicant_id record_id data w)
  = sync_rows (linked_to (applicants w) applicant_id) (next_id w)
      (reattach record_id <$> data) (work_experience w).
Proof.
  unfold sync_experience, sync_rows.
  destruct data as [|x data]; [done|]. simpl.
  by destruct (all _ _).
Qed.

Lemma sync_experience_frame applicant_id record_id data w :
  applicants (sync_experience applicant_id record_id data w) = applicants w
  /\ shortlisted_leads (sync_experience applicant_id record_id data w)
     = shortlisted_leads w
  /\ (next_id w <= next_id (sync_experience applicant_id record_id data w))%nat
  /\ personal_details (sync_experience applicant_id record_id data w)
     = personal_details w
  /\ salary_preferences (sync_experience applicant_id record_id data w)
     = salary_preferences w.
Proof.
  unfold sync_experience.
  destruct data as [|x data]; [by repeat split|].
  destruct (all _ _); repeat split; simpl; lia.
Qed.

(** What the decompressor does to each table, when the root record is found
    and its compressed JSON parses. *)
Lemma decompress_tables (applicant_id : string) (w : world) (a : root)
    (d : compressed) :
  first (has_applicant_id applicant_id) (applicants w) = Some a ->
  compressed_json a = Some (Document d) ->
  let mine := linked_to (applicants w) applicant_id in
  let w' := decompress_applicant_data applicant_id w in
  exists n1 n2,
    (next_id w <= n1)%nat /\ (next_id w <= n2)%nat
    /\ applicants w' = applicants w
    /\ shortlisted_leads w' = shortlisted_leads w
    /\ personal_details w'
       = upsert_rows mine (next_id w) (reattach (root_id a) (personal d))
           (nonempty (personal d)) (personal_details w)
    /\ work_experience w'
       = sync_rows mine n1 (reattach (root_id a) <$> experience d)
           (work_experience w)
    /\ salary_preferences w'
       = upsert_rows mine n2 (reattach (root_id a) (salary d))
           (nonempty (salary d)) (salary_preferences w).
Proof.
  intros Hfind Hjson mine w'. subst w'.
  unfold decompress_applicant_data. rewrite Hfind, Hjson.
  set (w1 := upsert ChildPersonal applicant_id (root_id a) (personal d) w).
  set (w2 := sync_experience applicant_id (root_id a) (experience d) w1).
  destruct (upsert_frame ChildPersonal applicant_id (root_id a) (personal d) w)
    as (Ha1 & Hl1 & Hn1 & Hf1).
  destruct (sync_experience_frame applicant_id (root_id a) (experience d) w1)
    as (Ha2 & Hl2 & Hn2 & Hp2 & Hs2).
  destruct (upsert_frame ChildSalary applicant_id (root_id a) (salary d) w2)
    as (Ha3 & Hl3 & Hn3 & Hf3).
  fold w1 in Ha1, Hl1, Hn1, Hf1. fold w2 in Ha2, Hl2, Hn2, Hp2, Hs2.
  exists (next_id w1), (next_id w2).
  split; [lia|]. split; [lia|].
  split; [congruence|]. split; [congruence|].
  split.
  { change (personal_details ?x) with (rows ChildPersonal x).
    rewrite (Hf3 ChildPersonal) by done. simpl. rewrite Hp2.
    change (personal_details w1) with (rows ChildPersonal w1).
    unfold w1. by rewrite rows_upsert. }
  split.
  { change (work_experience ?x) with (rows ChildExperience x).
    rewrite (Hf3 ChildExperience) by done. simpl.
    unfold w2. rewrite rows_sync_experience, Ha1.
    f_equal. change (work_experience w1) with (rows ChildExperience w1).
    by rewrite (Hf1 ChildExperience). }
  change (salary_preferences ?x) with (rows ChildSalary x).
  rewrite rows_upsert. cbn [rows]. rewrite Ha2, Ha1, Hs2.
  f_equal. change (salary_preferences w1) with (rows ChildSalary w1).
  by rewrite (Hf1 ChildSalary).
Qed.

(** A root record that is not found, or whose compressed JSON is missing or
    does not parse, leaves everything as it was. *)
Lemma decompress_nothing (applicant_id : string) (w : world) :
  (forall a d, first (has_applicant_id applicant_id) (applicants w) = Some a ->
               compressed_json a <> Some (Document d)) ->
  decompress_applicant_data applicant_id w = w.
Proof.
  intros H. unfold decompress_applicant_data.
  destruct (first _ _) as [a|] eqn:E; [|done].
  destruct (compressed_json a) as [[d|]|] eqn:Ej; try done.
  by destruct (H a d eq_refl).
Qed.

Lemma fresh_id_inj (a b : nat) : fresh_id a = fresh_id b -> a = b.
Proof.
  unfold fresh_id. intros H.
  apply (inj (String.app "rec")) in H. by apply (inj pretty) in H.
Qed.

Lemma fresh_from_mono (n n' : nat) (t : list record) :
  (n <= n')%nat -> fresh_from n t -> fresh_from n' t.
Proof.
  intros Hn Hf. unfold fresh_from in *.
  eapply Forall_impl; [exact Hf|].
  intros r H k Hk. apply H. lia.
Qed.

Lemma filter_nothing {A} (p : A -> bool) (l : list A) :
  Forall (fun x => p x = false) l -> List.filter p l = [].
Proof. induction 1 as [|x l Hx _ IH]; simpl; [done|]. by rewrite Hx. Qed.

Lemma filter_everything {A} (p : A -> bool) (l : list A) :
  Forall (fun x => p x = true) l -> List.filter p l = l.
Proof. induction 1 as [|x l Hx _ IH]; simpl; [done|]. by rewrite Hx, IH. Qed.

Lemma new_records_fields (data : list fields) : forall n,
  rec_fields <$> new_records n data = data.
Proof. induction data as [|f rest IH]; intros n; simpl; [done|]. by rewrite IH. Qed.

Lemma new_records_ids (data : list fields) : forall n r,
  r ∈ new_records n data ->
  exists k, (n <= k < n + length data)%nat /\ rec_id r = fresh_id k.
Proof.
  induction data as [|f rest IH]; intros n r; simpl.
  - by intros ?%elem_of_nil.
  - intros [->|Hin]%elem_of_cons.
    + exists n. simpl. split; [lia|done].
    + destruct (IH _ _ Hin) as (k & Hk & ->). exists k. split; [lia|done].
Qed.

Lemma sync_rows_nonempty (mine : record -> bool) (n : nat) (data : list fields)
    (t : list record) :
  data <> [] ->
  sync_rows mine n data t
  = (match all mine t with
     | [] => t
     | _ => List.filter
              (fun r => negb (existsb (String.eqb (rec_id r))
                                (rec_id <$> all mine t))) t
     end ++ new_records n data)%list.
Proof. by destruct data. Qed.

Lemma new_records_nonempty (n : nat) (data : list fields) :
  data <> [] -> new_records n data <> [].
Proof. by destruct data. Qed.

Section OneTable.

Variable mine : record -> bool.

(** ** One-to-one sections *)

Section Upsert.

Variable data : fields.
Hypothesis mine_data : forall i f, mine (mkrec i (data ∪ f)) = true.

Lemma mine_new (i : rid) : mine (mkrec i data) = true.
Proof. rewrite <- (mine_data i ∅). by rewrite (right_id_L ∅ (∪)). Qed.

Lemma update_rows_absent (i : rid) (t : list record) :
  Forall (fun r => rec_id r <> i) t -> update_rows i data t = t.
Proof.
  unfold update_rows. induction 1 as [|r t Hr _ IH]; simpl; [done|].
  apply String.eqb_neq in Hr. rewrite Hr. by f_equal.
Qed.

Lemma update_rows_idemp (i : rid) (t : list record) :
  update_rows i data (update_rows i data t) = update_rows i data t.
Proof.
  unfold update_rows. rewrite <- list_fmap_compose.
  apply list_fmap_ext. intros _ r _. simpl.
  destruct (String.eqb (rec_id r) i) eqn:E; simpl; rewrite E; [|done].
  by rewrite (assoc_L (∪)), (idemp_L (∪)).
Qed.

Lemma first_update (t : list record) (r : record) :
  unique_ids t ->
  first mine t = Some r ->
  first mine (update_rows (rec_id r) data t)
  = Some (mkrec (rec_id r) (data ∪ rec_fields r)).
Proof.
  unfold unique_ids, first, update_rows.
  induction t as [|x t IH]; simpl; [done|].
  intros [Hx Ht]%NoDup_cons Hfind.
  destruct (mine x) eqn:Hm.
  - simplify_eq. rewrite String.eqb_refl. by rewrite mine_data.
  - assert (rec_id x <> rec_id r) as Hne.
    { intros Heq. apply Hx. rewrite Heq.
      apply list_elem_of_fmap. exists r. split; [done|].
      apply list_elem_of_In. by apply find_some in Hfind as [? _]. }
    apply String.eqb_neq in Hne. rewrite Hne, Hm. by apply IH.
Qed.

Lemma first_create (t : list record) (i : rid) :
  first mine t = None ->
  first mine (t ++ [mkrec i data]) = Some (mkrec i data).
Proof.
  unfold first. induction t as [|x t IH]; simpl.
  - by rewrite mine_new.
  - destruct (mine x); [done|]. apply IH.
Qed.

(** After the upsert the applicant's record carries the section, merged
    over what the record held before. *)
Lemma upsert_rows_first (n : nat) (t : list record) :
  unique_ids t ->
  rec_fields <$> first mine (upsert_rows mine n data true t)
  = Some (data ∪ default ∅ (rec_fields <$> first mine t)).
Proof.
  intros Hu. unfold upsert_rows.
  destruct (first mine t) as [r|] eqn:E; simpl.
  - by rewrite (first_update _ _ Hu E).
  - rewrite (first_create _ _ E). simpl. by rewrite (right_id_L ∅ (∪)).
Qed.

(** A second upsert of the same section changes nothing. *)
Lemma upsert_rows_idemp (n n' : nat) (present : bool) (t : list record) :
  unique_ids t ->
  fresh_from n t ->
  upsert_rows mine n' data present (upsert_rows mine n data present t)
  = upsert_rows mine n data present t.
Proof.
  intros Hu Hf. unfold upsert_rows.
  destruct present; [|done].
  destruct (first mine t) as [r|] eqn:E.
  - rewrite (first_update _ _ Hu E). simpl. apply update_rows_idemp.
  - rewrite (first_create _ _ E). simpl.
    unfold update_rows. rewrite fmap_app. simpl.
    rewrite String.eqb_refl, (idemp_L (∪)). f_equal.
    apply (update_rows_absent (fresh_id n)).
    eapply Forall_impl; [exact Hf|]. intros r Hr. by apply Hr.
Qed.

End Upsert.

(** ** The one-to-many section *)

Section Sync.

Variable data : list fields.
Hypothesis mine_data : forall i f, In f data -> mine (mkrec i f) = true.

Lemma all_new_records (n : nat) :
  all mine (new_records n data) = new_records n data.
Proof.
  unfold all. apply filter_everything.
  revert n mine_data. induction data as [|f rest IH]; intros n Hm; simpl.
  - constructor.
  - constructor; [apply Hm; by left|]. apply IH. intros i g Hg. apply Hm. by right.
Qed.

(** What is kept of the table holds no record of the applicant. *)
Lemma kept_not_mine (t : list record) :
  all mine
    (match all mine t with
     | [] => t
     | _ => List.filter
              (fun r => negb (existsb (String.eqb (rec_id r))
                                (rec_id <$> all mine t))) t
     end) = [].
Proof.
  unfold all.
  destruct (List.filter mine t) as [|x existing] eqn:E; [done|].
  rewrite <- E. clear E x existing.
  apply filter_nothing. apply Forall_forall. intros r Hr.
  apply list_elem_of_In, filter_In in Hr as [Hin Hkeep].
  destruct (mine r) eqn:Hm; [|done].
  apply negb_true_iff in Hkeep.
  assert (existsb (String.eqb (rec_id r)) (rec_id <$> List.filter mine t) = true)
    as Hex; [|congruence].
  apply existsb_exists. exists (rec_id r). split; [|apply String.eqb_refl].
  apply in_map, filter_In. by split.
Qed.

(** What is kept is part of the table. *)
Lemma kept_fresh (n : nat) (t : list record) :
  fresh_from n t ->
  fresh_from n
    (match all mine t with
     | [] => t
     | _ => List.filter
              (fun r => negb (existsb (String.eqb (rec_id r))
                                (rec_id <$> all mine t))) t
     end).
Proof.
  intros Hf. destruct (all mine t) as [|e0 es]; [done|].
  unfold fresh_from in *. rewrite Forall_forall in *.
  intros r Hr. apply Hf.
  apply list_elem_of_In, filter_In in Hr as [Hr _]. by apply list_elem_of_In.
Qed.

(** After the sync the applicant's records are the new ones, in the order
    of the array. *)
Lemma all_sync_rows (n : nat) (t : list record) :
  data <> [] ->
  all mine (sync_rows mine n data t) = new_records n data.
Proof.
  intros Hne. rewrite (sync_rows_nonempty _ _ _ _ Hne).
  unfold all at 1. rewrite List.filter_app.
  fold (all mine (new_records n data)). rewrite all_new_records.
  pose proof (kept_not_mine t) as Hk. unfold all at 1 in Hk.
  by rewrite Hk.
Qed.

(** A second sync of the same array leaves the same field maps. *)
Lemma sync_rows_idemp (n n' : nat) (t : list record) :
  fresh_from n t ->
  rec_fields <$> sync_rows mine n' data (sync_rows mine n data t)
  = rec_fields <$> sync_rows mine n data t.
Proof.
  intros Hf.
  destruct (decide (data = [])) as [Hnil|Hne].
  { unfold sync_rows. by rewrite Hnil. }
  rewrite (sync_rows_nonempty _ n' _ _ Hne), (all_sync_rows n t Hne).
  pose proof (new_records_nonempty n data Hne) as Hnew.
  destruct (new_records n data) as [|x news] eqn:En; [done|].
  rewrite <- En. clear x news En Hnew.
  rewrite (sync_rows_nonempty _ n _ _ Hne).
  set (kept := match all mine t with | [] => t | _ => _ end).
  assert (fresh_from n kept) as Hkf by apply (kept_fresh n t Hf).
  rewrite List.filter_app.
  rewrite (filter_everything _ kept).
  2:{ unfold fresh_from in Hkf. rewrite Forall_forall in *.
      intros r Hr. apply negb_true_iff.
      destruct (existsb _ _) eqn:Hex; [|done].
      apply existsb_exists in Hex as (i & Hi & Heq).
      apply String.eqb_eq in Heq. subst i.
      apply in_map_iff in Hi as (r' & Hid & Hr').
      apply list_elem_of_In, new_records_ids in Hr' as (k & Hk & Hk').
      destruct (Hkf r Hr k); [lia | congruence]. }
  rewrite (filter_nothing _ (new_records n data)).
  2:{ rewrite Forall_forall. intros r Hr. apply negb_false_iff.
      apply existsb_exists. exists (rec_id r).
      split; [|apply String.eqb_refl].
      apply in_map. by apply list_elem_of_In. }
  rewrite app_nil_r, !fmap_app, !new_records_fields. done.
Qed.

End Sync.

End OneTable.

(** A record that carries the re-attached section is linked to the
    applicant. *)
Lemma linked_reattach (roots : list root) (applicant_id : string) (a : root) :
  first (has_applicant_id applicant_id) roots = Some a ->
  forall i data f,
    linked_to roots applicant_id (mkrec i (reattach (root_id a) data ∪ f)) = true.
Proof.
  intros Hfind i data f. unfold linked_to, reattach. simpl.
  erewrite lookup_union_Some_l; last first.
  { rewrite lookup_delete_ne by done. apply lookup_insert_eq. }
  apply existsb_exists. exists a.
  apply find_some in Hfind as [Hin Hid].
  split; [done|]. by rewrite String.eqb_refl, Hid.
Qed.

Lemma linked_reattach_new (roots : list root) (applicant_id : string) (a : root) :
  first (has_applicant_id applicant_id) roots = Some a ->
  forall data i f,
    In f (reattach (root_id a) <$> data) ->
    linked_to roots applicant_id (mkrec i f) = true.
Proof.
  intros Hfind data i f Hin.
  apply in_map_iff in Hin as (x & <- & _).
  rewrite <- (right_id_L ∅ (∪) (reattach (root_id a) x)).
  by apply linked_reattach.
Qed.

(** ** Decompression *)

(** The claim C5 fails as stated: with an empty [experience] array the
    applicant's work experience is left in place, so the collection is not
    the array. *)
Lemma empty_section_is_not_written :
  compressed_json <$> first (has_applicant_id "4") (applicants stale_world)
  = Some (Some (Document empty_document))
  /\ experience empty_document = []
  /\ unlinked <$> experience_of "4" (decompress_applicant_data "4" stale_world)
     = [ {[ "Company" := VStr "Acme" ]} ]
  /\ unlinked <$> experience_of "4" (decompress_applicant_data "4" stale_world)
     <> experience empty_document.
Proof.
  split; [reflexivity|]. split; [reflexivity|].
  split; [vm_compute; reflexivity|].
  intros H. apply (f_equal length) in H. vm_compute in H. discriminate.
Qed.

(** An update keeps the fields the section does not name. *)
Example update_keeps_other_fields :
  personal_of "4" (decompress_applicant_data "4" edited_world)
  = Some {[ "Applicant" := VList [VStr "recA"];
            "Location" := VStr "India";
            "Email" := VStr "a@b.c" ]}.
Proof. vm_compute. reflexivity. Qed.

(** C5, amended.  For an applicant whose compressed JSON parses, and a store
    whose record identifiers are unique: a [personal] or [salary] section
    that is not empty is written over the applicant's record (its fields, the
    identifier left out and the back-reference set, replace or extend those
    the record held, or make a new record when there was none); an
    [experience] array that is not empty becomes the applicant's whole work
    experience, one record per element in the order of the array, all former
    ones deleted; an empty section leaves its table as it was. *)
Theorem decompress_overwrites :
  forall applicant_id w a d,
    first (has_applicant_id applicant_id) (applicants w) = Some a ->
    compressed_json a = Some (Document d) ->
    unique_ids (personal_details w) ->
    unique_ids (salary_preferences w) ->
    let w' := decompress_applicant_data applicant_id w in
    (nonempty (personal d) = true ->
     personal_of applicant_id w'
     = Some (reattach (root_id a) (personal d)
             ∪ default ∅ (personal_of applicant_id w)))
    /\ (nonempty (personal d) = false -> personal_details w' = personal_details w)
    /\ (experience d <> [] ->
        experience_of applicant_id w' = reattach (root_id a) <$> experience d)
    /\ (experience d = [] -> work_experience w' = work_experience w)
    /\ (nonempty (salary d) = true ->
        salary_of applicant_id w'
        = Some (reattach (root_id a) (salary d)
                ∪ default ∅ (salary_of applicant_id w)))
    /\ (nonempty (salary d) = false ->
        salary_preferences w' = salary_preferences w).
Proof.
  intros applicant_id w a d Hfind Hjson Hup Hus w'.
  destruct (decompress_tables applicant_id w a d Hfind Hjson)
    as (n1 & n2 & _ & _ & Happ & _ & Hp & He & Hs).
  fold w' in Happ, Hp, He, Hs.
  unfold personal_of, salary_of, experience_of. rewrite Happ, Hp, He, Hs.
  pose proof (linked_reattach _ _ _ Hfind) as Hmine.
  repeat split.
  - intros ->. apply upsert_rows_first; [|done]. intros i f. apply Hmine.
  - by intros ->.
  - intros Hne.
    assert (reattach (root_id a) <$> experience d <> []) as Hne'.
    { by destruct (experience d). }
    rewrite all_sync_rows; [apply new_records_fields| |done].
    intros i f. by apply linked_reattach_new.
  - by intros ->.
  - intros ->. apply upsert_rows_first; [|done]. intros i f. apply Hmine.
  - by intros ->.
Qed.

Lemma decompress_overwrites_witness :
  first (has_applicant_id "4") (applicants edited_world)
  = Some (mkroot "recA" {[ "Applicant ID" := VStr "4" ]}
            (Some (Document (mkdoc {[ "Location" := VStr "India" ]}
                               example_experience ∅))))
  /\ unique_ids (personal_details edited_world)
  /\ unique_ids (salary_preferences edited_world)
  /\ experience_of "4" (decompress_applicant_data "4" edited_world)
     = reattach "recA" <$> example_experience.
Proof.
  assert (unique_ids (personal_details edited_world)) as Hp.
  { repeat constructor. by intros ?%elem_of_nil. }
  assert (unique_ids (salary_preferences edited_world)) as Hs.
  { constructor. }
  split; [reflexivity|]. split; [exact Hp|]. split; [exact Hs|].
  apply (decompress_overwrites "4" edited_world _ _ eq_refl eq_refl Hp Hs).
  discriminate.
Defined.

(** The claim C4 fails as stated: with an empty [experience] array the
    record count after two decompressions is that of the records already
    there, not the length of the array. *)
Lemma empty_array_keeps_count :
  experience empty_document = []
  /\ length (experience_of "4"
               (decompress_applicant_data "4"
                  (decompress_applicant_data "4" stale_world))) = 1%nat
  /\ length (experience_of "4"
               (decompress_applicant_data "4"
                  (decompress_applicant_data "4" stale_world)))
     <> length (experience empty_document).
Proof.
  split; [reflexivity|]. split; [vm_compute; reflexivity|].
  vm_compute. discriminate.
Qed.

(** C4, amended.  On a well-formed store a second decompression of the same
    compressed JSON changes nothing but the identifiers of the work
    experience records: the root, lead, personal and salary tables are the
    same (the second run updates the personal and salary records, it creates
    none), and the work experience table holds the same field maps.  When the
    [experience] array is not empty, the applicant has as many work
    experience records as the array has elements, after one run and after
    two. *)
Theorem decompress_idempotent :
  forall applicant_id w,
    wf_store w ->
    let w1 := decompress_applicant_data applicant_id w in
    let w2 := decompress_applicant_data applicant_id w1 in
    applicants w2 = applicants w1
    /\ shortlisted_leads w2 = shortlisted_leads w1
    /\ personal_details w2 = personal_details w1
    /\ salary_preferences w2 = salary_preferences w1
    /\ rec_fields <$> work_experience w2 = rec_fields <$> work_experience w1
    /\ (forall a d,
          first (has_applicant_id applicant_id) (applicants w) = Some a ->
          compressed_json a = Some (Document d) ->
          experience d <> [] ->
          length (experience_of applicant_id w1) = length (experience d)
          /\ length (experience_of applicant_id w2) = length (experience d)).
Proof.
  intros applicant_id w Hwf w1 w2.
  destruct (first (has_applicant_id applicant_id) (applicants w)) as [a|] eqn:Hfind.
  2:{ assert (w1 = w) as Hw1.
      { apply decompress_nothing. intros a d. by rewrite Hfind. }
      assert (w2 = w1) as ->.
      { subst w2. rewrite Hw1. exact Hw1. }
      do 5 (split; [done|]). by intros a d. }
  destruct (compressed_json a) as [[d|]|] eqn:Hjson.
  2,3: assert (w1 = w) as Hw1
         by (apply decompress_nothing; intros a' d' Ha'; rewrite Hfind in Ha';
             simplify_eq; by rewrite Hjson);
       assert (w2 = w1) as -> by (subst w2; rewrite Hw1; exact Hw1);
       do 5 (split; [done|]);
       intros a' d' [= <-] Hj'; by rewrite Hjson in Hj'.
  destruct (decompress_tables applicant_id w a d Hfind Hjson)
    as (n1 & n2 & Hn1 & Hn2 & Happ & Hl & Hp & He & Hs).
  fold w1 in Happ, Hl, Hp, He, Hs.
  assert (first (has_applicant_id applicant_id) (applicants w1) = Some a) as Hfind1.
  { by rewrite Happ. }
  destruct (decompress_tables applicant_id w1 a d Hfind1 Hjson)
    as (m1 & m2 & _ & _ & Happ2 & Hl2 & Hp2 & He2 & Hs2).
  fold w2 in Happ2, Hl2, Hp2, He2, Hs2.
  rewrite Happ in Hp2, He2, Hs2.
  pose proof (linked_reattach _ _ _ Hfind) as Hmine.
  pose proof (linked_reattach_new _ _ _ Hfind (experience d)) as Hnew.
  destruct (Hwf ChildPersonal) as [Hup Hfp].
  destruct (Hwf ChildExperience) as [_ Hfe].
  destruct (Hwf ChildSalary) as [Hus Hfs].
  simpl in Hup, Hfp, Hfe, Hus, Hfs.
  split; [done|]. split; [done|].
  split.
  { rewrite Hp2, Hp. by apply upsert_rows_idemp. }
  split.
  { rewrite Hs2, Hs. apply upsert_rows_idemp; try done.
    by apply (fresh_from_mono (next_id w)). }
  split.
  { rewrite He2, He. apply sync_rows_idemp; [done|].
    by apply (fresh_from_mono (next_id w)). }
  intros a' d' [= <-] Hj' Hne. rewrite Hjson in Hj'. injection Hj' as <-.
  assert (reattach (root_id a) <$> experience d <> []) as Hne'.
  { by destruct (experience d). }
  unfold experience_of. rewrite Happ2, Happ, He2, He.
  rewrite (all_sync_rows _ _ (Hnew) m1 _ Hne').
  rewrite (all_sync_rows _ _ (Hnew) n1 _ Hne').
  rewrite !new_records_fields, !length_fmap. by split.
Qed.

Lemma wf_edited_world : wf_store edited_world.
Proof.
  assert (forall i k, (String.get 0 i <> Some "r"%char) -> i <> fresh_id k) as Hne.
  { intros i k Hi ->. by apply Hi. }
  intros c. destruct c; simpl; split; unfold unique_ids, fresh_from; simpl.
  - apply NoDup_singleton.
  - repeat constructor. intros k _. by apply Hne.
  - apply NoDup_singleton.
  - repeat constructor. intros k _. by apply Hne.
  - constructor.
  - constructor.
Defined.

Lemma decompress_idempotent_witness :
  wf_store edited_world
  /\ personal_details
       (decompress_applicant_data "4" (decompress_applicant_data "4" edited_world))
     = personal_details (decompress_applicant_data "4" edited_world).
Proof.
  split; [exact wf_edited_world|].
  apply (decompress_idempotent "4" edited_world wf_edited_world).
Defined.

(** ** Compression *)

Lemma find_ext {A} (p q : A -> bool) (l : list A) :
  (forall x, p x = q x) -> List.find p l = List.find q l.
Proof.
  intros H. induction l as [|x l IH]; simpl; [done|]. by rewrite H, IH.
Qed.

Lemma find_fmap {A} (p : A -> bool) (g : A -> A) (l : list A) :
  (forall x, p (g x) = p x) -> List.find p (g <$> l) = g <$> List.find p l.
Proof.
  intros H. induction l as [|x l IH]; csimpl; [done|].
  rewrite H. by destruct (p x).
Qed.

Lemma existsb_fmap {A} (p : A -> bool) (g : A -> A) (l : list A) :
  (forall x, p (g x) = p x) -> existsb p (g <$> l) = existsb p l.
Proof.
  intros H. induction l as [|x l IH]; csimpl; [done|]. by rewrite H, IH.
Qed.

(** The shortlist evaluation writes to the leads only. *)
Lemma evaluate_shortlisting_tables now applicant_record d w w' :
  evaluate_shortlisting now applicant_record d w = Ok w' ->
  applicants w' = applicants w
  /\ personal_details w' = personal_details w
  /\ work_experience w' = work_experience w
  /\ salary_preferences w' = salary_preferences w.
Proof.
  unfold evaluate_shortlisting.
  destruct (shortlist_decision now d) as [[reason|]|]; simpl; [| |done];
    by intros [= <-].
Qed.

(** The retry loop writes to the root record only, and only parsed fields. *)
Lemma llm_attempts_tables gen applicant_record d attempts : forall w,
  let w' := llm_attempts gen applicant_record d attempts w in
  personal_details w' = personal_details w
  /\ work_experience w' = work_experience w
  /\ salary_preferences w' = salary_preferences w
  /\ (applicants w' = applicants w
      \/ exists text llm,
           parse_llm_response text = Ok llm
           /\ applicants w'
              = (fun a => if String.eqb (root_id a) (root_id applicant_record)
                          then mkroot (root_id a) (llm ∪ root_fields a)
                                 (compressed_json a)
                          else a) <$> applicants w).
Proof.
  induction attempts as [|attempt rest IH]; intros w; cbn [llm_attempts].
  - repeat split; auto.
  - destruct (attempt_once gen applicant_record d w) as [w1|e] eqn:E.
    + unfold attempt_once, ask in E.
      destruct (gen (generated w) d) as [text|]; simpl in E; [|done].
      destruct (parse_llm_response text) as [llm|] eqn:Ep; simpl in E; [|done].
      destruct (nonempty llm).
      * unfold update_applicant in E.
        destruct (holds_applicant _ _); [|done].
        injection E as <-. simpl. repeat split; eauto.
      * injection E as <-. simpl. repeat split; auto.
    + destruct (attempt <? _)%nat;
        [exact (IH (log (Slept (2 ^ Z.of_nat attempt)) (log Generated w)))
        |exact (IH (log Generated w))].
Qed.

(** What the orchestrator leaves in the store. *)
Lemma compress_tables now gen applicant_id w a :
  first (has_applicant_id applicant_id) (applicants w) = Some a ->
  let w' := compress_evaluate_enrich now gen applicant_id w in
  personal_details w' = personal_details w
  /\ work_experience w' = work_experience w
  /\ salary_preferences w' = salary_preferences w
  /\ exists llm,
       llm !! "Applicant ID" = None
       /\ applicants w'
          = enriched (root_id a) (build_json applicant_id w) llm <$> applicants w.
Proof.
  intros Hfind w'. subst w'.
  unfold compress_evaluate_enrich. rewrite Hfind.
  set (final_json := build_json applicant_id w).
  set (w1 := update_compressed_json (root_id a) final_json w).
  assert (applicants w1 = enriched (root_id a) final_json ∅ <$> applicants w) as H1.
  { unfold w1, update_compressed_json, enriched. simpl.
    apply list_fmap_ext. intros _ r _.
    destruct (String.eqb _ _); [|done]. by rewrite (left_id_L ∅ (∪)). }
  destruct (evaluate_shortlisting now a final_json w1) as [w2|e] eqn:Es.
  2:{ repeat split; try done. exists ∅. split; [apply lookup_empty | exact H1]. }
  destruct (evaluate_shortlisting_tables _ _ _ _ _ Es) as (Ha2 & Hp2 & He2 & Hs2).
  unfold evaluate_with_llm.
  destruct (truthy _).
  { rewrite Ha2, Hp2, He2, Hs2.
    repeat split; try done. exists ∅. split; [apply lookup_empty | exact H1]. }
  destruct (llm_attempts_tables gen a final_json (seq 0 max_retries) w2)
    as (Hp3 & He3 & Hs3 & Ha3).
  rewrite Hp3, He3, Hs3, Hp2, He2, Hs2.
  repeat split; try done.
  destruct Ha3 as [-> | (text & llm & Hparse & ->)]; rewrite Ha2, H1.
  - exists ∅. split; [apply lookup_empty | done].
  - exists llm. split; [by apply (parse_other text)|].
    rewrite <- list_fmap_compose. apply list_fmap_ext. intros _ r _.
    unfold enriched. simpl.
    destruct (String.eqb (root_id r) (root_id a)) eqn:E; simpl; rewrite E; [|done].
    by rewrite (left_id_L ∅ (∪)).
Qed.

Lemma has_applicant_id_enriched applicant_id record_id d llm a :
  llm !! "Applicant ID" = None ->
  has_applicant_id applicant_id (enriched record_id d llm a)
  = has_applicant_id applicant_id a.
Proof.
  intros Hllm. unfold has_applicant_id, enriched.
  destruct (String.eqb _ _); [|done]. simpl.
  by rewrite lookup_union_r.
Qed.

Lemma root_id_enriched record_id d llm a :
  root_id (enriched record_id d llm a) = root_id a.
Proof. unfold enriched. by destruct (String.eqb _ _). Qed.

Lemma linked_to_enriched applicant_id record_id d llm roots r :
  llm !! "Applicant ID" = None ->
  linked_to (enriched record_id d llm <$> roots) applicant_id r
  = linked_to roots applicant_id r.
Proof.
  intros Hllm. unfold linked_to.
  destruct (rec_fields r !! "Applicant") as [[| | | | |[|[| | | |i| |] []]|]|]; try done.
  apply existsb_fmap. intros a.
  by rewrite root_id_enriched, has_applicant_id_enriched.
Qed.



(** ** Round trip *)

Lemma lookup_unlinked (f : fields) (k : string) :
  unlinked f !! k
  = if decide (k = "Id" \/ k = "Applicant") then None else f !! k.
Proof.
  unfold unlinked. case_decide as H.
  - destruct H as [-> | ->]; [apply lookup_delete_eq|].
    rewrite lookup_delete_ne by done. apply lookup_delete_eq.
  - rewrite !lookup_delete_ne; [done|intros <-; tauto|intros <-; tauto].
Qed.




Lemma nonempty_empty : nonempty ∅ = false.
Proof. reflexivity. Qed.

Section RoundTrip.

Variable mine : record -> bool.
Variable record_id : rid.
Hypothesis mine_reattach :
  forall i data f, mine (mkrec i (reattach record_id data ∪ f)) = true.



End RoundTrip.



Lemma nonempty_false (d : fields) : nonempty d = false -> d = ∅.
Proof.
  unfold nonempty. intros H%negb_false_iff%bool_decide_eq_true.
  by apply map_size_empty_iff.
Qed.

Section Rebuild.

Variable mine mine2 : record -> bool.
Variable record_id : rid.
Hypothesis mine2_reattach :
  forall i data f, mine2 (mkrec i (reattach record_id data ∪ f)) = true.



End Rebuild.






(** * Further properties *)

(** ** White space *)

Lemma lstrip_empty (s : string) : PyStr.lstrip s = "" -> all_space s = true.
Proof.
  induction s as [|c t IH]; simpl; [done|].
  destruct (PyStr.isspace c); [exact IH|discriminate].
Qed.

Lemma lstrip_head (s : string) (c : ascii) (t : string) :
  PyStr.lstrip s = String c t -> PyStr.isspace c = false.
Proof.
  induction s as [|a s IH]; simpl; [discriminate|].
  destruct (PyStr.isspace a) eqn:E; [exact IH|].
  intros [= <- _]. exact E.
Qed.

Lemma all_space_rev_app (s1 s2 : string) :
  all_space (String.rev_app s1 s2) = all_space s1 && all_space s2.
Proof.
  revert s2. induction s1 as [|c t IH]; intros s2; simpl; [done|].
  rewrite IH. cbn [all_space].
  by destruct (PyStr.isspace c), (all_space t), (all_space s2).
Qed.

Lemma rev_app_empty (s1 s2 : string) :
  String.rev_app s1 s2 = "" -> s1 = "" /\ s2 = "".
Proof.
  revert s2. induction s1 as [|c t IH]; intros s2; simpl; [done|].
  intros H. apply IH in H as [_ H]. discriminate.
Qed.

(** A blank line is made of white space only. *)
Lemma blank_all_space (line : string) :
  is_blank line = true -> all_space line = true.
Proof.
  unfold is_blank, PyStr.strip, PyStr.rstrip. intros H.
  apply String.eqb_eq in H.
  unfold String.rev in H. apply rev_app_empty in H as [H _].
  apply lstrip_empty in H. rewrite all_space_rev_app in H.
  apply andb_prop in H as [H _].
  destruct (PyStr.lstrip line) as [|c t] eqn:E.
  - by apply lstrip_empty.
  - apply lstrip_head in E. simpl in H. by rewrite E in H.
Qed.

(** A blank line begins with no label. *)
Lemma blank_no_prefix (line pre : string) (c : ascii) (t : string) :
  pre = String c t -> PyStr.isspace c = false ->
  all_space line = true -> PyStr.startswith line pre = false.
Proof.
  intros -> Hc Hline. unfold PyStr.startswith.
  destruct line as [|a line]; [done|]. cbn [String.prefix].
  destruct (ascii_dec c a) as [<-|]; [|done].
  simpl in Hline. by rewrite Hc in Hline.
Qed.

(** ** The scanner: lines passed over, fields written *)

(** A blank line and a malformed score leave the state as it is. *)
Lemma scan_line_passed_over st line :
  is_passed_over line = true -> scan_line st line = Ok st.
Proof.
  destruct st as [d sec]. unfold is_passed_over. intros H.
  apply orb_prop in H as [H|H].
  - pose proof (blank_all_space _ H) as Hs.
    unfold scan_line.
    rewrite (blank_no_prefix line "Summary:" _ _ eq_refl eq_refl Hs).
    rewrite (blank_no_prefix line "Score:" _ _ eq_refl eq_refl Hs).
    rewrite (blank_no_prefix line "Issues:" _ _ eq_refl eq_refl Hs).
    rewrite (blank_no_prefix line "Follow-Ups:" _ _ eq_refl eq_refl Hs).
    unfold is_blank in H. rewrite H. simpl. by rewrite andb_false_r.
  - unfold is_malformed_score, score_of in H.
    apply andb_prop in H as [H1 H2]. unfold scan_line.
    rewrite (score_not_summary _ H1), H1.
    destruct (PyStr.int _) as [n|]; [|done].
    rewrite bool_decide_eq_true_2 in H2 by eauto. discriminate.
Qed.

Lemma scan_lines_passed_over lines : forall st,
  scan_lines st lines
  = scan_lines st (List.filter (fun line => negb (is_passed_over line)) lines).
Proof.
  induction lines as [|line rest IH]; intros st; [done|].
  cbn [List.filter]. destruct (is_passed_over line) eqn:E; cbn [negb scan_lines].
  - rewrite (scan_line_passed_over _ _ E). simpl. apply IH.
  - destruct (scan_line st line) as [st'|]; simpl; [apply IH|done].
Qed.

Lemma scan_line_fields st st' line :
  (forall k v, st.1 !! k = Some v -> scanned_field k v) ->
  scan_line st line = Ok st' ->
  forall k v, st'.1 !! k = Some v -> scanned_field k v.
Proof.
  destruct st as [d sec]. unfold scan_line, append_follow_ups. simpl.
  intros Hd H k v.
  assert (forall (d0 : fields) s,
            (forall k v, d0 !! k = Some v -> scanned_field k v) ->
            <["LLM Follow-Ups" := VStr s]> d0 !! k = Some v ->
            scanned_field k v) as Hfu.
  { intros d0 s Hd0. destruct (decide (k = "LLM Follow-Ups")) as [->|Hne].
    - rewrite lookup_insert_eq. intros [= <-]. right; right. eauto.
    - rewrite lookup_insert_ne by done. apply Hd0. }
  repeat (match type of H with
          | context [if ?b then _ else _] => destruct b
          | context [match ?o with _ => _ end] => destruct o eqn:?
          end; simpl in H; simplify_eq; simpl); try apply Hd.
  - destruct (decide (k = "LLM Summary")) as [->|Hne].
    + rewrite lookup_insert_eq. intros [= <-]. left. eauto.
    + rewrite lookup_insert_ne by done. apply Hd.
  - destruct (decide (k = "LLM Score")) as [->|Hne].
    + rewrite lookup_insert_eq. intros [= <-]. right; left. eauto.
    + rewrite lookup_insert_ne by done. apply Hd.
  - by apply Hfu.
  - apply Hfu. intros k0 v0. destruct (decide (k0 = "LLM Follow-Ups")) as [->|Hne].
    + rewrite lookup_insert_eq. intros [= <-]. right; right. eauto.
    + rewrite lookup_insert_ne by done. apply Hd.
  - by apply Hfu.
Qed.

Lemma scan_lines_fields lines : forall st st',
  (forall k v, st.1 !! k = Some v -> scanned_field k v) ->
  scan_lines st lines = Ok st' ->
  forall k v, st'.1 !! k = Some v -> scanned_field k v.
Proof.
  induction lines as [|line rest IH]; intros st st' Hst H; simpl in H.
  - by simplify_eq.
  - destruct (scan_line st line) as [st1|] eqn:E; simpl in H; [|done].
    apply (IH st1 st'); [|done]. by apply (scan_line_fields st st1 line).
Qed.

(** X1. Whatever the response, the parser returns a dict that holds nothing
    but the three LLM fields: a summary and follow-ups that are stripped
    texts, a score that is an integer. *)
Theorem parse_llm_response_fields :
  forall text, exists d,
    parse_llm_response text = Ok d
    /\ forall k v, d !! k = Some v -> llm_field k v.
Proof.
  intros text. unfold parse_llm_response.
  destruct (scan_lines_inv (PyStr.split_lines (PyStr.strip text)) _
              scanner_inv_start) as (st & E & _).
  rewrite E. simpl. eexists; split; [reflexivity|].
  assert (forall k v, st.1 !! k = Some v -> scanned_field k v) as Hst.
  { eapply (scan_lines_fields _ (∅, None) st); [|exact E].
    intros k v. simpl. by rewrite lookup_empty. }
  intros k v. unfold finish.
  destruct (st.1 !! "LLM Follow-Ups") as [fu|] eqn:Efu.
  - destruct (Hst _ _ Efu) as [[? _]|[[? _]|[_ [s ->]]]]; try discriminate.
    destruct (decide (k = "LLM Follow-Ups")) as [->|Hne].
    + rewrite lookup_insert_eq. intros [= <-]. right; right. eauto.
    + rewrite lookup_insert_ne by done. intros Hk.
      destruct (Hst _ _ Hk) as [H|[H|[H _]]]; [by left|by right; left|done].
  - intros Hk. destruct (Hst _ _ Hk) as [H|[H|[-> _]]];
      [by left|by right; left|congruence].
Qed.

(** X2. Blank lines and [Score:] lines whose number does not read as an
    integer are invisible to the scanner, in whatever state it is: the lines
    scan as the same lines without them, so a malformed score neither sets
    the score nor ends the follow-ups. *)
Theorem scan_lines_skips_noise :
  forall st lines,
    scan_lines st lines
    = scan_lines st (List.filter (fun line => negb (is_passed_over line)) lines).
Proof. intros st lines. apply scan_lines_passed_over. Qed.

Lemma parse_no_label (text : string) :
  forallb (fun line => unlabelled line || is_passed_over line) (lines_of text)
  = true ->
  parse_llm_response text = Ok ∅.
Proof.
  intros H. unfold parse_llm_response. fold (lines_of text).
  rewrite scan_lines_passed_over.
  rewrite scan_lines_dropped; [done|done|].
  apply forallb_forall. intros line Hin.
  apply filter_In in Hin as [Hin Hvis].
  rewrite forallb_forall in H. specialize (H line Hin).
  apply negb_true_iff in Hvis. rewrite Hvis in H. by rewrite orb_false_r in H.
Qed.

(** X3. A response none of whose lines carries a label (or whose only
    labelled lines are malformed scores) parses to the empty dict. *)
Theorem parse_llm_response_no_label :
  forall text,
    forallb (fun line => unlabelled line || is_passed_over line) (lines_of text)
    = true ->
    parse_llm_response text = Ok ∅.
Proof. exact parse_no_label. Qed.

Lemma parse_llm_response_no_label_witness :
  forallb (fun line => unlabelled line || is_passed_over line)
    (lines_of ("I cannot rate this profile." +:+ nl +:+ "Score: n/a")) = true
  /\ parse_llm_response ("I cannot rate this profile." +:+ nl +:+ "Score: n/a")
     = Ok ∅.
Proof.
  split; [reflexivity|].
  apply parse_llm_response_no_label. reflexivity.
Defined.

(** ** The LLM evaluator: what it does to the outside *)

Lemma generated_log (e : event) (w : world) :
  generated (log e w) = (generated w + (if is_generated e then 1 else 0))%nat.
Proof.
  unfold generated. simpl. rewrite List.filter_app, length_app. simpl.
  by destruct (is_generated e).
Qed.

Lemma generated_write_applicant (record_id : rid) (u : fields) (w : world) :
  generated (write_applicant record_id u w) = generated w.
Proof.
  unfold generated, write_applicant. simpl.
  rewrite List.filter_app, length_app. simpl. lia.
Qed.

(** One pass through the [try] block that ends well: one call, and at most
    one write, to a root record the store holds. *)
Lemma attempt_once_ok (gen : service) (applicant_record : root)
    (d : compressed) (w w1 : world) :
  attempt_once gen applicant_record d w = Ok w1 ->
  (exists wrote,
     trace w1 = (trace w ++ [Generated] ++ wrote)%list
     /\ (wrote = []
         \/ wrote = [Updated Applicants (root_id applicant_record)]
            /\ holds_applicant (root_id applicant_record) w = true))
  /\ generated w1 = (generated w + 1)%nat
  /\ personal_details w1 = personal_details w
  /\ work_experience w1 = work_experience w
  /\ salary_preferences w1 = salary_preferences w
  /\ shortlisted_leads w1 = shortlisted_leads w
  /\ next_id w1 = next_id w.
Proof.
  unfold attempt_once. intros H.
  destruct (ask gen d w) as [u|]; simpl in H; [|done].
  destruct (nonempty u).
  - unfold update_applicant in H.
    destruct (holds_applicant _ _) eqn:Eh; [|done].
    injection H as <-. split.
    + exists [Updated Applicants (root_id applicant_record)].
      split; [simpl; by rewrite <- app_assoc|]. by right.
    + rewrite generated_write_applicant, generated_log. simpl.
      repeat split; lia.
  - injection H as <-. split.
    + exists []. split; [done|by left].
    + rewrite generated_log. simpl. repeat split; lia.
Qed.

Lemma holds_applicant_log (record_id : rid) (e : event) (w : world) :
  holds_applicant record_id (log e w) = holds_applicant record_id w.
Proof. reflexivity. Qed.

(** The store holds the root record it found. *)
Lemma holds_applicant_found (applicant_id : string) (w : world) (a : root) :
  first (has_applicant_id applicant_id) (applicants w) = Some a ->
  holds_applicant (root_id a) w = true.
Proof.
  intros H. apply find_some in H as [Hin _].
  unfold holds_applicant. apply existsb_exists. exists a.
  split; [done|apply String.eqb_refl].
Qed.

(** Whether the store holds a record depends on the identifiers alone. *)
Lemma holds_applicant_ids (record_id : rid) (w w' : world) :
  root_id <$> applicants w' = root_id <$> applicants w ->
  holds_applicant record_id w' = holds_applicant record_id w.
Proof.
  unfold holds_applicant. intros H.
  assert (forall l, existsb (fun a => String.eqb (root_id a) record_id) l
                    = existsb (fun i => String.eqb i record_id) (root_id <$> l))
    as Hex.
  { induction l as [|x l IH]; csimpl; [done|]. by rewrite IH. }
  by rewrite !Hex, H.
Qed.

(** One pass through the [try] block for a record the store does not hold,
    when the service answers with a field: the update is refused. *)
Lemma attempt_once_refused (gen : service) (applicant_record : root)
    (d : compressed) (w : world) :
  holds_applicant (root_id applicant_record) w = false ->
  (exists text llm,
     gen (generated w) d = Ok text
     /\ parse_llm_response text = Ok llm /\ nonempty llm = true) ->
  attempt_once gen applicant_record d w = Raise ServiceError.
Proof.
  intros Hh (text & llm & Hg & Hp & Hn).
  unfold attempt_once, ask. rewrite Hg. simpl. rewrite Hp. simpl. rewrite Hn.
  unfold update_applicant. by rewrite holds_applicant_log, Hh.
Qed.

(** The events and the frame of one evaluation. *)
Lemma evaluate_with_llm_events :
  forall (gen : service) applicant_record d w,
    let w' := evaluate_with_llm gen applicant_record d w in
    (exists k wrote,
       (k <= 3)%nat
       /\ trace w' = (trace w ++ backoff_trace k ++ wrote)%list
       /\ generated w' = (generated w + k)%nat
       /\ (wrote = []
           \/ wrote = [Updated Applicants (root_id applicant_record)]
              /\ (1 <= k)%nat
              /\ holds_applicant (root_id applicant_record) w = true))
    /\ personal_details w' = personal_details w
    /\ work_experience w' = work_experience w
    /\ salary_preferences w' = salary_preferences w
    /\ shortlisted_leads w' = shortlisted_leads w
    /\ next_id w' = next_id w.
Proof.
  intros gen applicant_record d w w'. subst w'.
  unfold evaluate_with_llm.
  destruct (truthy _).
  { split; [|done]. exists 0%nat, []. simpl.
    rewrite app_nil_r. repeat split; auto. }
  cbn [seq max_retries llm_attempts Nat.ltb Nat.leb Nat.sub].
  destruct (attempt_once gen applicant_record d w) as [w1|e0] eqn:E0.
  { destruct (attempt_once_ok _ _ _ _ _ E0)
      as ((wrote & Ht & Hw) & Hg & frame).
    split; [|exact frame]. exists 1%nat, wrote.
    split; [lia|]. split; [exact Ht|]. split; [exact Hg|].
    destruct Hw as [-> | [-> Hh]]; [by left|right]. split; [done|].
    split; [lia|exact Hh]. }
  destruct (attempt_once gen applicant_record d
              (log (Slept (2 ^ Z.of_nat 0)) (log Generated w)))
    as [w1|e1] eqn:E1.
  { destruct (attempt_once_ok _ _ _ _ _ E1)
      as ((wrote & Ht & Hw) & Hg & Hp & He & Hs & Hl & Hn).
    split; [|by rewrite Hp, He, Hs, Hl, Hn].
    exists 2%nat, wrote.
    split; [lia|]. split; [rewrite Ht; simpl; by rewrite <- !app_assoc|].
    split; [rewrite Hg, !generated_log; simpl; lia|].
    destruct Hw as [-> | [-> Hh]]; [by left|right]. split; [done|].
    split; [lia|exact Hh]. }
  destruct (attempt_once gen applicant_record d
              (log (Slept (2 ^ Z.of_nat 1))
                 (log Generated
                    (log (Slept (2 ^ Z.of_nat 0)) (log Generated w)))))
    as [w1|e2] eqn:E2.
  { destruct (attempt_once_ok _ _ _ _ _ E2)
      as ((wrote & Ht & Hw) & Hg & Hp & He & Hs & Hl & Hn).
    split; [|by rewrite Hp, He, Hs, Hl, Hn].
    exists 3%nat, wrote.
    split; [lia|]. split; [rewrite Ht; simpl; by rewrite <- !app_assoc|].
    split; [rewrite Hg, !generated_log; simpl; lia|].
    destruct Hw as [-> | [-> Hh]]; [by left|right]. split; [done|].
    split; [lia|exact Hh]. }
  split; [|done].
  exists 3%nat, []. split; [lia|].
  split; [simpl; by rewrite <- ?app_assoc|].
  split; [rewrite ?generated_log; simpl; lia|auto].
Qed.

Lemma evaluate_with_llm_trace :
  forall (gen : service) applicant_record d w,
    let w' := evaluate_with_llm gen applicant_record d w in
    (exists k wrote,
       (k <= 3)%nat
       /\ trace w' = (trace w ++ backoff_trace k ++ wrote)%list
       /\ generated w' = (generated w + k)%nat
       /\ (wrote = []
           \/ wrote = [Updated Applicants (root_id applicant_record)]
              /\ (1 <= k)%nat))
    /\ personal_details w' = personal_details w
    /\ work_experience w' = work_experience w
    /\ salary_preferences w' = salary_preferences w
    /\ shortlisted_leads w' = shortlisted_leads w
    /\ next_id w' = next_id w.
Proof.
  intros gen applicant_record d w w'.
  destruct (evaluate_with_llm_events gen applicant_record d w)
    as ((k & wrote & Hk & Ht & Hg & Hw) & frame).
  split; [|exact frame]. exists k, wrote.
  split; [done|]. split; [done|]. split; [done|].
  destruct Hw as [-> | (-> & H1 & _)]; auto.
Qed.

(** A record the store does not hold, and a service that always answers
    with a field: three calls, three refused updates, nothing written. *)
Lemma evaluate_with_llm_refused (gen : service) applicant_record d w :
  holds_applicant (root_id applicant_record) w = false ->
  truthy (get (root_fields applicant_record) "LLM Score") = false ->
  (forall n, exists text llm,
     gen n d = Ok text /\ parse_llm_response text = Ok llm
     /\ nonempty llm = true) ->
  evaluate_with_llm gen applicant_record d w
  = log Generated
      (log (Slept 2) (log Generated (log (Slept 1) (log Generated w)))).
Proof.
  intros Hh Hscore Hgen. unfold evaluate_with_llm. rewrite Hscore.
  cbn [seq max_retries llm_attempts Nat.ltb Nat.leb Nat.sub].
  rewrite attempt_once_refused; [|done|apply Hgen].
  rewrite attempt_once_refused; [|done|apply Hgen].
  rewrite attempt_once_refused; [|done|apply Hgen].
  reflexivity.
Qed.

(** X4. Whatever the generation service and the store do, one evaluation
    calls the service at most three times, sleeps only between attempts (1
    second, then 2), writes at most once, after a call, to the root record
    it was given and only when the store holds that record, and leaves the
    dependent tables, the leads and the identifier counter as they were.
    The update is inside the [try] block: for a record the store does not
    hold, a service that answers with a field each time is called three
    times, with both sleeps, each update is refused and nothing is
    written. *)
Theorem evaluate_with_llm_effects :
  forall (gen : service) applicant_record d w,
    let w' := evaluate_with_llm gen applicant_record d w in
    (exists k wrote,
       (k <= 3)%nat
       /\ trace w' = (trace w ++ backoff_trace k ++ wrote)%list
       /\ generated w' = (generated w + k)%nat
       /\ (wrote = []
           \/ wrote = [Updated Applicants (root_id applicant_record)]
              /\ (1 <= k)%nat
              /\ holds_applicant (root_id applicant_record) w = true))
    /\ personal_details w' = personal_details w
    /\ work_experience w' = work_experience w
    /\ salary_preferences w' = salary_preferences w
    /\ shortlisted_leads w' = shortlisted_leads w
    /\ next_id w' = next_id w
    /\ (holds_applicant (root_id applicant_record) w = false ->
        truthy (get (root_fields applicant_record) "LLM Score") = false ->
        (forall n, exists text llm,
           gen n d = Ok text /\ parse_llm_response text = Ok llm
           /\ nonempty llm = true) ->
        trace w'
        = (trace w ++ [Generated; Slept 1; Generated; Slept 2; Generated])%list
        /\ applicants w' = applicants w).
Proof.
  intros gen applicant_record d w w'.
  destruct (evaluate_with_llm_events gen applicant_record d w)
    as (H & Hp & He & Hs & Hl & Hn).
  do 6 (split; [done|]).
  intros Hh Hscore Hgen. unfold w'.
  rewrite (evaluate_with_llm_refused _ _ _ _ Hh Hscore Hgen). simpl.
  split; [by rewrite <- !app_assoc|done].
Qed.

Lemma evaluate_with_llm_effects_witness :
  holds_applicant (root_id applicant_4) empty_world = false
  /\ truthy (get (root_fields applicant_4) "LLM Score") = false
  /\ (forall n, exists text llm,
        answering_service n passing_document = Ok text
        /\ parse_llm_response text = Ok llm /\ nonempty llm = true)
  /\ trace (evaluate_with_llm answering_service applicant_4 passing_document
              empty_world)
     = [Generated; Slept 1; Generated; Slept 2; Generated].
Proof.
  assert (holds_applicant (root_id applicant_4) empty_world = false) as Hh
    by reflexivity.
  assert (truthy (get (root_fields applicant_4) "LLM Score") = false) as Hs
    by reflexivity.
  assert (forall n, exists text llm,
            answering_service n passing_document = Ok text
            /\ parse_llm_response text = Ok llm /\ nonempty llm = true) as Hg.
  { intros n. exists "Score: 7", {[ "LLM Score" := VInt 7 ]}.
    split; [reflexivity|]. split; vm_compute; reflexivity. }
  split; [exact Hh|]. split; [exact Hs|]. split; [exact Hg|].
  exact (proj1 (proj2 (proj2 (proj2 (proj2 (proj2 (proj2
           (evaluate_with_llm_effects answering_service applicant_4
              passing_document empty_world)))))) Hh Hs Hg)).
Defined.

(** X5. When the record has no score yet and the first answer of the service
    carries no label, the evaluation ends there: one call, no sleep, no
    retry, and nothing written. *)
Theorem evaluate_with_llm_no_fields :
  forall (gen : service) applicant_record d w text,
    truthy (get (root_fields applicant_record) "LLM Score") = false ->
    gen (generated w) d = Ok text ->
    forallb (fun line => unlabelled line || is_passed_over line) (lines_of text)
    = true ->
    evaluate_with_llm gen applicant_record d w = log Generated w.
Proof.
  intros gen applicant_record d w text Hscore Hgen Hlines.
  unfold evaluate_with_llm. rewrite Hscore.
  cbn [seq max_retries llm_attempts]. unfold attempt_once, ask.
  rewrite Hgen. simpl.
  by rewrite (parse_no_label _ Hlines).
Qed.

Lemma evaluate_with_llm_no_fields_witness :
  truthy (get (root_fields applicant_4) "LLM Score") = false
  /\ (fun (_ : nat) (_ : compressed) => Ok "No opinion.") (generated empty_world)
       passing_document = Ok "No opinion."
  /\ forallb (fun line => unlabelled line || is_passed_over line)
       (lines_of "No opinion.") = true
  /\ evaluate_with_llm (fun _ _ => Ok "No opinion.") applicant_4 passing_document
       empty_world = log Generated empty_world.
Proof.
  split; [reflexivity|]. split; [reflexivity|]. split; [reflexivity|].
  apply (evaluate_with_llm_no_fields (fun _ _ => Ok "No opinion.") applicant_4
           passing_document empty_world "No opinion."); reflexivity.
Defined.

(** X6. Whatever the generation service answers, the evaluation changes no
    root record but in its three LLM fields: the record identifiers, the
    [Compressed JSON] and every other field (the applicant identifier among
    them) are as they were. *)
Theorem evaluate_with_llm_keeps_roots :
  forall (gen : service) applicant_record d w,
    let w' := evaluate_with_llm gen applicant_record d w in
    root_id <$> applicants w' = root_id <$> applicants w
    /\ compressed_json <$> applicants w' = compressed_json <$> applicants w
    /\ forall k, ~ is_llm_key k ->
         (fun a => root_fields a !! k) <$> applicants w'
         = (fun a => root_fields a !! k) <$> applicants w.
Proof.
  intros gen applicant_record d w w'. subst w'.
  unfold evaluate_with_llm. destruct (truthy _); [done|].
  destruct (llm_attempts_tables gen applicant_record d (seq 0 max_retries) w)
    as (_ & _ & _ & [-> | (text & llm & Hparse & ->)]); [done|].
  rewrite <- !list_fmap_compose.
  split; [|split].
  - apply list_fmap_ext. intros _ a _. simpl. by destruct (String.eqb _ _).
  - apply list_fmap_ext. intros _ a _. simpl. by destruct (String.eqb _ _).
  - intros k Hk. rewrite <- list_fmap_compose.
    apply list_fmap_ext. intros _ a _. simpl.
    destruct (String.eqb _ _); [|done]. simpl.
    apply lookup_union_r. apply (parse_other text); [done|..];
      intros ->; apply Hk; unfold is_llm_key; auto.
Qed.

(** ** Shortlisting: exceptions *)

Lemma any_tier_1_raises (jobs : list fields) (e : exn) :
  any_tier_1 jobs = Raise e -> e = AttributeError.
Proof.
  induction jobs as [|job rest IH]; simpl; [discriminate|].
  destruct (get_or job "Company" (VStr "")); simpl; try (by intros [= <-]).
  destruct (is_tier_1 _); [discriminate|exact IH].
Qed.

Lemma not_none_and_raises (v bound : value) (flip : bool) (e : exn) :
  not_none_and v (if flip then py_ge v bound else py_le v bound) = Raise e ->
  e = TypeError.
Proof.
  unfold py_ge, py_le. destruct v; simpl; [discriminate|..];
    destruct flip; destruct (as_number bound); simpl; intros [=]; done.
Qed.

Lemma not_none_and_number (v bound : value) (flip : bool) (x y : pyfloat) :
  as_number v = Some x -> as_number bound = Some y ->
  exists b, not_none_and v (if flip then py_ge v bound else py_le v bound) = Ok b.
Proof.
  intros Hx Hy. unfold py_ge, py_le.
  destruct v; simpl in Hx; try discriminate; simpl;
    destruct flip; rewrite Hy; eexists; reflexivity.
Qed.

Lemma not_none_and_typed (o : option value) (dflt bound : value) (flip : bool) :
  number_or_null o -> is_Some (as_number dflt) -> is_Some (as_number bound) ->
  let v := default dflt o in
  exists b, not_none_and v (if flip then py_ge v bound else py_le v bound) = Ok b.
Proof.
  intros Ho [x Hx] [y Hy] v. subst v.
  destruct o as [v|]; simpl.
  - assert (v = VNull \/ is_Some (as_number v)) as [->|[z Hz]].
    { destruct v; auto. }
    + by exists false.
    + by apply (not_none_and_number _ _ _ z y).
  - by apply (not_none_and_number _ _ _ x y).
Qed.

(** X7. The shortlist decision raises nothing but [AttributeError] (a company
    or a location that is not a text) and [TypeError] (a rate or an
    availability that is neither null nor a number); on a document typed as
    the store types its fields it always returns. *)
Theorem shortlist_decision_exceptions :
  forall now d,
    (forall e, shortlist_decision now d = Raise e ->
               e = AttributeError \/ e = TypeError)
    /\ (well_typed_document d -> exists decision, shortlist_decision now d = Ok decision).
Proof.
  intros now d. unfold shortlist_decision.
  rewrite experience_years_ok. simpl.
  split.
  - intros e.
    destruct (any_tier_1 (experience d)) as [t|e1] eqn:Et; simpl.
    2:{ intros [= <-]. left. by apply (any_tier_1_raises _ _ Et). }
    destruct (not_none_and _ (py_le _ _)) as [r|e1] eqn:Er; simpl.
    2:{ intros [= <-]. right.
        by apply (not_none_and_raises _ (VInt 100) false _ Er). }
    destruct (if r then _ else _) as [c|e1] eqn:Ec; simpl.
    2:{ intros [= <-]. right. destruct r; [|discriminate].
        by apply (not_none_and_raises _ (VInt 20) true _ Ec). }
    destruct (py_lower _) as [loc|e1] eqn:El; simpl.
    2:{ intros [= <-]. left. unfold py_lower in El.
        destruct (get_or (personal d) "Location" (VStr "")); by simplify_eq. }
    destruct (_ && _); discriminate.
  - intros (Hc & Hr & Ha & Hl).
    rewrite (any_tier_1_text _ Hc). simpl.
    destruct (not_none_and_typed _ (VFloat PosInf) (VInt 100) false Hr
                ltac:(by eexists) ltac:(by eexists)) as [r Er].
    unfold get_or. simpl in Er. rewrite Er. simpl.
    destruct (not_none_and_typed _ (VInt 0) (VInt 20) true Ha
                ltac:(by eexists) ltac:(by eexists)) as [c Ec].
    simpl in Ec.
    assert (exists c', (if r then not_none_and
                          (default (VInt 0) (salary d !! "Availability (hrs/wk)"))
                          (py_ge (default (VInt 0)
                                    (salary d !! "Availability (hrs/wk)"))
                             (VInt 20))
                        else Ok false) = Ok c') as [c' ->].
    { destruct r; [by exists c|by exists false]. }
    simpl. unfold text_or_absent in Hl.
    destruct (personal d !! "Location") as [[]|]; simpl; try done;
      destruct (_ && _); by eexists.
Qed.

Lemma shortlist_decision_exceptions_witness :
  well_typed_document passing_document
  /\ exists decision,
       shortlist_decision (mkdate 2023 6 1) passing_document = Ok decision.
Proof.
  assert (well_typed_document passing_document) as H.
  { split; [repeat constructor|].
    split; [by exists (Finite (inject_Z 80))|].
    split; [by exists (Finite (inject_Z 25))|exact I]. }
  split; [exact H|].
  apply (proj2 (shortlist_decision_exceptions (mkdate 2023 6 1) passing_document) H).
Defined.

(** ** The orchestrator *)

Lemma compress_unfold now gen applicant_id w a :
  first (has_applicant_id applicant_id) (applicants w) = Some a ->
  compress_evaluate_enrich now gen applicant_id w
  = let final_json := build_json applicant_id w in
    let w0 := update_compressed_json (root_id a) final_json w in
    match evaluate_shortlisting now a final_json w0 with
    | Ok w2 => evaluate_with_llm gen a final_json w2
    | Raise _ => w0
    end.
Proof. intros H. unfold compress_evaluate_enrich. by rewrite H. Qed.

Lemma build_json_same applicant_id w w' :
  personal_details w' = personal_details w ->
  work_experience w' = work_experience w ->
  salary_preferences w' = salary_preferences w ->
  (forall r, linked_to (applicants w') applicant_id r
             = linked_to (applicants w) applicant_id r) ->
  build_json applicant_id w' = build_json applicant_id w.
Proof.
  intros Hp He Hs Hl. unfold build_json, first, all. rewrite Hp, He, Hs.
  by rewrite !(find_ext _ _ _ Hl), (filter_ext _ _ Hl).
Qed.

Lemma compress_found now gen applicant_id w a :
  first (has_applicant_id applicant_id) (applicants w) = Some a ->
  let w' := compress_evaluate_enrich now gen applicant_id w in
  exists llm,
    applicants w'
    = enriched (root_id a) (build_json applicant_id w) llm <$> applicants w
    /\ first (has_applicant_id applicant_id) (applicants w')
       = Some (enriched (root_id a) (build_json applicant_id w) llm a)
    /\ build_json applicant_id w' = build_json applicant_id w.
Proof.
  intros Hfind w'.
  destruct (compress_tables now gen applicant_id w a Hfind)
    as (Hp & He & Hs & llm & Hllm & Ha).
  fold w' in Hp, He, Hs, Ha.
  exists llm. split; [done|]. split.
  - rewrite Ha. unfold first.
    rewrite find_fmap by (intros x; by apply has_applicant_id_enriched).
    fold (first (has_applicant_id applicant_id) (applicants w)).
    by rewrite Hfind.
  - apply build_json_same; try done.
    intros r. rewrite Ha. by apply linked_to_enriched.
Qed.

(** X8. A run of the orchestrator for an applicant that is not in the store
    changes nothing.  For one that is, whatever the clock and the generation
    service do, the dependent tables are left as they were and the root
    record holds, when the run ends, the document built from them; the
    document carries no back-reference, and a second run would build the same
    one. *)
Theorem compress_persists :
  forall now gen applicant_id w,
    let w' := compress_evaluate_enrich now gen applicant_id w in
    (first (has_applicant_id applicant_id) (applicants w) = None -> w' = w)
    /\ (forall a,
          first (has_applicant_id applicant_id) (applicants w) = Some a ->
          personal_details w' = personal_details w
          /\ work_experience w' = work_experience w
          /\ salary_preferences w' = salary_preferences w
          /\ build_json applicant_id w' = build_json applicant_id w
          /\ exists a',
               first (has_applicant_id applicant_id) (applicants w') = Some a'
               /\ root_id a' = root_id a
               /\ compressed_json a'
                  = Some (Document (build_json applicant_id w)))
    /\ personal (build_json applicant_id w) !! "Applicant" = None
    /\ salary (build_json applicant_id w) !! "Applicant" = None
    /\ Forall (fun e => e !! "Applicant" = None)
         (experience (build_json applicant_id w)).
Proof.
  intros now gen applicant_id w w'. split; [|split].
  - intros H. subst w'. unfold compress_evaluate_enrich. by rewrite H.
  - intros a Hfind.
    destruct (compress_tables now gen applicant_id w a Hfind)
      as (Hp & He & Hs & _).
    destruct (compress_found now gen applicant_id w a Hfind)
      as (llm & _ & Hf & Hb).
    fold w' in Hp, He, Hs, Hf, Hb.
    do 4 (split; [done|]).
    eexists. split; [exact Hf|]. split; [apply root_id_enriched|].
    unfold enriched. by rewrite String.eqb_refl.
  - unfold build_json, section_of. simpl.
    split; [apply lookup_delete_eq|]. split; [apply lookup_delete_eq|].
    apply Forall_fmap, Forall_forall. intros r _. apply lookup_delete_eq.
Qed.

Lemma compress_persists_witness :
  first (has_applicant_id "4") (applicants edited_world)
  = Some (mkroot "recA" {[ "Applicant ID" := VStr "4" ]}
            (Some (Document (mkdoc {[ "Location" := VStr "India" ]}
                               example_experience ∅))))
  /\ work_experience
       (compress_evaluate_enrich (mkdate 2023 6 1) failing_service "4"
          edited_world)
     = work_experience edited_world.
Proof.
  split; [reflexivity|].
  apply (proj1 (proj2 (compress_persists (mkdate 2023 6 1) failing_service "4"
                         edited_world)) _ eq_refl).
Defined.

(** The leads after a run: those before, and the lead of the run. *)
Lemma compress_leads now gen applicant_id w a :
  first (has_applicant_id applicant_id) (applicants w) = Some a ->
  shortlisted_leads (compress_evaluate_enrich now gen applicant_id w)
  = (shortlisted_leads w ++ lead_of_run now applicant_id a w)%list.
Proof.
  intros Hfind. rewrite (compress_unfold _ _ _ _ _ Hfind). simpl.
  unfold evaluate_shortlisting, lead_of_run.
  destruct (shortlist_decision now (build_json applicant_id w))
    as [[reason|]|e]; simpl.
  - by destruct (evaluate_with_llm_trace gen a (build_json applicant_id w)
                   (create_lead [root_id a] (build_json applicant_id w) reason
                      (update_compressed_json (root_id a)
                         (build_json applicant_id w) w)))
      as (_ & _ & _ & _ & -> & _).
  - destruct (evaluate_with_llm_trace gen a (build_json applicant_id w)
                (update_compressed_json (root_id a)
                   (build_json applicant_id w) w))
      as (_ & _ & _ & _ & -> & _).
    simpl. by rewrite app_nil_r.
  - simpl. by rewrite app_nil_r.
Qed.

(** The events of a run. *)
Lemma compress_trace now gen applicant_id w a :
  first (has_applicant_id applicant_id) (applicants w) = Some a ->
  let w' := compress_evaluate_enrich now gen applicant_id w in
  exists lead k wrote,
    trace w'
    = (trace w ++ [Updated Applicants (root_id a)] ++ lead
         ++ backoff_trace k ++ wrote)%list
    /\ (lead = [] \/ lead = [Created Leads 1])
    /\ (k <= 3)%nat
    /\ (wrote = [] \/ wrote = [Updated Applicants (root_id a)] /\ (1 <= k)%nat)
    /\ ((exists e, shortlist_decision now (build_json applicant_id w) = Raise e) ->
        lead = [] /\ k = 0%nat /\ wrote = [])
    /\ (truthy (get (root_fields a) "LLM Score") = true ->
        k = 0%nat /\ wrote = []).
Proof.
  intros Hfind w'. subst w'. rewrite (compress_unfold _ _ _ _ _ Hfind).
  cbv zeta.
  set (final_json := build_json applicant_id w).
  set (w0 := update_compressed_json (root_id a) final_json w).
  assert (trace w0 = (trace w ++ [Updated Applicants (root_id a)])%list) as H0
    by reflexivity.
  unfold evaluate_shortlisting.
  destruct (shortlist_decision now final_json) as [decision|e] eqn:Ed;
    unfold mbind, result_bind.
  2:{ exists [], 0%nat, []. rewrite H0. simpl.
      repeat split; auto. }
  set (w2 := match decision with
             | Some reason => create_lead [root_id a] final_json reason w0
             | None => w0
             end).
  set (lead := match decision with
               | Some _ => [Created Leads 1]
               | None => []
               end).
  assert (trace w2 = (trace w0 ++ lead)%list) as H2.
  { unfold w2, lead. destruct decision; simpl; by rewrite ?app_nil_r. }
  assert (lead = [] \/ lead = [Created Leads 1]) as Hlead.
  { unfold lead. destruct decision; auto. }
  assert ((exists e, Ok decision = Raise e) -> False) as Hno.
  { by intros [e He]. }
  replace (match decision with
           | Some reason => Ok (create_lead [root_id a] final_json reason w0)
           | None => Ok w0
           end) with (Ok w2) by (unfold w2; by destruct decision).
  clearbody w2 lead w0.
  destruct (truthy (get (root_fields a) "LLM Score")) eqn:Hscore.
  - exists lead, 0%nat, [].
    unfold evaluate_with_llm. rewrite Hscore, H2, H0. simpl.
    rewrite app_nil_r, <- !app_assoc. simpl.
    split; [done|]. split; [done|]. split; [lia|]. split; [auto|].
    split; [by intros ?%Hno|done].
  - destruct (evaluate_with_llm_trace gen a final_json w2)
      as ((k & wrote & Hk & Ht & _ & Hw) & _).
    exists lead, k, wrote. rewrite Ht, H2, H0, <- !app_assoc. simpl.
    split; [done|]. split; [done|]. split; [done|]. split; [done|].
    split; [by intros ?%Hno|discriminate].
Qed.

(** X9. A run for an applicant in the store first writes the compressed JSON
    to the root record, then creates at most one lead, then calls the
    generation service at most three times (with the sleeps of the backoff)
    and writes at most once more to the root record.  When the shortlist
    evaluation raises, the run stops after the first write: no lead, no call.
    When the record already has a truthy score, no call is made. *)
Theorem compress_effects :
  forall now gen applicant_id w a,
    first (has_applicant_id applicant_id) (applicants w) = Some a ->
    let w' := compress_evaluate_enrich now gen applicant_id w in
    exists lead k wrote,
      trace w'
      = (trace w ++ [Updated Applicants (root_id a)] ++ lead
           ++ backoff_trace k ++ wrote)%list
      /\ (lead = [] \/ lead = [Created Leads 1])
      /\ (k <= 3)%nat
      /\ (wrote = [] \/ wrote = [Updated Applicants (root_id a)] /\ (1 <= k)%nat)
      /\ ((exists e, shortlist_decision now (build_json applicant_id w) = Raise e) ->
          lead = [] /\ k = 0%nat /\ wrote = [])
      /\ (truthy (get (root_fields a) "LLM Score") = true ->
          k = 0%nat /\ wrote = []).
Proof. exact compress_trace. Qed.

Lemma compress_effects_witness :
  first (has_applicant_id "4") (applicants edited_world)
  = Some (mkroot "recA" {[ "Applicant ID" := VStr "4" ]}
            (Some (Document (mkdoc {[ "Location" := VStr "India" ]}
                               example_experience ∅))))
  /\ exists lead k wrote,
       trace (compress_evaluate_enrich (mkdate 2023 6 1) failing_service "4"
                edited_world)
       = (trace edited_world ++ [Updated Applicants "recA"] ++ lead
            ++ backoff_trace k ++ wrote)%list.
Proof.
  split; [reflexivity|].
  destruct (compress_effects (mkdate 2023 6 1) failing_service "4" edited_world
              _ eq_refl) as (lead & k & wrote & H & _).
  exists lead, k, wrote. exact H.
Defined.

(** X10. The orchestrator does not look for a lead it made before: when the
    shortlist decision accepts the applicant's document at the dates of two
    runs, the two runs leave two leads, each for the same root record, with
    the same document and the reason of its run. *)
Theorem compress_twice_two_leads :
  forall now now' gen gen' applicant_id w a r1 r2,
    first (has_applicant_id applicant_id) (applicants w) = Some a ->
    shortlist_decision now (build_json applicant_id w) = Ok (Some r1) ->
    shortlist_decision now' (build_json applicant_id w) = Ok (Some r2) ->
    exists l1 l2,
      shortlisted_leads
        (compress_evaluate_enrich now' gen' applicant_id
           (compress_evaluate_enrich now gen applicant_id w))
      = (shortlisted_leads w ++ [l1; l2])%list
      /\ lead_applicant l1 = [root_id a] /\ lead_applicant l2 = [root_id a]
      /\ lead_json l1 = build_json applicant_id w
      /\ lead_json l2 = build_json applicant_id w
      /\ lead_reason l1 = r1 /\ lead_reason l2 = r2.
Proof.
  intros now now' gen gen' applicant_id w a r1 r2 Hfind Hpass Hpass'.
  set (w1 := compress_evaluate_enrich now gen applicant_id w).
  destruct (compress_found now gen applicant_id w a Hfind) as (llm & _ & Hf1 & Hb1).
  fold w1 in Hf1, Hb1.
  rewrite (compress_leads now' gen' applicant_id w1 _ Hf1).
  unfold w1 at 1. rewrite (compress_leads now gen applicant_id w a Hfind).
  unfold lead_of_run. rewrite Hb1, root_id_enriched, Hpass, Hpass'.
  do 2 eexists. rewrite <- app_assoc. simpl. split; [reflexivity|]. done.
Qed.

Lemma compress_twice_two_leads_witness :
  first (has_applicant_id "4") (applicants shortlisted_world) = Some applicant_4
  /\ shortlist_decision (mkdate 2023 6 1) (build_json "4" shortlisted_world)
     = Ok (Some (mkreason (inject_Z 48 / 12)%Q true (VInt 80) (VInt 25)
                   (VStr "United States")))
  /\ shortlist_decision (mkdate 2023 7 1) (build_json "4" shortlisted_world)
     = Ok (Some (mkreason (inject_Z 49 / 12)%Q true (VInt 80) (VInt 25)
                   (VStr "United States")))
  /\ exists l1 l2,
       shortlisted_leads
         (compress_evaluate_enrich (mkdate 2023 7 1) failing_service "4"
            (compress_evaluate_enrich (mkdate 2023 6 1) failing_service "4"
               shortlisted_world))
       = (shortlisted_leads shortlisted_world ++ [l1; l2])%list.
Proof.
  assert (first (has_applicant_id "4") (applicants shortlisted_world)
          = Some applicant_4) as Hfind by (vm_compute; reflexivity).
  assert (shortlist_decision (mkdate 2023 6 1) (build_json "4" shortlisted_world)
          = Ok (Some (mkreason (inject_Z 48 / 12)%Q true (VInt 80) (VInt 25)
                        (VStr "United States")))) as H1
    by (vm_compute; reflexivity).
  assert (shortlist_decision (mkdate 2023 7 1) (build_json "4" shortlisted_world)
          = Ok (Some (mkreason (inject_Z 49 / 12)%Q true (VInt 80) (VInt 25)
                        (VStr "United States")))) as H2
    by (vm_compute; reflexivity).
  split; [exact Hfind|]. split; [exact H1|]. split; [exact H2|].
  destruct (compress_twice_two_leads (mkdate 2023 6 1) (mkdate 2023 7 1)
              failing_service failing_service "4" shortlisted_world applicant_4
              _ _ Hfind H1 H2) as (l1 & l2 & Hl & _).
  by exists l1, l2.
Defined.

Lemma nonempty_lookup (d : fields) (k : string) (v : value) :
  d !! k = Some v -> nonempty d = true.
Proof.
  intros H. unfold nonempty. apply negb_true_iff, bool_decide_eq_false.
  intros Hs. apply map_size_empty_iff in Hs. subst d.
  by rewrite lookup_empty in H.
Qed.

Lemma generated_trace (w w' : world) (es : list event) :
  trace w' = (trace w ++ es)%list ->
  generated w' = (generated w + length (List.filter is_generated es))%nat.
Proof.
  intros H. unfold generated. by rewrite H, List.filter_app, length_app.
Qed.

(** X11. An enrichment is made once: when a run reaches the generation
    service and its first answer carries a score that is not zero, the run
    makes that one call and writes the score, and no later run for the
    applicant, whatever its clock and service, calls the service again. *)
Theorem compress_enriches_once :
  forall now gen applicant_id w a text llm n,
    first (has_applicant_id applicant_id) (applicants w) = Some a ->
    truthy (get (root_fields a) "LLM Score") = false ->
    (exists decision,
       shortlist_decision now (build_json applicant_id w) = Ok decision) ->
    gen (generated w) (build_json applicant_id w) = Ok text ->
    parse_llm_response text = Ok llm ->
    llm !! "LLM Score" = Some (VInt n) ->
    n <> 0 ->
    let w1 := compress_evaluate_enrich now gen applicant_id w in
    generated w1 = (generated w + 1)%nat
    /\ (exists a1,
          first (has_applicant_id applicant_id) (applicants w1) = Some a1
          /\ root_fields a1 !! "LLM Score" = Some (VInt n))
    /\ forall now' gen',
         generated (compress_evaluate_enrich now' gen' applicant_id w1)
         = generated w1.
Proof.
  intros now gen applicant_id w a text llm n Hfind Hscore [decision Hd] Hgen
    Hparse Hn Hn0 w1.
  set (final_json := build_json applicant_id w) in *.
  set (w0 := update_compressed_json (root_id a) final_json w).
  set (w2 := match decision with
             | Some reason => create_lead [root_id a] final_json reason w0
             | None => w0
             end).
  assert (holds_applicant (root_id a) (log Generated w2) = true) as Hheld.
  { rewrite holds_applicant_log.
    rewrite (holds_applicant_ids _ w); [by apply (holds_applicant_found applicant_id)|].
    assert (applicants w2 = applicants w0) as -> by (unfold w2; by destruct decision).
    unfold w0, update_compressed_json. simpl.
    rewrite <- list_fmap_compose. apply list_fmap_ext. intros _ r _. simpl.
    by destruct (String.eqb _ _). }
  assert (w1 = write_applicant (root_id a) llm (log Generated w2)) as Hw1.
  { unfold w1. rewrite (compress_unfold _ _ _ _ _ Hfind). cbv zeta.
    fold final_json. fold w0. unfold evaluate_shortlisting. rewrite Hd.
    unfold mbind, result_bind.
    replace (match decision with
             | Some reason => Ok (create_lead [root_id a] final_json reason w0)
             | None => Ok w0
             end) with (Ok w2) by (unfold w2; by destruct decision).
    unfold evaluate_with_llm. rewrite Hscore.
    cbn [seq max_retries llm_attempts]. unfold attempt_once, ask.
    assert (generated w2 = generated w) as ->.
    { unfold w2. destruct decision; unfold generated; simpl;
        rewrite ?List.filter_app, ?length_app; simpl; lia. }
    rewrite Hgen. unfold mbind, result_bind. rewrite Hparse.
    rewrite (nonempty_lookup _ _ _ Hn). unfold update_applicant.
    by rewrite Hheld. }
  assert (applicants w1 = enriched (root_id a) final_json llm <$> applicants w)
    as Ha1.
  { rewrite Hw1. unfold write_applicant, w2. simpl.
    assert (applicants (match decision with
                        | Some reason =>
                            create_lead [root_id a] final_json reason w0
                        | None => w0
                        end) = applicants w0) as -> by (by destruct decision).
    unfold w0, update_compressed_json. simpl.
    rewrite <- list_fmap_compose. apply list_fmap_ext. intros _ r _.
    unfold enriched. simpl.
    destruct (String.eqb (root_id r) (root_id a)) eqn:E; simpl; by rewrite E. }
  assert (llm !! "Applicant ID" = None) as Hllm by (by apply (parse_other text)).
  assert (first (has_applicant_id applicant_id) (applicants w1)
          = Some (enriched (root_id a) final_json llm a)) as Hf1.
  { rewrite Ha1. unfold first.
    rewrite find_fmap by (intros x; by apply has_applicant_id_enriched).
    fold (first (has_applicant_id applicant_id) (applicants w)).
    by rewrite Hfind. }
  assert (root_fields (enriched (root_id a) final_json llm a) !! "LLM Score"
          = Some (VInt n)) as Hs1.
  { unfold enriched. rewrite String.eqb_refl. simpl.
    by apply lookup_union_Some_l. }
  split.
  { rewrite Hw1. rewrite generated_write_applicant, generated_log. simpl.
    unfold w2. destruct decision; unfold generated; simpl;
      rewrite ?List.filter_app, ?length_app; simpl; lia. }
  split; [eauto|].
  intros now' gen'.
  destruct (compress_trace now' gen' applicant_id w1 _ Hf1)
    as (lead & k & wrote & Ht & Hlead & _ & _ & _ & Hk).
  destruct Hk as [-> ->].
  { unfold get. rewrite Hs1. simpl. apply negb_true_iff. by apply Z.eqb_neq. }
  rewrite (generated_trace _ _ _ Ht).
  destruct Hlead as [-> | ->]; simpl; lia.
Qed.

Lemma compress_enriches_once_witness :
  first (has_applicant_id "4") (applicants shortlisted_world) = Some applicant_4
  /\ truthy (get (root_fields applicant_4) "LLM Score") = false
  /\ (exists decision,
        shortlist_decision (mkdate 2023 6 1) (build_json "4" shortlisted_world)
        = Ok decision)
  /\ answering_service (generated shortlisted_world)
       (build_json "4" shortlisted_world) = Ok "Score: 7"
  /\ parse_llm_response "Score: 7" = Ok {[ "LLM Score" := VInt 7 ]}
  /\ generated
       (compress_evaluate_enrich (mkdate 2023 6 1) answering_service "4"
          shortlisted_world)
     = (generated shortlisted_world + 1)%nat.
Proof.
  assert (first (has_applicant_id "4") (applicants shortlisted_world)
          = Some applicant_4) as Hfind by (vm_compute; reflexivity).
  assert (truthy (get (root_fields applicant_4) "LLM Score") = false)
    as Hscore by (vm_compute; reflexivity).
  assert (exists decision,
            shortlist_decision (mkdate 2023 6 1) (build_json "4" shortlisted_world)
            = Ok decision) as Hd.
  { eexists. vm_compute. reflexivity. }
  assert (answering_service (generated shortlisted_world)
            (build_json "4" shortlisted_world) = Ok "Score: 7") as Hgen
    by reflexivity.
  assert (parse_llm_response "Score: 7" = Ok {[ "LLM Score" := VInt 7 ]})
    as Hparse by (vm_compute; reflexivity).
  assert (({[ "LLM Score" := VInt 7 ]} : fields) !! "LLM Score" = Some (VInt 7))
    as Hn by (vm_compute; reflexivity).
  assert (7 <> 0) as Hn0 by discriminate.
  do 5 (split; [assumption|]).
  exact (proj1 (compress_enriches_once (mkdate 2023 6 1) answering_service "4"
                  shortlisted_world applicant_4 "Score: 7"
                  {[ "LLM Score" := VInt 7 ]} 7
                  Hfind Hscore Hd Hgen Hparse Hn Hn0)).
Defined.

(** ** The decompressor: what it leaves alone, what it keeps *)

Lemma same_id_same_record (t : list record) (x y : record) :
  unique_ids t -> In x t -> In y t -> rec_id x = rec_id y -> x = y.
Proof.
  unfold unique_ids. induction t as [|z t IH]; simpl; [done|].
  intros [Hz Ht]%NoDup_cons [->|Hx] [->|Hy] Hid; auto.
  - exfalso. apply Hz. rewrite Hid. apply list_elem_of_fmap.
    exists y. split; [done|]. by apply list_elem_of_In.
  - exfalso. apply Hz. rewrite <- Hid. apply list_elem_of_fmap.
    exists x. split; [done|]. by apply list_elem_of_In.
Qed.

Lemma find_none_filter {A} (p : A -> bool) (l : list A) :
  List.find p l = None -> List.filter p l = [].
Proof.
  induction l as [|x l IH]; simpl; [done|].
  destruct (p x); [discriminate|exact IH].
Qed.

Lemma find_some_filter {A} (p : A -> bool) (l : list A) (x : A) :
  List.find p l = Some x -> List.filter p l <> [].
Proof.
  induction l as [|y l IH]; simpl; [discriminate|].
  destruct (p y); [discriminate|exact IH].
Qed.

Section Others.

Variable mine : record -> bool.
Variable data : fields.
Hypothesis mine_data : forall i f, mine (mkrec i (data ∪ f)) = true.

(** An update of a record of the applicant changes no record of the others,
    and makes no record more of the applicant. *)
Lemma update_rows_others (t : list record) (r : record) :
  unique_ids t -> In r t -> mine r = true ->
  List.filter (fun x => negb (mine x)) (update_rows (rec_id r) data t)
  = List.filter (fun x => negb (mine x)) t
  /\ length (List.filter mine (update_rows (rec_id r) data t))
     = length (List.filter mine t).
Proof.
  intros Hu Hin Hr. unfold update_rows.
  assert (forall x, In x t ->
            mine (if String.eqb (rec_id x) (rec_id r)
                  then mkrec (rec_id x) (data ∪ rec_fields x) else x) = mine x
            /\ (mine x = false ->
                (if String.eqb (rec_id x) (rec_id r)
                 then mkrec (rec_id x) (data ∪ rec_fields x) else x) = x))
    as Hpt.
  { intros x Hx. destruct (String.eqb (rec_id x) (rec_id r)) eqn:E; [|done].
    apply String.eqb_eq in E.
    rewrite (same_id_same_record t x r Hu Hx Hin E), mine_data, Hr.
    split; [done|discriminate]. }
  clear Hu Hin Hr. induction t as [|x t IH]; [done|].
  destruct (Hpt x (or_introl eq_refl)) as [Hm Hx].
  destruct IH as [IH1 IH2]; [intros y Hy; apply Hpt; by right|].
  csimpl. rewrite Hm. destruct (mine x) eqn:Emx; simpl.
  - split; [exact IH1|by rewrite IH2].
  - rewrite (Hx eq_refl). split; [by rewrite IH1|exact IH2].
Qed.

Lemma upsert_rows_others (n : nat) (present : bool) (t : list record) :
  unique_ids t ->
  List.filter (fun x => negb (mine x)) (upsert_rows mine n data present t)
  = List.filter (fun x => negb (mine x)) t.
Proof.
  intros Hu. unfold upsert_rows, first. destruct present; [|done].
  destruct (List.find mine t) as [r|] eqn:E.
  - apply find_some in E as [Hin Hr]. by apply update_rows_others.
  - rewrite List.filter_app. simpl. rewrite (mine_new mine data mine_data).
    simpl. by rewrite app_nil_r.
Qed.

(** The upsert makes a record only when the applicant has none. *)
Lemma upsert_rows_count (n : nat) (present : bool) (t : list record) :
  unique_ids t ->
  length (List.filter mine (upsert_rows mine n data present t))
  = match List.filter mine t with
    | [] => if present then 1%nat else 0%nat
    | existing => length existing
    end.
Proof.
  intros Hu. unfold upsert_rows, first.
  destruct (List.find mine t) as [r|] eqn:E.
  - pose proof (find_some_filter _ _ _ E) as Hne.
    apply find_some in E as [Hin Hr].
    destruct present.
    + destruct (update_rows_others t r Hu Hin Hr) as [_ ->].
      by destruct (List.filter mine t).
    + by destruct (List.filter mine t).
  - rewrite (find_none_filter _ _ E). destruct present; [|by rewrite (find_none_filter _ _ E)].
    rewrite List.filter_app, (find_none_filter _ _ E). simpl.
    by rewrite (mine_new mine data mine_data).
Qed.

End Others.

Lemma sync_rows_others (mine : record -> bool) (n : nat) (data : list fields)
    (t : list record) :
  (forall i f, In f data -> mine (mkrec i f) = true) ->
  unique_ids t ->
  List.filter (fun x => negb (mine x)) (sync_rows mine n data t)
  = List.filter (fun x => negb (mine x)) t.
Proof.
  intros Hdata Hu.
  destruct (decide (data = [])) as [->|Hne]; [done|].
  rewrite (sync_rows_nonempty _ _ _ _ Hne), List.filter_app.
  rewrite (filter_nothing _ (new_records n data)).
  2:{ rewrite <- (all_new_records mine data Hdata n). unfold all.
      apply Forall_forall. intros x Hx.
      apply list_elem_of_In, filter_In in Hx as [_ Hx]. by rewrite Hx. }
  rewrite app_nil_r. unfold all.
  destruct (List.filter mine t) as [|e0 es] eqn:E; [done|]. rewrite <- E.
  clear E e0 es.
  assert (forall x, In x t -> mine x = false ->
            negb (existsb (String.eqb (rec_id x))
                    (rec_id <$> List.filter mine t)) = true) as Hkeep.
  { intros x Hx Hm. apply negb_true_iff.
    destruct (existsb _ _) eqn:Hex; [|done].
    apply existsb_exists in Hex as (i & Hi & Heq).
    apply String.eqb_eq in Heq. subst i.
    apply in_map_iff in Hi as (y & Hid & Hy).
    apply filter_In in Hy as [Hy Hmy].
    rewrite (same_id_same_record t x y Hu Hx Hy (eq_sym Hid)) in Hm.
    congruence. }
  revert Hkeep. generalize (rec_id <$> List.filter mine t). intros ids Hkeep.
  induction t as [|x t IH]; [done|].
  assert (List.filter (fun x => negb (mine x))
            (List.filter (fun r => negb (existsb (String.eqb (rec_id r)) ids)) t)
          = List.filter (fun x => negb (mine x)) t) as IH'.
  { apply IH; [by apply NoDup_cons in Hu as [_ Hu]|].
    intros y Hy. apply Hkeep. by right. }
  simpl. destruct (mine x) eqn:Emx; simpl.
  - destruct (negb (existsb (String.eqb (rec_id x)) ids));
      simpl; rewrite ?Emx; simpl; exact IH'.
  - rewrite (Hkeep x (or_introl eq_refl) Emx). simpl. rewrite Emx. simpl.
    by rewrite IH'.
Qed.

(** X12. On a store with unique record identifiers the decompressor touches
    nothing but the applicant's own records: the root table and the leads
    are as they were, and in each dependent table the records that are not
    linked to the applicant are the same, in the same order. *)
Theorem decompress_leaves_others :
  forall applicant_id w,
    (forall c, unique_ids (rows c w)) ->
    let w' := decompress_applicant_data applicant_id w in
    let others := fun r => negb (linked_to (applicants w) applicant_id r) in
    applicants w' = applicants w
    /\ shortlisted_leads w' = shortlisted_leads w
    /\ forall c, List.filter others (rows c w') = List.filter others (rows c w).
Proof.
  intros applicant_id w Hu w' others.
  destruct (first (has_applicant_id applicant_id) (applicants w)) as [a|] eqn:Hfind.
  2:{ assert (w' = w) as ->; [|done].
      apply decompress_nothing. intros a d Heq. by rewrite Hfind in Heq. }
  destruct (compressed_json a) as [[d|]|] eqn:Hjson.
  2,3: assert (w' = w) as ->; [|done];
       apply decompress_nothing; intros a' d' Heq; rewrite Hfind in Heq;
       injection Heq as <-; by rewrite Hjson.
  destruct (decompress_tables applicant_id w a d Hfind Hjson)
    as (n1 & n2 & _ & _ & Ha & Hl & Hp & He & Hs).
  fold w' in Ha, Hl, Hp, He, Hs.
  pose proof (linked_reattach _ _ _ Hfind) as Hmine.
  split; [done|]. split; [done|].
  intros c. destruct c; simpl.
  - rewrite Hp. apply upsert_rows_others; [intros i f; apply Hmine|apply (Hu ChildPersonal)].
  - rewrite He. apply sync_rows_others; [|apply (Hu ChildExperience)].
    intros i f. by apply linked_reattach_new.
  - rewrite Hs. apply upsert_rows_others; [intros i f; apply Hmine|apply (Hu ChildSalary)].
Qed.

Lemma unique_ids_edited_world : forall c, unique_ids (rows c edited_world).
Proof. intros c. apply wf_edited_world. Defined.

Lemma decompress_leaves_others_witness :
  (forall c, unique_ids (rows c edited_world))
  /\ applicants (decompress_applicant_data "4" edited_world)
     = applicants edited_world.
Proof.
  split; [exact unique_ids_edited_world|].
  apply (decompress_leaves_others "4" edited_world unique_ids_edited_world).
Defined.

(** X13. The decompressor keeps the one-to-one tables one-to-one: on a store
    with unique record identifiers it makes a personal (or salary) record
    only when the section is not empty and the applicant has none, and
    otherwise the applicant has as many as before; an applicant with at most
    one has at most one afterwards. *)
Theorem decompress_keeps_one_to_one :
  forall applicant_id w a d,
    first (has_applicant_id applicant_id) (applicants w) = Some a ->
    compressed_json a = Some (Document d) ->
    unique_ids (personal_details w) ->
    unique_ids (salary_preferences w) ->
    let w' := decompress_applicant_data applicant_id w in
    let mine := linked_to (applicants w) applicant_id in
    length (all mine (personal_details w'))
    = match all mine (personal_details w) with
      | [] => if nonempty (personal d) then 1%nat else 0%nat
      | existing => length existing
      end
    /\ length (all mine (salary_preferences w'))
       = match all mine (salary_preferences w) with
         | [] => if nonempty (salary d) then 1%nat else 0%nat
         | existing => length existing
         end
    /\ ((length (all mine (personal_details w)) <= 1)%nat ->
        (length (all mine (personal_details w')) <= 1)%nat)
    /\ ((length (all mine (salary_preferences w)) <= 1)%nat ->
        (length (all mine (salary_preferences w')) <= 1)%nat).
Proof.
  intros applicant_id w a d Hfind Hjson Hup Hus w' mine.
  destruct (decompress_tables applicant_id w a d Hfind Hjson)
    as (n1 & n2 & _ & _ & _ & _ & Hp & _ & Hs).
  fold w' mine in Hp, Hs.
  pose proof (linked_reattach _ _ _ Hfind) as Hmine. fold mine in Hmine.
  assert (length (all mine (personal_details w'))
          = match all mine (personal_details w) with
            | [] => if nonempty (personal d) then 1%nat else 0%nat
            | existing => length existing
            end) as H1.
  { rewrite Hp. unfold all. apply upsert_rows_count; [intros i f; apply Hmine|done]. }
  assert (length (all mine (salary_preferences w'))
          = match all mine (salary_preferences w) with
            | [] => if nonempty (salary d) then 1%nat else 0%nat
            | existing => length existing
            end) as H2.
  { rewrite Hs. unfold all. apply upsert_rows_count; [intros i f; apply Hmine|done]. }
  split; [exact H1|]. split; [exact H2|].
  split.
  - rewrite H1. destruct (all mine (personal_details w)); [|done].
    destruct (nonempty (personal d)); simpl; lia.
  - rewrite H2. destruct (all mine (salary_preferences w)); [|done].
    destruct (nonempty (salary d)); simpl; lia.
Qed.

Lemma decompress_keeps_one_to_one_witness :
  first (has_applicant_id "4") (applicants edited_world)
  = Some (mkroot "recA" {[ "Applicant ID" := VStr "4" ]}
            (Some (Document (mkdoc {[ "Location" := VStr "India" ]}
                               example_experience ∅))))
  /\ unique_ids (personal_details edited_world)
  /\ unique_ids (salary_preferences edited_world)
  /\ ((length (all (linked_to (applicants edited_world) "4")
                 (personal_details edited_world)) <= 1)%nat ->
      (length (all (linked_to (applicants edited_world) "4")
                 (personal_details (decompress_applicant_data "4" edited_world)))
       <= 1)%nat).
Proof.
  split; [reflexivity|].
  split; [apply (unique_ids_edited_world ChildPersonal)|].
  split; [apply (unique_ids_edited_world ChildSalary)|].
  apply (decompress_keeps_one_to_one "4" edited_world _ _ eq_refl eq_refl
           (unique_ids_edited_world ChildPersonal)
           (unique_ids_edited_world ChildSalary)).
Defined.

Lemma section_reattach (record_id : rid) (data old : fields) :
  delete "Applicant" (reattach record_id data ∪ old)
  = unlinked data ∪ delete "Applicant" old.
Proof.
  apply map_eq. intros k. unfold reattach.
  destruct (decide (k = "Applicant")) as [->|Hk].
  { rewrite lookup_delete_eq. symmetry. apply lookup_union_None. split.
    - rewrite lookup_unlinked. by case_decide; [|tauto].
    - apply lookup_delete_eq. }
  rewrite lookup_delete_ne by done.
  rewrite !lookup_union, lookup_unlinked, (lookup_delete_ne old) by done.
  destruct (decide (k = "Id")) as [->|Hi].
  { rewrite lookup_delete_eq. by case_decide; [|tauto]. }
  rewrite lookup_delete_ne, lookup_insert_ne by done.
  by case_decide; [tauto|].
Qed.

Lemma section_upsert (mine : record -> bool) (record_id : rid) (n : nat)
    (data : fields) (t : list record) :
  (forall i f, mine (mkrec i (reattach record_id data ∪ f)) = true) ->
  unique_ids t ->
  section_of (first mine (upsert_rows mine n (reattach record_id data)
                            (nonempty data) t))
  = unlinked data ∪ section_of (first mine t).
Proof.
  intros Hmine Hu. destruct (nonempty data) eqn:Hne.
  - unfold section_of at 1.
    rewrite (upsert_rows_first mine _ Hmine n t Hu). simpl.
    apply section_reattach.
  - rewrite (nonempty_false _ Hne). unfold upsert_rows, unlinked.
    by rewrite !delete_empty, (left_id_L ∅ (∪)).
Qed.

Lemma unlinked_new (record_id : rid) (data : fields) :
  delete "Applicant" (reattach record_id data) = unlinked data.
Proof.
  rewrite <- (right_id_L ∅ (∪) (reattach record_id data)), section_reattach.
  by rewrite delete_empty, (right_id_L ∅ (∪)).
Qed.

Lemma new_records_unlinked (record_id : rid) (data : list fields) : forall n,
  (fun exp => delete "Applicant" (rec_fields exp))
    <$> new_records n (reattach record_id <$> data)
  = unlinked <$> data.
Proof.
  induction data as [|f rest IH]; intros n; [done|].
  csimpl. by rewrite IH, unlinked_new.
Qed.

(** X14. What a decompression followed by a compression makes of the stored
    document, on a store with unique personal and salary identifiers: each
    one-to-one section is the edited one (without its [Id] and [Applicant]
    keys) laid over the section the records gave before, so a key taken out
    of the JSON comes back; an experience array that is not empty replaces
    the former one, an empty array leaves it.  The orchestrator then stores
    exactly this document, whatever the clock and the generation service. *)
Theorem decompress_then_compress :
  forall applicant_id w a d,
    first (has_applicant_id applicant_id) (applicants w) = Some a ->
    compressed_json a = Some (Document d) ->
    unique_ids (personal_details w) ->
    unique_ids (salary_preferences w) ->
    let before := build_json applicant_id w in
    let w1 := decompress_applicant_data applicant_id w in
    let after :=
      mkdoc (unlinked (personal d) ∪ personal before)
            (match experience d with
             | [] => experience before
             | _ => unlinked <$> experience d
             end)
            (unlinked (salary d) ∪ salary before) in
    build_json applicant_id w1 = after
    /\ (forall k, is_Some (personal before !! k) -> is_Some (personal after !! k))
    /\ (forall k, is_Some (salary before !! k) -> is_Some (salary after !! k))
    /\ forall now gen,
         exists a',
           first (has_applicant_id applicant_id)
             (applicants (compress_evaluate_enrich now gen applicant_id w1))
           = Some a'
           /\ compressed_json a' = Some (Document after).
Proof.
  intros applicant_id w a d Hfind Hjson Hup Hus before w1 after.
  destruct (decompress_tables applicant_id w a d Hfind Hjson)
    as (n1 & n2 & _ & _ & Ha & _ & Hp & He & Hs).
  fold w1 in Ha, Hp, He, Hs.
  pose proof (linked_reattach _ _ _ Hfind) as Hmine.
  assert (build_json applicant_id w1 = after) as Hdoc.
  { unfold build_json. rewrite Ha, Hp, He, Hs. unfold after, before, build_json.
    simpl. f_equal.
    - apply section_upsert; [|done]. intros i f. apply Hmine.
    - destruct (experience d) as [|e es] eqn:Ee; [done|].
      rewrite all_sync_rows; [| |done].
      2:{ intros i f. by apply linked_reattach_new. }
      apply new_records_unlinked.
    - apply section_upsert; [|done]. intros i f. apply Hmine. }
  split; [exact Hdoc|].
  split; [|split].
  - intros k [v Hv].
    change (personal after) with (unlinked (personal d) ∪ personal before).
    rewrite lookup_union, Hv.
    destruct (unlinked (personal d) !! k); by eexists.
  - intros k [v Hv].
    change (salary after) with (unlinked (salary d) ∪ salary before).
    rewrite lookup_union, Hv.
    destruct (unlinked (salary d) !! k); by eexists.
  - intros now gen.
    assert (first (has_applicant_id applicant_id) (applicants w1) = Some a) as Hfind1.
    { by rewrite Ha. }
    destruct (compress_found now gen applicant_id w1 a Hfind1)
      as (llm & _ & Hf & _).
    eexists. split; [exact Hf|].
    unfold enriched. by rewrite String.eqb_refl, Hdoc.
Qed.

Lemma decompress_then_compress_witness :
  first (has_applicant_id "4") (applicants edited_world)
  = Some (mkroot "recA" {[ "Applicant ID" := VStr "4" ]}
            (Some (Document (mkdoc {[ "Location" := VStr "India" ]}
                               example_experience ∅))))
  /\ unique_ids (personal_details edited_world)
  /\ unique_ids (salary_preferences edited_world)
  /\ build_json "4" (decompress_applicant_data "4" edited_world)
     = mkdoc (unlinked {[ "Location" := VStr "India" ]}
                ∪ personal (build_json "4" edited_world))
             (unlinked <$> example_experience)
             (unlinked ∅ ∪ salary (build_json "4" edited_world)).
Proof.
  split; [reflexivity|].
  split; [apply (unique_ids_edited_world ChildPersonal)|].
  split; [apply (unique_ids_edited_world ChildSalary)|].
  apply (decompress_then_compress "4" edited_world _ _ eq_refl eq_refl
           (unique_ids_edited_world ChildPersonal)
           (unique_ids_edited_world ChildSalary)).
Defined.

Lemma trace_upsert (c : child) applicant_id record_id data w :
  trace (upsert c applicant_id record_id data w)
  = (trace w ++ upsert_events c (linked_to (applicants w) applicant_id)
                  (rows c w) data)%list.
Proof.
  unfold upsert, upsert_events.
  destruct (nonempty data); [|by rewrite app_nil_r].
  destruct (first _ _); by destruct c.
Qed.

Lemma trace_sync_experience applicant_id record_id data w :
  trace (sync_experience applicant_id record_id data w)
  = (trace w ++ sync_events (linked_to (applicants w) applicant_id)
                  (work_experience w) data)%list.
Proof.
  unfold sync_experience, sync_events.
  destruct data as [|x data]; [by rewrite app_nil_r|].
  destruct (all _ _) as [|r rs]; simpl; rewrite ?length_fmap, <- ?app_assoc; done.
Qed.

Lemma upsert_events_child (c : child) mine t data :
  (length (upsert_events c mine t data) <= 1)%nat
  /\ forallb is_child_write (upsert_events c mine t data) = true.
Proof.
  unfold upsert_events. destruct (nonempty data); [|split; simpl; (lia || done)].
  destruct (first mine t); destruct c; split; simpl; (lia || done).
Qed.

Lemma sync_events_child mine t data :
  (length (sync_events mine t data) <= 2)%nat
  /\ forallb is_child_write (sync_events mine t data) = true.
Proof.
  unfold sync_events. destruct data; [split; simpl; (lia || done)|].
  destruct (all mine t); simpl; split; (lia || done).
Qed.

(** X15. The writes of a decompression, in order: at most one to the
    personal table, then at most a batch deletion and a batch creation in the
    experience table, then at most one to the salary table, each decided on
    the tables as they were before the run; never more than four, none to
    the root table or the leads, and none when the root record is missing
    or its JSON is missing or does not parse. *)
Theorem decompress_writes :
  forall applicant_id w,
    let mine := linked_to (applicants w) applicant_id in
    exists es,
      trace (decompress_applicant_data applicant_id w) = (trace w ++ es)%list
      /\ (length es <= 4)%nat
      /\ forallb is_child_write es = true
      /\ (forall a d,
            first (has_applicant_id applicant_id) (applicants w) = Some a ->
            compressed_json a = Some (Document d) ->
            es = (upsert_events ChildPersonal mine (personal_details w)
                    (personal d)
                  ++ sync_events mine (work_experience w) (experience d)
                  ++ upsert_events ChildSalary mine (salary_preferences w)
                       (salary d))%list)
      /\ ((forall a d,
             first (has_applicant_id applicant_id) (applicants w) = Some a ->
             compressed_json a <> Some (Document d)) ->
          es = []).
Proof.
  intros applicant_id w mine.
  destruct (first (has_applicant_id applicant_id) (applicants w)) as [a|] eqn:Hfind.
  2:{ exists []. rewrite app_nil_r, decompress_nothing.
      - repeat split; try done. simpl. lia.
      - intros a d Heq. by rewrite Hfind in Heq. }
  destruct (compressed_json a) as [[d|]|] eqn:Hjson.
  2,3: exists []; rewrite app_nil_r, decompress_nothing;
       [repeat split; try done; [simpl; lia|];
        intros a' d' [= <-]; by rewrite Hjson
       |intros a' d' Heq; rewrite Hfind in Heq; injection Heq as <-;
        by rewrite Hjson].
  set (es := (upsert_events ChildPersonal mine (personal_details w) (personal d)
              ++ sync_events mine (work_experience w) (experience d)
              ++ upsert_events ChildSalary mine (salary_preferences w)
                   (salary d))%list).
  exists es.
  destruct (upsert_events_child ChildPersonal mine (personal_details w)
              (personal d)) as [Hl1 Hc1].
  destruct (sync_events_child mine (work_experience w) (experience d))
    as [Hl2 Hc2].
  destruct (upsert_events_child ChildSalary mine (salary_preferences w)
              (salary d)) as [Hl3 Hc3].
  split.
  { unfold decompress_applicant_data. rewrite Hfind, Hjson.
    set (w1 := upsert ChildPersonal applicant_id (root_id a) (personal d) w).
    set (w2 := sync_experience applicant_id (root_id a) (experience d) w1).
    destruct (upsert_frame ChildPersonal applicant_id (root_id a) (personal d) w)
      as (Ha1 & _ & _ & Hf1).
    destruct (sync_experience_frame applicant_id (root_id a) (experience d) w1)
      as (Ha2 & _ & _ & _ & Hs2).
    fold w1 in Ha1, Hf1. fold w2 in Ha2, Hs2.
    rewrite trace_upsert. unfold w2 at 1. rewrite trace_sync_experience.
    unfold w1 at 1. rewrite trace_upsert.
    cbn [rows]. rewrite Ha2, Ha1, Hs2.
    change (work_experience w1) with (rows ChildExperience w1).
    change (salary_preferences w1) with (rows ChildSalary w1).
    rewrite (Hf1 ChildExperience), (Hf1 ChildSalary) by done.
    cbn [rows]. unfold es, mine. by rewrite <- !app_assoc. }
  split.
  { unfold es. rewrite !length_app. lia. }
  split.
  { unfold es. by rewrite !forallb_app, Hc1, Hc2, Hc3. }
  split.
  { intros a' d' [= <-]. rewrite Hjson. by intros [= <-]. }
  intros H. by destruct (H a d eq_refl).
Qed.

(** ** The experience calculation, entry by entry *)

Lemma total_months_from_sum (now : date) (jobs : list fields) : forall acc,
  total_months_from now acc jobs = Ok (acc + months_sum now jobs).
Proof.
  induction jobs as [|job rest IH]; intros acc; simpl.
  - f_equal. lia.
  - unfold months_counted. destruct (job_months now job) as [m|e] eqn:E.
    + rewrite IH. f_equal. lia.
    + destruct (job_months_raises _ _ _ E) as [-> | ->];
        rewrite IH; f_equal; lia.
Qed.

Lemma calculate_total_experience_months (now : date) (jobs : list fields) :
  calculate_total_experience now jobs
  = Ok (inject_Z (months_sum now jobs) / 12)%Q.
Proof.
  unfold calculate_total_experience. by rewrite total_months_from_sum.
Qed.

Lemma months_sum_app (now : date) (l1 l2 : list fields) :
  months_sum now (l1 ++ l2) = months_sum now l1 + months_sum now l2.
Proof.
  unfold months_sum. induction l1 as [|job rest IH]; simpl; [done|].
  rewrite IH. lia.
Qed.

Lemma months_sum_perm (now : date) (l1 l2 : list fields) :
  Permutation l1 l2 -> months_sum now l1 = months_sum now l2.
Proof.
  unfold months_sum. induction 1; simpl; lia.
Qed.

(** X16. The experience total is a plain sum over the entries: the total of
    two lists put together is the sum of their totals (so an entry listed
    twice, or two jobs held at the same time, count twice), and the order of
    the entries does not matter. *)
Theorem calculate_total_experience_sum :
  forall now l1 l2,
    (exists m1 m2,
       calculate_total_experience now l1 = Ok (inject_Z m1 / 12)%Q
       /\ calculate_total_experience now l2 = Ok (inject_Z m2 / 12)%Q
       /\ calculate_total_experience now (l1 ++ l2)
          = Ok (inject_Z (m1 + m2) / 12)%Q)
    /\ forall l, Permutation l1 l ->
         calculate_total_experience now l = calculate_total_experience now l1.
Proof.
  intros now l1 l2. split.
  - exists (months_sum now l1), (months_sum now l2).
    by rewrite !calculate_total_experience_months, months_sum_app.
  - intros l Hp.
    by rewrite !calculate_total_experience_months, (months_sum_perm _ _ _ Hp).
Qed.

Lemma job_months_falsy_end (now : date) (job : fields) :
  truthy (get job "End") = false ->
  job_months now job = job_months now (delete "End" job).
Proof.
  intros H. unfold job_months. rewrite H.
  assert (get (delete "End" job) "Start" = get job "Start") as ->.
  { unfold get. by rewrite lookup_delete_ne. }
  assert (get (delete "End" job) "End" = VNull) as ->.
  { unfold get. by rewrite lookup_delete_eq. }
  done.
Qed.

Lemma job_months_bad_end (now : date) (job : fields) :
  truthy (get job "End") = true ->
  date_of (job !! "End") = None ->
  job_months now job = Raise ValueError \/ job_months now job = Raise TypeError.
Proof.
  intros Ht Hd.
  destruct (job_months now job) as [m|e] eqn:E.
  - exfalso. unfold job_months in E. rewrite Ht in E.
    pose proof (strptime_get job "End") as He. rewrite Hd in He.
    destruct (Strptime.strptime (get job "Start")); simpl in E; [|discriminate].
    destruct He as [He | He]; rewrite He in E; discriminate.
  - destruct (job_months_raises _ _ _ E) as [-> | ->]; auto.
Qed.

(** X17. The [End] of an entry, case by case.  An [End] that is falsy (an
    empty text, zero, false, an empty list) counts as the current date, like
    an absent one.  An [End] that is truthy and not a date in the format (a
    text such as Present, a number) makes the loop skip the whole entry, even
    with a good [Start]: the total is that of the other entries. *)
Theorem calculate_total_experience_end :
  forall now job rest,
    (truthy (get job "End") = false ->
     calculate_total_experience now (job :: rest)
     = calculate_total_experience now (delete "End" job :: rest))
    /\ (truthy (get job "End") = true ->
        date_of (job !! "End") = None ->
        calculate_total_experience now (job :: rest)
        = calculate_total_experience now rest).
Proof.
  intros now job rest. rewrite !calculate_total_experience_months.
  unfold months_sum. simpl. unfold months_counted. split.
  - intros H. by rewrite (job_months_falsy_end _ _ H).
  - intros Ht Hd.
    destruct (job_months_bad_end now job Ht Hd) as [-> | ->];
      by rewrite Z.add_0_l.
Qed.

Lemma calculate_total_experience_end_witness :
  truthy (get present_job "End") = true
  /\ date_of (present_job !! "End") = None
  /\ calculate_total_experience (mkdate 2023 6 1) (present_job :: example_experience)
     = calculate_total_experience (mkdate 2023 6 1) example_experience.
Proof.
  split; [reflexivity|]. split; [reflexivity|].
  apply (proj2 (calculate_total_experience_end (mkdate 2023 6 1) present_job
                  example_experience)); reflexivity.
Defined.

Lemma digit_bounds (c : ascii) (x : Z) : PyStr.digit c = Some x -> 0 <= x <= 9.
Proof.
  unfold PyStr.digit. destruct (_ && _)%N eqn:E; [|discriminate].
  intros [= <-]. apply andb_prop in E as [E1 E2].
  apply N.leb_le in E1, E2. lia.
Qed.

Lemma one_digit_bounds (x : Z) (t : string) (m : Z) (r : string) :
  0 <= x <= 9 -> Strptime.one_digit x t = Some (m, r) -> 1 <= m <= 9.
Proof.
  unfold Strptime.one_digit. intros Hx.
  destruct (1 <=? x) eqn:E; [|discriminate].
  intros [= <- _]. apply Z.leb_le in E. lia.
Qed.

Lemma directive_m_bounds (s : string) (m : Z) (r : string) :
  Strptime.directive_m s = Some (m, r) -> 1 <= m <= 12.
Proof.
  unfold Strptime.directive_m. destruct s as [|a t]; [discriminate|].
  destruct (PyStr.digit a) as [x|] eqn:Ea; [|discriminate].
  pose proof (digit_bounds _ _ Ea) as Hx.
  assert (forall m r, Strptime.one_digit x t = Some (m, r) -> 1 <= m <= 12) as H1.
  { intros m' r' H. pose proof (one_digit_bounds _ _ _ _ Hx H). lia. }
  destruct t as [|b rest]; [apply H1|].
  destruct (PyStr.digit b) as [y|] eqn:Eb; [|apply H1].
  pose proof (digit_bounds _ _ Eb) as Hy.
  destruct ((x =? 1) && (y <=? 2)) eqn:E1.
  { intros [= <- _]. apply andb_prop in E1 as [_ E1]. apply Z.leb_le in E1. lia. }
  destruct ((x =? 0) && (1 <=? y)) eqn:E2; [|apply H1].
  intros [= <- _]. apply andb_prop in E2 as [_ E2]. apply Z.leb_le in E2. lia.
Qed.

Lemma parse_month (s : string) (d : date) :
  Strptime.parse s = Some d -> 1 <= month d <= 12.
Proof.
  unfold Strptime.parse.
  destruct (Strptime.directive_Y s) as [[y s1]|]; [|discriminate]. simpl.
  destruct (Strptime.literal "-" s1) as [s2|]; [|discriminate]. simpl.
  destruct (Strptime.directive_m s2) as [[m s3]|] eqn:Em; [|discriminate]. simpl.
  destruct (Strptime.literal "-" s3) as [s4|]; [|discriminate]. simpl.
  destruct (Strptime.directive_d s4) as [[dd s5]|]; [|discriminate]. simpl.
  destruct (_ && _); [|discriminate].
  intros [= <-]. simpl. by apply directive_m_bounds in Em.
Qed.

(** X18. A duration is never clamped.  An entry whose [End] lies in an
    earlier calendar month than its [Start] counts a negative number of
    months, and the total of a list with it is lower than the total of the
    list without it. *)
Theorem calculate_total_experience_negative :
  forall now job rest s e,
    start_of job = Some s ->
    date_of (job !! "End") = Some e ->
    earlier_month e s ->
    exists m y y',
      job_months now job = Ok m /\ m < 0
      /\ calculate_total_experience now rest = Ok y
      /\ calculate_total_experience now (job :: rest) = Ok y'
      /\ (y' < y)%Q.
Proof.
  intros now job rest s e Hs He Hlt.
  assert (1 <= month s <= 12 /\ 1 <= month e <= 12) as [Hms Hme].
  { unfold start_of, date_of in Hs, He.
    destruct (job !! "Start") as [[]|]; try discriminate.
    destruct (job !! "End") as [[]|]; try discriminate.
    split; eapply parse_month; eassumption. }
  assert (job_months now job = Ok (month_difference s e)) as Hm.
  { unfold job_months.
    pose proof (strptime_get job "Start") as Hs'. unfold start_of in Hs.
    rewrite Hs in Hs'. rewrite Hs'. simpl.
    pose proof (strptime_get job "End") as He'. rewrite He in He'.
    assert (truthy (get job "End") = true) as ->.
    { unfold get, date_of in *. destruct (job !! "End") as [[]|]; try discriminate.
      simpl. destruct s0; [discriminate|done]. }
    by rewrite He'. }
  assert (month_difference s e < 0) as Hneg.
  { unfold month_difference. destruct Hlt as [Hy | [Hy Hmo]]; lia. }
  exists (month_difference s e), (inject_Z (months_sum now rest) / 12)%Q,
    (inject_Z (months_sum now (job :: rest)) / 12)%Q.
  split; [done|]. split; [done|].
  rewrite !calculate_total_experience_months. split; [done|]. split; [done|].
  unfold months_sum at 1. simpl. fold (months_sum now rest).
  unfold months_counted. rewrite Hm.
  unfold Qlt, Qdiv. simpl. lia.
Qed.

Lemma calculate_total_experience_negative_witness :
  start_of backwards_job = Some (mkdate 2021 3 1)
  /\ date_of (backwards_job !! "End") = Some (mkdate 2020 7 15)
  /\ earlier_month (mkdate 2020 7 15) (mkdate 2021 3 1)
  /\ exists m, job_months (mkdate 2023 6 1) backwards_job = Ok m /\ m < 0.
Proof.
  assert (start_of backwards_job = Some (mkdate 2021 3 1)) as Hs
    by (vm_compute; reflexivity).
  assert (date_of (backwards_job !! "End") = Some (mkdate 2020 7 15)) as He
    by (vm_compute; reflexivity).
  assert (earlier_month (mkdate 2020 7 15) (mkdate 2021 3 1)) as Hlt
    by (left; simpl; lia).
  split; [exact Hs|]. split; [exact He|]. split; [exact Hlt|].
  destruct (calculate_total_experience_negative (mkdate 2023 6 1) backwards_job
              example_experience _ _ Hs He Hlt) as (m & _ & _ & Hm & Hneg & _).
  by exists m.
Defined.

Lemma months_counted_mono (now now' : date) (job : fields) :
  month_index now <= month_index now' ->
  months_counted now job <= months_counted now' job.
Proof.
  intros H. unfold months_counted, job_months, month_index in *.
  destruct (Strptime.strptime (get job "Start")) as [s|]; simpl; [|done].
  destruct (truthy (get job "End")); simpl; [|lia].
  by destruct (Strptime.strptime (get job "End")).
Qed.

Lemma months_sum_mono (now now' : date) (jobs : list fields) :
  month_index now <= month_index now' ->
  months_sum now jobs <= months_sum now' jobs.
Proof.
  intros H. unfold months_sum. induction jobs as [|job rest IH]; simpl; [done|].
  pose proof (months_counted_mono now now' job H). lia.
Qed.

(** X19. The decision and the clock.  Whether the evaluation raises, and
    what, does not depend on the clock.  And time only helps: an applicant
    shortlisted at one date is shortlisted, on the same document, at any date
    in the same or a later calendar month. *)
Theorem shortlist_decision_later :
  forall now now' d,
    (forall e, shortlist_decision now d = Raise e ->
               shortlist_decision now' d = Raise e)
    /\ (month_index now <= month_index now' ->
        forall reason,
          shortlist_decision now d = Ok (Some reason) ->
          exists reason', shortlist_decision now' d = Ok (Some reason')).
Proof.
  intros now now' d. unfold shortlist_decision.
  rewrite !calculate_total_experience_months. simpl.
  destruct (any_tier_1 (experience d)) as [tier|e1]; simpl; [|by split].
  destruct (not_none_and _ (py_le _ _)) as [rate_ok|e2]; simpl; [|by split].
  destruct (if rate_ok then _ else _) as [comp_ok|e3]; simpl; [|by split].
  destruct (py_lower _) as [location|e4]; simpl; [|by split].
  split.
  { intros e. by do 2 destruct (_ && _ && _). }
  intros Hle reason.
  pose proof (months_sum_mono now now' (experience d) Hle) as Hm.
  destruct (Qle_bool 4 (inject_Z (months_sum now (experience d)) / 12))
    eqn:E4.
  - assert (Qle_bool 4 (inject_Z (months_sum now' (experience d)) / 12) = true)
      as ->.
    { apply Qle_bool_iff. apply Qle_bool_iff in E4.
      unfold Qle, Qdiv in *. simpl in *. lia. }
    simpl. destruct (comp_ok && _); [by eexists|discriminate].
  - simpl. destruct tier; simpl.
    + rewrite orb_true_r. simpl. destruct (comp_ok && _); [by eexists|discriminate].
    + discriminate.
Qed.

Lemma shortlist_decision_later_witness :
  month_index (mkdate 2023 6 1) <= month_index (mkdate 2024 1 1)
  /\ exists reason',
       shortlist_decision (mkdate 2024 1 1) open_ended_document
       = Ok (Some reason').
Proof.
  assert (month_index (mkdate 2023 6 1) <= month_index (mkdate 2024 1 1)) as H
    by (vm_compute; discriminate).
  split; [exact H|].
  apply (proj2 (shortlist_decision_later (mkdate 2023 6 1) (mkdate 2024 1 1)
                  open_ended_document) H
           (mkreason (inject_Z 48 / 12)%Q false (VInt 80) (VInt 25)
              (VStr "United States"))).
  vm_compute. reflexivity.
Defined.

(** ** The tier-1 check *)

Lemma any_tier_1_hit (before after : list fields) (job : fields) :
  Forall company_is_text before ->
  company_is_tier_1 job = true ->
  any_tier_1 (before ++ job :: after) = Ok true.
Proof.
  intros Hb Hjob. induction Hb as [|x rest Hx _ IH]; simpl.
  - unfold company_is_tier_1, get_or in *.
    destruct (job !! "Company") as [[]|]; try discriminate. simpl.
    by rewrite Hjob.
  - unfold company_is_text, get_or in *.
    destruct (x !! "Company") as [[]|]; simpl; try done.
    by destruct (is_tier_1 (PyStr.lower s)).
Qed.

Lemma any_tier_1_bad_company (before after : list fields) (job : fields) :
  Forall company_is_text before ->
  existsb company_is_tier_1 before = false ->
  ~ company_is_text job ->
  any_tier_1 (before ++ job :: after) = Raise AttributeError.
Proof.
  intros Hb Hnone Hjob. induction Hb as [|x rest Hx _ IH]; simpl.
  - unfold company_is_text, get_or in *.
    destruct (job !! "Company") as [[]|]; simpl; try done; by destruct Hjob.
  - simpl in Hnone. apply orb_false_elim in Hnone as [Hx1 Hrest].
    unfold company_is_text, company_is_tier_1, get_or in *.
    destruct (x !! "Company") as [[]|]; simpl; try done; [|by apply IH].
    rewrite Hx1. by apply IH.
Qed.

(** X20. The tier-1 check reads the entries in order and stops at the first
    hit.  After entries whose companies are texts, an entry with a tier-1
    employer settles the check, whatever follows it, be it an entry whose
    company is not a text; but an entry whose company is not a text, met
    before any hit, makes the whole shortlist decision raise
    [AttributeError].  So the outcome depends on the order of the
    entries. *)
Theorem any_tier_1_stops_at_first_hit :
  forall before job after,
    Forall company_is_text before ->
    (company_is_tier_1 job = true ->
     any_tier_1 (before ++ job :: after) = Ok true)
    /\ (existsb company_is_tier_1 before = false ->
        ~ company_is_text job ->
        forall now p s,
          shortlist_decision now (mkdoc p (before ++ job :: after) s)
          = Raise AttributeError).
Proof.
  intros before job after Hb. split.
  - by apply any_tier_1_hit.
  - intros Hnone Hjob now p s. unfold shortlist_decision.
    rewrite calculate_total_experience_months. simpl.
    by rewrite any_tier_1_bad_company.
Qed.

Lemma any_tier_1_stops_at_first_hit_witness :
  Forall company_is_text [initech_job]
  /\ any_tier_1 [initech_job; google_job; null_company_job] = Ok true
  /\ shortlist_decision (mkdate 2023 6 1)
       (mkdoc (personal passing_document)
          [initech_job; null_company_job; google_job]
          (salary passing_document))
     = Raise AttributeError.
Proof.
  assert (Forall company_is_text [initech_job]) as H.
  { constructor; [vm_compute; exact I|constructor]. }
  split; [exact H|].
  split.
  - apply (proj1 (any_tier_1_stops_at_first_hit [initech_job] google_job
                    [null_company_job] H)).
    reflexivity.
  - apply (proj2 (any_tier_1_stops_at_first_hit [initech_job] null_company_job
                    [google_job] H)).
    + reflexivity.
    + intros Hc. exact Hc.
Defined.
